(** * Procesador: the time-interval accounting engine of [procesador/core.py]

    A shallow embedding of the calculation core ([add_minutes],
    [round_minutes], [minutos_entre], [normalize_registro_times],
    [map_eventos], [calcular_trabajado]) and the properties the
    specification states about it.

    Conventions of the embedding:
    - a Python [datetime.time] of minute resolution is the record [time];
      Python's constructor only builds values with [0 <= hour < 24] and
      [0 <= minute < 60], which is the predicate [wf_time];
    - a [datetime(2000, 1, 1, h, m)] is the number of minutes elapsed since
      2000-01-01 00:00, an integer; adding [timedelta(days=1)] adds 1440;
    - every [time] object is truthy (Python 3.5 and later), so [if t] and
      [not t] only test for [None];
    - the events dictionary is a finite map from strings to Python values. *)

From Stdlib Require Import ZArith Lia Ascii.
From stdpp Require Import base option list gmap strings sorting.

Open Scope Z_scope.

(** ** Times and datetimes *)

Record time : Type := Time { hour : Z; minute : Z }.

Global Instance time_eq_dec : EqDecision time.
Proof. solve_decision. Defined.

Definition wf_time (t : time) : Prop :=
  0 <= hour t < 24 /\ 0 <= minute t < 60.

(** [datetime(2000, 1, 1, t.hour, t.minute)], in minutes since that day's
    midnight. *)
Definition datetime_of (t : time) : Z := hour t * 60 + minute t.

(** [dt.hour] and [dt.minute] of a datetime. *)
Definition dt_hour (dt : Z) : Z := (dt / 60) mod 24.
Definition dt_minute (dt : Z) : Z := dt mod 60.

(** [time(dt.hour, dt.minute)]. *)
Definition time_of_dt (dt : Z) : time := Time (dt_hour dt) (dt_minute dt).

(** Python's [a < b] on times: lexicographic on (hour, minute). *)
Definition time_ltb (a b : time) : bool :=
  (hour a <? hour b) || ((hour a =? hour b) && (minute a <? minute b)).

(** [datetime.min] and [datetime.max] at minute resolution, 0001-01-01 00:00
    and 9999-12-31 23:59, in minutes since 2000-01-01 00:00. *)
Definition datetime_min : Z := -1051371360.
Definition datetime_max : Z := 4207593599.

(** [datetime + timedelta] returns when the sum lies between [datetime.min]
    and [datetime.max], and raises OverflowError otherwise. *)
Definition en_rango (dt : Z) : bool := (datetime_min <=? dt) && (dt <=? datetime_max).

(** ** The helpers of core.py *)

(** [add_minutes(t, minutes)] returns when [t] is [None] or the sum stays in
    the range of [datetime]. *)
Definition add_minutes_en_rango (t : option time) (minutes : Z) : bool :=
  match t with
  | None => true
  | Some t => en_rango (datetime_of t + minutes)
  end.

(** The value [add_minutes] returns, on the range [add_minutes_en_rango]
    where it returns one: over two thousand years before and eight thousand
    years after the base day. Outside that range the code raises
    OverflowError and the model keeps the time of the day of the sum. *)
Definition add_minutes (t : option time) (minutes : Z) : option time :=
  match t with
  | None => None
  | Some t => Some (time_of_dt (datetime_of t + minutes))
  end.

Definition round_minutes (value_min step : Z) (mode : string) : Z :=
  if step <=? 1 then Z.max 0 value_min
  else
    let v := Z.max 0 value_min in
    if String.eqb mode "up" then ((v + step - 1) / step) * step
    else if String.eqb mode "down" then (v / step) * step
    else
      let lo := (v / step) * step in
      let hi := lo + step in
      if (hi - v) <=? (v - lo) then hi else lo.

Definition minutos_entre (t1 t2 : option time) : Z :=
  match t1, t2 with
  | Some t1, Some t2 =>
      let dt1 := datetime_of t1 in
      let dt2 := datetime_of t2 in
      let dt2 := if dt2 <? dt1 then dt2 + 1440 else dt2 in
      dt2 - dt1
  | _, _ => 0
  end.

(** ** Python's [sorted]: a stable sort under a key order *)

Section sorted.
Context {A : Type} (leb : A -> A -> bool).

Fixpoint insert_sorted (x : A) (l : list A) : list A :=
  match l with
  | [] => [x]
  | y :: l' => if leb x y then x :: y :: l' else y :: insert_sorted x l'
  end.

Fixpoint sorted (l : list A) : list A :=
  match l with
  | [] => []
  | x :: l' => insert_sorted x (sorted l')
  end.

(** The order a boolean comparison stands for. *)
Definition le_of (x y : A) : Prop := leb x y = true.
End sorted.

(** ** normalize_registro_times *)

Definition min_of_day (t : time) : Z := hour t * 60 + minute t.

(** [max(l)] and [min(l)] of a non-empty list. *)
Definition py_max (l : list Z) : Z :=
  match l with [] => 0 | x :: l' => fold_left Z.max l' x end.
Definition py_min (l : list Z) : Z :=
  match l with [] => 0 | x :: l' => fold_left Z.min l' x end.

Definition has_smaller (mins : list Z) : bool :=
  existsb (fun m => m <? hd 0 mins) (tail mins).

Definition wrap_likely (mins : list Z) : bool :=
  let entry_min := hd 0 mins in
  let span := py_max mins - py_min mins in
  ((1080 <=? entry_min) && has_smaller mins) || (has_smaller mins && (720 <? span)).

(** The tuples [(adj, idx, t)] of the loop over [enumerate(zip(times, mins))]. *)
Definition adjusted (times : list time) : list (Z * nat * time) :=
  let mins := min_of_day <$> times in
  let entry_min := hd 0 mins in
  imap (fun idx t =>
          let m := min_of_day t in
          (m + (if wrap_likely mins && (m <? entry_min) then 1440 else 0), idx, t))
       times.

(** The sort key [(x[0], x[1])], compared as Python compares tuples. *)
Definition key_leb (x y : Z * nat * time) : bool :=
  (x.1.1 <? y.1.1) || ((x.1.1 =? y.1.1) && (x.1.2 <=? y.1.2)%nat).

Definition normalize_registro_times (times : list time) : list time * bool :=
  if (length times <? 2)%nat then (times, false)
  else
    let ordered := sorted key_leb (adjusted times) in
    let out := snd <$> ordered in
    (out, bool_decide (out <> times)).

(** ** map_eventos *)

(** The values held by the events dictionary. *)
Inductive pyval : Type :=
  | PyNone
  | PyTime (t : time)
  | PyInt (n : Z).

Definition labels : list string :=
  ["Entrada"; "Salida a comer"; "Regreso de comer"; "Salida a cenar";
   "Regreso de cenar"; "Salida"]%string.

Definition middle_labels : list string :=
  ["Salida a comer"; "Regreso de comer"; "Salida a cenar"; "Regreso de cenar"]%string.

(** [times[1:-1]]. *)
Definition middle_of (times : list time) : list time := removelast (tail times).

Definition map_eventos (times : list time) : gmap string pyval :=
  let out : gmap string pyval := list_to_map ((fun k => (k, PyNone)) <$> labels) in
  let n := Z.of_nat (length times) in
  let out := <["_extra_registros"%string := PyInt (Z.max 0 (n - 6))]> out in
  match times with
  | [] => out
  | [t0] => <["Entrada"%string := PyTime t0]> out
  | t0 :: _ =>
      let out := <["Entrada"%string := PyTime t0]> out in
      let out := <["Salida"%string := PyTime (List.last times t0)]> out in
      fold_left (fun o lt => <[lt.1 := PyTime lt.2]> o)
                (zip middle_labels (take 4 (middle_of times))) out
  end.

(** [eventos.get(k)] for a slot that holds a time or [None]; a missing key
    reads as [None] too. *)
Definition ev_get (eventos : gmap string pyval) (k : string) : option time :=
  match eventos !! k with
  | Some (PyTime t) => Some t
  | _ => None
  end.

(** ** The configuration fields the engine reads *)

Record AppConfig : Type := {
  umbral_extra_min : Z;
  redondeo_extra_step_min : Z;
  redondeo_extra_modo : string;
  tope_descuento_comida_min : Z;
  umbral_comida_media_hora_min : Z
}.

(** [AppConfig()]. *)
Definition AppConfig_default : AppConfig := {|
  umbral_extra_min := 480;
  redondeo_extra_step_min := 1;
  redondeo_extra_modo := "none";
  tope_descuento_comida_min := 30;
  umbral_comida_media_hora_min := 60
|}.

(** ** calcular_trabajado *)

(** The tuple returned by [calcular_trabajado], field by field. *)
Record resultado : Type := Resultado {
  trabajado : Z;
  extra : Z;
  comida_ded : Z;
  cena_ded : Z;
  extra_ded : Z;
  nolab_overlap_cd : Z;
  nolab_solape_interno : Z;
  ignored_outside_shift : Z
}.

Definition resultado_cero : resultado := Resultado 0 0 0 0 0 0 0 0.

(** One manual exception: [(ini, fin, nota)]. *)
Definition no_laborado : Type := option time * option time * string.

(** The meal block (lines 140-154): the deduction and the end of the
    deducted window, [comida_fin_ventana]. The block runs after the early
    return, so [sal] is a time: [(reg_com or sal)] is true and [fin_real] is
    never [None]. *)
Definition comida (sal_com reg_com : option time) (sal : time) (cfg : AppConfig)
  : Z * option time :=
  if bool_decide (is_Some sal_com) && (bool_decide (is_Some reg_com) || true) then
    let fin_real := match reg_com with Some r => r | None => sal end in
    let dur_real := minutos_entre sal_com (Some fin_real) in
    let umbral := umbral_comida_media_hora_min cfg in
    if dur_real <=? umbral then
      let ded := Z.min dur_real (tope_descuento_comida_min cfg) in
      (ded, add_minutes sal_com ded)
    else (dur_real, Some fin_real)
  else (0, None).

(** The dinner block (lines 156-163). *)
Definition cena (sal_cen reg_cen : option time) (sal : time) : Z :=
  match sal_cen, reg_cen with
  | Some _, Some _ => minutos_entre sal_cen reg_cen
  | Some _, None => minutos_entre sal_cen (Some sal)
  | None, _ => 0
  end.

(** [ventanas_descuento] (lines 170-177): the windows already deducted. *)
Definition ventanas_descuento (sal_com comida_fin_ventana sal_cen reg_cen : option time)
    (sal : time) : list (time * time) :=
  (match sal_com, comida_fin_ventana with
   | Some sc, Some fv => [(sc, fv)]
   | _, _ => []
   end) ++
  (match sal_cen with
   | Some sc => [(sc, match reg_cen with Some r => r | None => sal end)]
   | None => []
   end).

(** The nested helpers close over [ent] and [sal]. *)
Section jornada.
Variables (ent sal : time).

Definition crosses_midnight : bool := time_ltb sal ent.

Definition _to_shift_dt (t : time) : Z :=
  let base := datetime_of t in
  if crosses_midnight && time_ltb t ent then base + 1440 else base.

Definition _window (ent_t sal_t : time) : Z * Z :=
  let a := _to_shift_dt ent_t in
  let b := _to_shift_dt sal_t in
  let b := if b <? a then b + 1440 else b in
  (a, b).

(** Its four arguments are times at every call, so the guard
    [if not a1 or not a2 or not b1 or not b2] never fires. *)
Definition _overlap_min (a1 a2 b1 b2 : time) : Z :=
  let A1 := _to_shift_dt a1 in
  let A2 := _to_shift_dt a2 in
  let B1 := _to_shift_dt b1 in
  let B2 := _to_shift_dt b2 in
  let A2 := if A2 <? A1 then A2 + 1440 else A2 in
  let B2 := if B2 <? B1 then B2 + 1440 else B2 in
  let s := Z.max A1 B1 in
  let e := Z.min A2 B2 in
  if e <=? s then 0 else e - s.

Definition _clip_to_shift (ini_t fin_t ent_t sal_t : time) : option (time * time * Z) :=
  let '(s0, s1) := _window ent_t sal_t in
  let a0 := _to_shift_dt ini_t in
  let a1 := _to_shift_dt fin_t in
  let a1 := if a1 <? a0 then a1 + 1440 else a1 in
  let i0 := Z.max a0 s0 in
  let i1 := Z.min a1 s1 in
  if i1 <=? i0 then None
  else
    let inside := i1 - i0 in
    let total_i := a1 - a0 in
    let ignorados := Z.max 0 (total_i - inside) in
    Some (time_of_dt i0, time_of_dt i1, ignorados).

(** Body of the first loop (lines 231-248); the state is
    [(intervals, ignored_outside_shift)]. *)
Definition recortar (st : list (time * time) * Z) (x : no_laborado)
  : list (time * time) * Z :=
  let '(ini, fin, _nota) := x in
  match ini with
  | None => st
  | Some ini =>
      let fin_eff := match fin with Some f => f | None => sal end in
      match _clip_to_shift ini fin_eff ent sal with
      | None => (st.1, st.2 + minutos_entre (Some ini) (Some fin_eff))
      | Some (ini_c, fin_c, ign) => (st.1 ++ [(ini_c, fin_c)], st.2 + ign)
      end
  end.

(** The key of [intervals.sort] (line 251). *)
Definition inicio_leb (x y : time * time) : bool :=
  minutos_entre (Some ent) (Some x.1) <=? minutos_entre (Some ent) (Some y.1).

(** Body of the merge loop (lines 254-277); the state is
    [(merged, nolab_solape_interno)], and [merged[-1][1] = fin] is the
    update of the last position. *)
Definition fusionar (st : list (time * time) * Z) (x : time * time)
  : list (time * time) * Z :=
  let '(ini, fin) := x in
  match last st.1 with
  | None => (st.1 ++ [(ini, fin)], st.2)
  | Some (last_ini, last_fin) =>
      if (0 <? _overlap_min last_ini last_fin ini fin) || bool_decide (last_fin = ini) then
        let solape := st.2 + _overlap_min last_ini last_fin ini fin in
        let lf := _to_shift_dt last_fin in
        let cf := _to_shift_dt fin in
        let li := _to_shift_dt last_ini in
        let ci := _to_shift_dt ini in
        let lf := if lf <? li then lf + 1440 else lf in
        let cf := if cf <? ci then cf + 1440 else cf in
        if lf <? cf then (<[pred (length st.1) := (last_ini, fin)]> st.1, solape)
        else (st.1, solape)
      else (st.1 ++ [(ini, fin)], st.2)
  end.

(** Body of the last loop (lines 279-285); the state is
    [(nolab_overlap_cd, extra_ded)]. *)
Definition descontar (ventanas : list (time * time)) (st : Z * Z) (x : time * time)
  : Z * Z :=
  let '(ini, fin) := x in
  let dur := minutos_entre (Some ini) (Some fin) in
  let ov := fold_left (fun ov v => ov + _overlap_min ini fin v.1 v.2) ventanas 0 in
  (st.1 + ov, st.2 + Z.max 0 (dur - ov)).

(** The block under [if no_laborado_extra:]; it yields
    [(extra_ded, nolab_overlap_cd, nolab_solape_interno, ignored_outside_shift)]. *)
Definition no_laborado_bloque (ventanas : list (time * time))
    (no_laborado_extra : option (list no_laborado)) : Z * Z * Z * Z :=
  match no_laborado_extra with
  | None | Some [] => (0, 0, 0, 0)
  | Some l =>
      let '(intervals, ignored) := fold_left recortar l ([], 0) in
      let intervals := sorted inicio_leb intervals in
      let '(merged, solape) := fold_left fusionar intervals ([], 0) in
      let '(overlap_cd, ded) := fold_left (descontar ventanas) merged (0, 0) in
      (ded, overlap_cd, solape, ignored)
  end.
End jornada.

Definition calcular_trabajado (eventos : gmap string pyval) (cfg : AppConfig)
    (no_laborado_extra : option (list no_laborado)) : resultado :=
  match ev_get eventos "Entrada", ev_get eventos "Salida" with
  | Some ent, Some sal =>
      let total := minutos_entre (Some ent) (Some sal) in
      let sal_com := ev_get eventos "Salida a comer" in
      let reg_com := ev_get eventos "Regreso de comer" in
      let '(comida_ded, comida_fin_ventana) := comida sal_com reg_com sal cfg in
      let sal_cen := ev_get eventos "Salida a cenar" in
      let reg_cen := ev_get eventos "Regreso de cenar" in
      let cena_ded := cena sal_cen reg_cen sal in
      let ventanas := ventanas_descuento sal_com comida_fin_ventana sal_cen reg_cen sal in
      let '(extra_ded, overlap_cd, solape, ignored) :=
        no_laborado_bloque ent sal ventanas no_laborado_extra in
      let trabajado := Z.max 0 (total - comida_ded - cena_ded - extra_ded) in
      let extra := Z.max 0 (trabajado - umbral_extra_min cfg) in
      let extra :=
        if negb (redondeo_extra_step_min cfg =? 0) && (1 <? redondeo_extra_step_min cfg)
           && negb (String.eqb (redondeo_extra_modo cfg) "none")
        then round_minutes extra (redondeo_extra_step_min cfg) (redondeo_extra_modo cfg)
        else extra in
      Resultado trabajado extra comida_ded cena_ded extra_ded overlap_cd solape ignored
  | _, _ => resultado_cero
  end.

Global Arguments minutos_entre : simpl never.
Global Arguments comida : simpl never.
Global Arguments cena : simpl never.
Global Arguments add_minutes : simpl never.
Global Arguments round_minutes : simpl never.
Global Arguments _to_shift_dt : simpl never.
Global Arguments _overlap_min : simpl never.
Global Arguments _clip_to_shift : simpl never.
Global Arguments _window : simpl never.
Global Arguments datetime_of : simpl never.
Global Arguments time_of_dt : simpl never.

(** ** Well-formed inputs *)

(** Every time stored in the dictionary is one Python can build. *)
Definition wf_eventos (eventos : gmap string pyval) : Prop :=
  forall k t, eventos !! k = Some (PyTime t) -> wf_time t.

Definition wf_no_laborado (x : no_laborado) : Prop :=
  from_option wf_time True x.1.1 /\ from_option wf_time True x.1.2.

(** Building a dictionary from literal [(key, time)] pairs. *)
Definition dict (l : list (string * time)) : gmap string pyval :=
  list_to_map ((fun kv => (kv.1, PyTime kv.2)) <$> l).

(** ** The steps of the engine as the specification words them

    The specification describes the meal and dinner windows and the
    exceptions on the shift timeline: each interval and each window is a pair
    of positions in minutes, and clipping, sorting, merging and deducting are
    arithmetic on those pairs. The definitions of this part follow the text
    and use none of the helpers of core.py: times of the day enter through
    [spec_minuto] only. They are compared below with what
    [calcular_trabajado] does on time-of-day values. *)

(** The minute of the day of a time. *)
Definition spec_minuto (t : time) : Z := hour t * 60 + minute t.

(** "[minutes_between] adds 24h to the end time if the raw numeric
    end-of-day time is less than the start." *)
Definition spec_minutos_entre (a b : time) : Z :=
  (if spec_minuto b <? spec_minuto a then spec_minuto b + 1440 else spec_minuto b)
  - spec_minuto a.

(** A time of the day plus a number of minutes, around the clock. *)
Definition spec_mas_minutos (t : time) (m : Z) : time :=
  let x := (spec_minuto t + m) mod 1440 in
  Time (x / 60) (x mod 60).

Definition sumZ (l : list Z) : Z := foldr Z.add 0 l.

Section spec_no_laborado.
Variables (ent sal : time).

(** The shift timeline as the specification words it: "any time earlier
    than Entry is assumed to be the following day". *)
Definition spec_linea_literal (t : time) : Z :=
  spec_minuto t + (if spec_minuto t <? spec_minuto ent then 1440 else 0).

(** The shift timeline of the amended statement: a time earlier than Entry
    is the following day only on a shift that crosses midnight, that is,
    when Exit is earlier than Entry. *)
Definition spec_linea (t : time) : Z :=
  spec_minuto t +
  (if (spec_minuto sal <? spec_minuto ent) && (spec_minuto t <? spec_minuto ent)
   then 1440 else 0).

(** An interval [(ini, fin)] placed on the shift timeline; an end that falls
    before its start is the next day's. *)
Definition spec_intervalo (x : time * time) : Z * Z :=
  let a0 := spec_linea x.1 in
  let a1 := spec_linea x.2 in
  (a0, if a1 <? a0 then a1 + 1440 else a1).

(** The shift window [Entry, Exit]. *)
Definition spec_jornada : Z * Z := spec_intervalo (ent, sal).

(** Minutes two intervals have in common. *)
Definition spec_solape (x y : Z * Z) : Z :=
  Z.max 0 (Z.min x.2 y.2 - Z.max x.1 y.1).

(** "If start is absent skip it. If end is absent, substitute Exit." *)
Definition spec_efectivos (l : list no_laborado) : list (time * time) :=
  omap (fun x : no_laborado =>
          match x.1.1 with
          | None => None
          | Some ini => Some (ini, default sal x.1.2)
          end) l.

(** The part of an interval inside the shift window, if any. *)
Definition spec_dentro (a : Z * Z) : option (Z * Z) :=
  let i := (Z.max a.1 spec_jornada.1, Z.min a.2 spec_jornada.2) in
  if i.2 <=? i.1 then None else Some i.

(** "An interval entirely outside the window is dropped ...; an interval
    partially outside is trimmed." *)
Definition spec_recortados (l : list (time * time)) : list (Z * Z) :=
  omap (fun x => spec_dentro (spec_intervalo x)) l.

(** "... its full original duration is accumulated into the ignored outside
    shift counter; ... the trimmed-off portion is added to the same counter." *)
Definition spec_ignorado (x : time * time) : Z :=
  let a := spec_intervalo x in
  match spec_dentro a with
  | None => a.2 - a.1
  | Some i => (a.2 - a.1) - (i.2 - i.1)
  end.

Definition spec_ignorados (l : list (time * time)) : Z :=
  sumZ (spec_ignorado <$> l).

(** "Sort the surviving, clipped intervals by their offset from Entry." *)
Definition spec_offset_leb (x y : Z * Z) : bool :=
  (x.1 - spec_jornada.1) <=? (y.1 - spec_jornada.1).

Definition spec_ordenados (l : list (Z * Z)) : list (Z * Z) :=
  sorted spec_offset_leb l.

(** "Two intervals merge when they overlap by >0 minutes or are exactly
    back-to-back." *)
Definition spec_se_fusionan (cur x : Z * Z) : bool :=
  (0 <? spec_solape cur x) || (cur.2 =? x.1).

(** "Merging extends the running interval's end to the later of the two
    ends": the merge as a fold over the sorted intervals, [cur] being the
    running interval. *)
Fixpoint spec_fusion (cur : Z * Z) (rest : list (Z * Z)) : list (Z * Z) :=
  match rest with
  | [] => [cur]
  | x :: rest' =>
      if spec_se_fusionan cur x then spec_fusion (cur.1, Z.max cur.2 x.2) rest'
      else cur :: spec_fusion x rest'
  end.

(** "The amount of time counted as overlapping is accumulated into an
    internal overlap counter." *)
Fixpoint spec_solape_fusion (cur : Z * Z) (rest : list (Z * Z)) : Z :=
  match rest with
  | [] => 0
  | x :: rest' =>
      if spec_se_fusionan cur x
      then spec_solape cur x + spec_solape_fusion (cur.1, Z.max cur.2 x.2) rest'
      else spec_solape_fusion x rest'
  end.

Definition spec_fusionados (l : list (Z * Z)) : list (Z * Z) :=
  match l with [] => [] | x :: rest => spec_fusion x rest end.

Definition spec_solape_interno (l : list (Z * Z)) : Z :=
  match l with [] => 0 | x :: rest => spec_solape_fusion x rest end.

(** The overlap of a merged interval with the recorded meal and dinner
    windows. *)
Definition spec_solape_ventanas (ventanas : list (Z * Z)) (m : Z * Z) : Z :=
  sumZ (spec_solape m <$> ventanas).

(** "Deduct only the non-overlapping portion of the merged interval": the
    duration minus the overlap, never below 0. *)
Definition spec_no_solapado (ventanas : list (Z * Z)) (m : Z * Z) : Z :=
  Z.max 0 ((m.2 - m.1) - spec_solape_ventanas ventanas m).

(** The same without the floor at 0: duration minus overlap. *)
Definition spec_duracion_menos_solape (ventanas : list (Z * Z)) (m : Z * Z) : Z :=
  (m.2 - m.1) - spec_solape_ventanas ventanas m.

(** The merged intervals of an exception list. *)
Definition spec_merged (l : list no_laborado) : list (Z * Z) :=
  spec_fusionados (spec_ordenados (spec_recortados (spec_efectivos l))).
End spec_no_laborado.

(** ** The recorded meal and dinner windows *)

Section spec_descuentos.
Variables (eventos : gmap string pyval) (cfg : AppConfig) (sal : time).

(** "Effective meal end = MealIn if present, else Exit." *)
Definition spec_fin_comida : time := default sal (ev_get eventos "Regreso de comer").

(** The meal deduction of a day whose meal starts at [mo]: [min actual cap]
    up to the ceiling, the full [actual] above it. *)
Definition spec_descuento_comida (mo : time) : Z :=
  let actual := spec_minutos_entre mo spec_fin_comida in
  if actual <=? umbral_comida_media_hora_min cfg
  then Z.min actual (tope_descuento_comida_min cfg)
  else actual.

(** The recorded meal window: from MealOut to "MealOut + deducted-minutes
    when the cap applied", to the effective end when the full deduction
    applied. *)
Definition spec_ventana_comida : option (time * time) :=
  match ev_get eventos "Salida a comer" with
  | None => None
  | Some mo =>
      let actual := spec_minutos_entre mo spec_fin_comida in
      Some (mo, if actual <=? umbral_comida_media_hora_min cfg
                then spec_mas_minutos mo (spec_descuento_comida mo)
                else spec_fin_comida)
  end.

(** The recorded dinner window: from DinnerOut to DinnerIn, or to Exit. *)
Definition spec_ventana_cena : option (time * time) :=
  match ev_get eventos "Salida a cenar" with
  | None => None
  | Some dn => Some (dn, default sal (ev_get eventos "Regreso de cenar"))
  end.

Definition spec_ventanas_horas : list (time * time) :=
  option_list spec_ventana_comida ++ option_list spec_ventana_cena.
End spec_descuentos.

(** The recorded meal and dinner windows of an events map, on the timeline
    of its shift. *)
Definition spec_ventanas (eventos : gmap string pyval) (cfg : AppConfig)
    (ent sal : time) : list (Z * Z) :=
  spec_intervalo ent sal <$> spec_ventanas_horas eventos cfg sal.

(** ** The no-labor step on the literal timeline

    The four counters of the no-labor step (deduction, overlap with the meal
    and dinner windows, internal overlap, ignored outside the shift) computed
    as the specification words the step throughout: on the timeline where any
    time earlier than Entry is the following day, and deducting duration minus
    overlap for each merged interval. *)
Definition spec_literal (ent sal : time) (ventanas : list (time * time))
    (l : list no_laborado) : Z * Z * Z * Z :=
  let intervalo (x : time * time) :=
    let a0 := spec_linea_literal ent x.1 in
    let a1 := spec_linea_literal ent x.2 in
    (a0, if a1 <? a0 then a1 + 1440 else a1) in
  let jornada := intervalo (ent, sal) in
  let dentro (a : Z * Z) :=
    let i := (Z.max a.1 jornada.1, Z.min a.2 jornada.2) in
    if i.2 <=? i.1 then None else Some i in
  let efectivos := intervalo <$> spec_efectivos sal l in
  let ignorados :=
    sumZ ((fun a : Z * Z =>
             (a.2 - a.1) - from_option (fun i : Z * Z => i.2 - i.1) 0 (dentro a))
          <$> efectivos) in
  let ordenados :=
    sorted (fun x y : Z * Z => (x.1 - jornada.1) <=? (y.1 - jornada.1))
           (omap dentro efectivos) in
  let merged := spec_fusionados ordenados in
  let vs := intervalo <$> ventanas in
  (sumZ (spec_duracion_menos_solape vs <$> merged),
   sumZ (spec_solape_ventanas vs <$> merged),
   spec_solape_interno ordenados,
   ignorados).

(** Positions that lie in a window, as a non-empty interval. *)
Definition en_ventana (s : Z * Z) (i : Z * Z) : Prop :=
  s.1 <= i.1 /\ i.1 < i.2 /\ i.2 <= s.2.

(** The time-of-day pair the code stores for a pair of positions. *)
Definition horas (i : Z * Z) : time * time := (time_of_dt i.1, time_of_dt i.2).

Global Arguments spec_jornada : simpl never.
Global Arguments spec_intervalo : simpl never.
Global Arguments spec_solape : simpl never.
Global Arguments spec_dentro : simpl never.
Global Arguments spec_ignorado : simpl never.
Global Arguments horas : simpl never.

(** ** Intervals in a row *)

(** The intervals of [l] follow one another from [lo] on: each starts at or
    after the end of the one before. *)
Fixpoint cadena (lo : Z) (l : list (Z * Z)) : Prop :=
  match l with
  | [] => True
  | m :: l' => lo <= m.1 /\ m.1 <= m.2 /\ cadena m.2 l'
  end.

(** The minutes before position [x] that the windows [vs] cover. *)
Definition cubierto (vs : list (Z * Z)) (x : Z) : Z :=
  sumZ ((fun v : Z * Z => Z.max 0 (Z.min x v.2 - v.1)) <$> vs).

(** The events of a day are in chronological order when, measured from
    Entry, the meal starts no later than it ends, the dinner likewise, the
    dinner starts no earlier than the meal ends, and both end by Exit. A
    missing return counts as Exit, as in [calcular_trabajado]. *)
Definition cronologico (eventos : gmap string pyval) : Prop :=
  forall ent sal,
    ev_get eventos "Entrada" = Some ent ->
    ev_get eventos "Salida" = Some sal ->
    let off t := minutos_entre (Some ent) (Some t) in
    let reg_com := default sal (ev_get eventos "Regreso de comer") in
    let reg_cen := default sal (ev_get eventos "Regreso de cenar") in
    (forall sc, ev_get eventos "Salida a comer" = Some sc ->
                off sc <= off reg_com /\ off reg_com <= off sal) /\
    (forall sc, ev_get eventos "Salida a cenar" = Some sc ->
                off sc <= off reg_cen /\ off reg_cen <= off sal) /\
    (forall sc sn, ev_get eventos "Salida a comer" = Some sc ->
                   ev_get eventos "Salida a cenar" = Some sn ->
                   off reg_com <= off sn).

(** The adjusted minute of a punch:
    [m + (1440 if (wrap_likely and m < entry_min) else 0)]. *)
Definition adj_of (w : bool) (entry_min m : Z) : Z :=
  m + (if w && (m <? entry_min) then 1440 else 0).

(** The order of the sort key [(adj, idx)], as a relation. *)
Definition key_le (x y : Z * nat * time) : Prop :=
  x.1.1 < y.1.1 \/ (x.1.1 = y.1.1 /\ (x.1.2 <= y.1.2)%nat).

(** ** Concrete inputs *)

(** Scenario B of the specification. *)
Definition punches_B : list time := [Time 9 0; Time 12 0; Time 13 10; Time 17 0].

Definition eventos_B : gmap string pyval :=
  dict [("Entrada"%string, Time 9 0); ("Salida a comer"%string, Time 12 0);
        ("Regreso de comer"%string, Time 13 10); ("Salida"%string, Time 17 0)].

(** A shift of zero length. *)
Definition eventos_jornada_vacia : gmap string pyval :=
  dict [("Entrada"%string, Time 9 0); ("Salida"%string, Time 9 0)].

(** Overtime from the first minute, rounded up to the hour. *)
Definition cfg_redondeo_up : AppConfig := {|
  umbral_extra_min := 0;
  redondeo_extra_step_min := 60;
  redondeo_extra_modo := "up";
  tope_descuento_comida_min := 30;
  umbral_comida_media_hora_min := 60
|}.

Definition eventos_diez_minutos : gmap string pyval :=
  dict [("Entrada"%string, Time 9 0); ("Salida"%string, Time 9 10)].

(** A negative overtime threshold, without rounding. *)
Definition cfg_umbral_negativo : AppConfig := {|
  umbral_extra_min := -10;
  redondeo_extra_step_min := 1;
  redondeo_extra_modo := "none";
  tope_descuento_comida_min := 30;
  umbral_comida_media_hora_min := 60
|}.

(** Overtime above one hour, rounded up to the quarter of an hour. *)
Definition cfg_redondeo_cuartos : AppConfig := {|
  umbral_extra_min := 60;
  redondeo_extra_step_min := 15;
  redondeo_extra_modo := "up";
  tope_descuento_comida_min := 30;
  umbral_comida_media_hora_min := 60
|}.

(** A negative meal cap. *)
Definition cfg_tope_negativo : AppConfig := {|
  umbral_extra_min := 480;
  redondeo_extra_step_min := 1;
  redondeo_extra_modo := "none";
  tope_descuento_comida_min := -5;
  umbral_comida_media_hora_min := 60
|}.

Definition eventos_comida_corta : gmap string pyval :=
  dict [("Entrada"%string, Time 9 0); ("Salida a comer"%string, Time 12 0);
        ("Regreso de comer"%string, Time 12 30); ("Salida"%string, Time 17 0)].

(** A meal and a dinner recorded over the same two hours, and an exception
    that covers them and one hour more. *)
Definition eventos_ventanas_encimadas : gmap string pyval :=
  dict [("Entrada"%string, Time 9 0); ("Salida a comer"%string, Time 12 0);
        ("Regreso de comer"%string, Time 14 0); ("Salida a cenar"%string, Time 12 0);
        ("Regreso de cenar"%string, Time 14 0); ("Salida"%string, Time 17 0)].

Definition no_laborado_tres_horas : list no_laborado :=
  [(Some (Time 12 0), Some (Time 15 0), "cita"%string)].

(** An exception that starts an hour before Entry on a day shift. *)
Definition no_laborado_antes_de_entrada : list no_laborado :=
  [(Some (Time 8 0), Some (Time 9 30), "antes"%string)].

(** A meal and a dinner both recorded from 10:00 to 16:00. *)
Definition eventos_doble_descuento : gmap string pyval :=
  dict [("Entrada"%string, Time 9 0); ("Salida a comer"%string, Time 10 0);
        ("Regreso de comer"%string, Time 16 0); ("Salida a cenar"%string, Time 10 0);
        ("Regreso de cenar"%string, Time 16 0); ("Salida"%string, Time 17 0)].

(** A night shift captured out of order, with two exceptions. *)
Definition punches_nocturnos : list time :=
  [Time 22 0; Time 0 25; Time 23 45; Time 6 0].

Definition no_laborado_nocturno : list no_laborado :=
  [(Some (Time 23 50), Some (Time 0 10), "solapa comida"%string);
   (Some (Time 5 0), None, "salida"%string)].

(** ** Proof automation *)

(** Case analysis on every integer comparison of the goal. *)
Ltac case_ltb :=
  repeat match goal with
         | |- context [Z.ltb ?a ?b] => destruct (Z.ltb_spec a b)
         | |- context [Z.leb ?a ?b] => destruct (Z.leb_spec a b)
         | |- context [Z.eqb ?a ?b] => destruct (Z.eqb_spec a b)
         end.

(** ** Inputs of the repository's tests *)

Definition eventos_nocturnos : gmap string pyval :=
  dict [("Entrada"%string, Time 22 0); ("Salida"%string, Time 6 0)].

Definition eventos_nocturnos_comida : gmap string pyval :=
  dict [("Entrada"%string, Time 22 0); ("Salida"%string, Time 6 0);
        ("Salida a comer"%string, Time 23 45); ("Regreso de comer"%string, Time 0 25)].

Definition eventos_tope_comida : gmap string pyval :=
  dict [("Entrada"%string, Time 9 0); ("Salida a comer"%string, Time 12 0);
        ("Regreso de comer"%string, Time 13 0); ("Salida"%string, Time 18 0)].

Definition ocho_checadas : list time :=
  [Time 8 0; Time 9 0; Time 10 0; Time 11 0; Time 12 0; Time 13 0; Time 14 0; Time 17 0].


(** * Around the engine: validation, configuration bounds, the dinner guard *)

(** ** procesador/validaciones.py *)

(** [validate_non_negative_int] on an [int]: the value itself, or [None]
    for the [ValueError] it raises on a negative one. *)
Definition validate_non_negative_int (value : Z) : option Z :=
  if value <? 0 then None else Some value.

(** [validate_weekday]: the [ValueError] of a value outside [0, 6] is
    [None]. *)
Definition validate_weekday (value : Z) : option Z :=
  match validate_non_negative_int value with
  | None => None
  | Some _ => if 6 <? value then None else Some value
  end.

(** ** procesador/config.py: the bounds of the numeric rules *)

(** The fields of [AppConfig] that the bounds block of [cargar_config]
    reads and writes: those of the engine, [id_min_width] and
    [week_start_dow]. [cargar_config] fills each of them with [int(...)], so
    they are integers. *)
Record reglas : Type := Reglas {
  reglas_cfg : AppConfig;
  id_min_width : Z;
  week_start_dow : Z
}.

(** The [try] block (lines 170-176): the six validations in order, the first
    failure raising. *)
Definition reglas_validas (c : reglas) : option Z :=
  _ ← validate_non_negative_int (umbral_extra_min (reglas_cfg c));
  _ ← validate_non_negative_int (redondeo_extra_step_min (reglas_cfg c));
  _ ← validate_non_negative_int (tope_descuento_comida_min (reglas_cfg c));
  _ ← validate_non_negative_int (umbral_comida_media_hora_min (reglas_cfg c));
  _ ← validate_non_negative_int (id_min_width c);
  validate_weekday (week_start_dow c).

(** The whole block (lines 169-185): on an exception every numeric field is
    clamped, and a negative [week_start_dow] becomes the default, 2. *)
Definition cargar_config_limites (c : reglas) : reglas :=
  match reglas_validas c with
  | Some _ => c
  | None =>
      let cfg := reglas_cfg c in
      {| reglas_cfg := {|
           umbral_extra_min := Z.max 0 (umbral_extra_min cfg);
           redondeo_extra_step_min := Z.max 0 (redondeo_extra_step_min cfg);
           redondeo_extra_modo := redondeo_extra_modo cfg;
           tope_descuento_comida_min := Z.max 0 (tope_descuento_comida_min cfg);
           umbral_comida_media_hora_min := Z.max 0 (umbral_comida_media_hora_min cfg) |};
         id_min_width := Z.max 0 (id_min_width c);
         week_start_dow :=
           if 0 <=? week_start_dow c then week_start_dow c mod 7 else 2 |}
  end.

(** ** procesador/pipeline.py: the dinner guard *)

(** The sanity block of the day loop (lines 469-484): when Entry, Exit and
    the dinner start are present and the dinner starts, measured from Entry,
    before the meal ends, the dinner is dropped and the anomaly is flagged.
    [meal_end] is [Regreso de comer], or Exit when only [Salida a comer] is
    present. *)
Definition guardia_cena (eventos : gmap string pyval) : gmap string pyval :=
  match ev_get eventos "Entrada", ev_get eventos "Salida",
        ev_get eventos "Salida a cenar" with
  | Some ent_t, Some sal_t, Some sal_cen =>
      let meal_end :=
        match ev_get eventos "Regreso de comer" with
        | Some r => Some r
        | None => match ev_get eventos "Salida a comer" with
                  | Some _ => Some sal_t
                  | None => None
                  end
        end in
      match meal_end with
      | Some fin =>
          if minutos_entre (Some ent_t) (Some sal_cen)
             <? minutos_entre (Some ent_t) (Some fin)
          then <["Regreso de cenar"%string := PyNone]>
                 (<["Salida a cenar"%string := PyNone]>
                    (<["_cena_ignorada_anomalia"%string := PyInt 1]> eventos))
          else eventos
      | None => eventos
      end
  | _, _, _ => eventos
  end.

(** The corrections of events of the day loop (lines 451-456): each
    correction replaces the value of an event the dictionary already has;
    [None] deletes the punch. *)
Definition corregir_eventos (corr_evs : list (string * option time))
    (eventos : gmap string pyval) : gmap string pyval :=
  fold_left (fun ev (c : string * option time) =>
               if bool_decide (is_Some (ev !! c.1))
               then <[c.1 := match c.2 with Some t => PyTime t | None => PyNone end]> ev
               else ev)
            corr_evs eventos.

(** A configuration outside the bounds. *)
Definition reglas_fuera_de_rango : reglas :=
  {| reglas_cfg := cfg_tope_negativo; id_min_width := 3; week_start_dow := 9 |}.

(** A dinner that starts before the meal ends. *)
Definition eventos_cena_anomala : gmap string pyval :=
  dict [("Entrada"%string, Time 9 0); ("Salida a comer"%string, Time 12 0);
        ("Regreso de comer"%string, Time 13 0); ("Salida a cenar"%string, Time 12 30);
        ("Regreso de cenar"%string, Time 14 0); ("Salida"%string, Time 18 0)].

(** * Text: parsing punches and formatting minutes *)

(** A Python [str] is modelled as the list of its characters, for text whose
    code points are below 256 (ASCII and Latin-1). On that range [\d] is
    [0-9], [int()] reads those digits, and [str.strip()] removes the twelve
    characters of [is_space]. *)
Definition code (c : ascii) : Z := Z.of_N (N_of_ascii c).

Definition is_digit (c : ascii) : bool := (48 <=? code c) && (code c <=? 57).

Definition digit_value (c : ascii) : Z := code c - 48.

Definition digit_char (d : Z) : ascii := ascii_of_N (Z.to_N (48 + d)).

(** [str.isspace()] on one character. *)
Definition is_space (c : ascii) : bool :=
  ((9 <=? code c) && (code c <=? 13)) || ((28 <=? code c) && (code c <=? 32))
  || (code c =? 133) || (code c =? 160).

Fixpoint lstrip (s : list ascii) : list ascii :=
  match s with
  | c :: s' => if is_space c then lstrip s' else s
  | [] => []
  end.

(** [s.strip()]. *)
Definition strip (s : list ascii) : list ascii :=
  rev (lstrip (rev (lstrip s))).

(** [c.lower()] on one character. *)
Definition lower_char (c : ascii) : ascii :=
  if ((65 <=? code c) && (code c <=? 90))
     || ((192 <=? code c) && (code c <=? 222) && negb (code c =? 215))
  then ascii_of_N (Z.to_N (code c + 32)) else c.

(** [int(s)] on a string of digits. *)
Definition int_of_digits (s : list ascii) : Z :=
  fold_left (fun acc c => 10 * acc + digit_value c) s 0.

(** The decimal digits of a non-negative integer, most significant first. *)
Fixpoint decimal_aux (fuel : nat) (n : Z) (acc : list ascii) : list ascii :=
  match fuel with
  | O => acc
  | S fuel' =>
      let acc' := digit_char (n mod 10) :: acc in
      if n <? 10 then acc' else decimal_aux fuel' (n / 10) acc'
  end.

Definition decimal (n : Z) : list ascii :=
  decimal_aux (S (Z.to_nat (Z.log2 n))) n [].

(** The format [{n:02d}]: the decimal digits, after a minus sign for a
    negative number, padded with zeros to a width of 2. *)
Definition format_02d (n : Z) : list ascii :=
  if n <? 0 then "-"%char :: decimal (- n)
  else if n <? 10 then "0"%char :: decimal n else decimal n.

(** ** procesador/parsers.py *)

(** [\d{1,2}], greedy: the ways to match it at the start of [s], each with
    the text left, in the order the regex engine tries them. *)
Definition digits_1_2 (s : list ascii) : list (list ascii * list ascii) :=
  match s with
  | d1 :: d2 :: r =>
      if is_digit d1
      then (if is_digit d2 then [([d1; d2], r)] else []) ++ [([d1], d2 :: r)]
      else []
  | [d1] => if is_digit d1 then [([d1], [])] else []
  | [] => []
  end.

(** A literal [:]. *)
Definition colon (s : list ascii) : list (list ascii) :=
  match s with
  | c :: r => if Ascii.eqb c ":" then [r] else []
  | [] => []
  end.

(** A match of [_TIME_RE]: the groups [h], [m] and [s], and the number of
    characters matched. *)
Record time_match : Type := TimeMatch {
  group_h : list ascii;
  group_m : list ascii;
  group_s : option (list ascii);
  match_len : nat
}.

(** [_TIME_RE] matched at the start of [s]: the first success of the
    backtracking search through
    [(?P<h>\d{1,2}):(?P<m>\d{1,2})(?::(?P<s>\d{1,2}))?]. *)
Definition _TIME_RE_at (s : list ascii) : option time_match :=
  head ('(h, r1) ← digits_1_2 s;
        r2 ← colon r1;
        '(m, r3) ← digits_1_2 r2;
        '(sec, r4) ← (r5 ← colon r3; '(sd, r6) ← digits_1_2 r5; [(Some sd, r6)])
                      ++ [(None, r3)];
        [TimeMatch h m sec (length s - length r4)]).

(** [_TIME_RE.search(s)]: the leftmost match. *)
Fixpoint _TIME_RE_search (s : list ascii) : option time_match :=
  match _TIME_RE_at s with
  | Some m => Some m
  | None => match s with
            | _ :: s' => _TIME_RE_search s'
            | [] => None
            end
  end.

(** [_TIME_RE.finditer(s)] with the text [m.group(0)] of each match: the
    successive matches, the scan resuming where the last match ended. [skip]
    counts the characters of the last match still to pass. *)
Fixpoint _TIME_RE_finditer (skip : nat) (s : list ascii) : list (time_match * list ascii) :=
  match s with
  | [] => []
  | _ :: s' =>
      match skip with
      | S k => _TIME_RE_finditer k s'
      | O => match _TIME_RE_at s with
             | Some m => (m, take (match_len m) s) :: _TIME_RE_finditer (match_len m - 1) s'
             | None => _TIME_RE_finditer 0 s'
             end
      end
  end.

(** [parse_time] on [None] or a [str]. *)
Definition parse_time (value : option (list ascii)) : option time :=
  match value with
  | None => None
  | Some v =>
      let s := strip v in
      if bool_decide (s = []) then None
      else
        match _TIME_RE_search s with
        | None => None
        | Some m =>
            let h := int_of_digits (group_h m) in
            let mi := int_of_digits (group_m m) in
            if negb ((0 <=? h) && (h <=? 23) && (0 <=? mi) && (mi <=? 59)) then None
            else Some (Time h mi)
        end
  end.

(** The body of the loop of [parse_registro]: the state is [found] and
    [seen]. *)
Definition parse_registro_paso (st : list time * gset (Z * Z))
    (m : time_match * list ascii) : list time * gset (Z * Z) :=
  match parse_time (Some m.2) with
  | None => st
  | Some t =>
      let key := (hour t, minute t) in
      if bool_decide (key ∈ st.2) then st
      else (st.1 ++ [t], {[key]} ∪ st.2)
  end.

(** [parse_registro] on [None] or a [str]. *)
Definition parse_registro (registro_raw : option (list ascii)) : list time :=
  let s := match registro_raw with None => [] | Some v => v end in
  (fold_left parse_registro_paso (_TIME_RE_finditer 0 s) ([], ∅)).1.

(** ** procesador/utils.py and procesador/corrections.py: formatting *)

(** [fmt_hhmm] of utils.py: [strftime("%H:%M")] writes the hour and the
    minute of a time with two digits each. *)
Definition fmt_hhmm (t : option time) : list ascii :=
  match t with
  | None => []
  | Some t =>
      [digit_char (hour t / 10); digit_char (hour t mod 10); ":"%char;
       digit_char (minute t / 10); digit_char (minute t mod 10)]
  end.

(** [_fmt_hhmm] of corrections.py: [f"{t.hour:02d}:{t.minute:02d}"]. *)
Definition _fmt_hhmm (t : option time) : list ascii :=
  match t with
  | None => []
  | Some t => format_02d (hour t) ++ ":"%char :: format_02d (minute t)
  end.

(** [minutes_to_hhmm] of utils.py. *)
Definition minutes_to_hhmm (total_min : Z) : list ascii :=
  if total_min <=? 0 then String.list_ascii_of_string "00:00"
  else
    let h := total_min / 60 in
    let m := total_min mod 60 in
    format_02d h ++ ":"%char :: format_02d m.

(** [\d+], greedy: the longest run of digits first, then each shorter one
    down to a single digit. *)
Fixpoint digits_plus (s : list ascii) : list (list ascii * list ascii) :=
  match s with
  | d :: r =>
      if is_digit d
      then ((fun x : list ascii * list ascii => (d :: x.1, x.2)) <$> digits_plus r)
           ++ [([d], r)]
      else []
  | [] => []
  end.

(** [\d{2}]. *)
Definition digits_2 (s : list ascii) : list (list ascii * list ascii) :=
  match s with
  | d1 :: d2 :: r => if is_digit d1 && is_digit d2 then [([d1; d2], r)] else []
  | _ => []
  end.

(** [$]: the end of the string, or just before a newline that ends it. *)
Definition at_end (s : list ascii) : bool :=
  match s with
  | [] => true
  | [c] => code c =? 10
  | _ => false
  end.

(** [re.match(r"^(\d+):(\d{2})$", s)]: the two groups. *)
Definition hhmm_match (s : list ascii) : option (list ascii * list ascii) :=
  head ('(g1, r1) ← digits_plus s;
        r2 ← colon r1;
        '(g2, r3) ← digits_2 r2;
        if at_end r3 then [(g1, g2)] else []).

(** [hhmm_to_minutes] of utils.py, on [None] or a [str]. *)
Definition hhmm_to_minutes (s : option (list ascii)) : Z :=
  match s with
  | None => 0
  | Some v =>
      let s := strip v in
      if bool_decide (s = [])
         || bool_decide (lower_char <$> s = String.list_ascii_of_string "nan")
         || bool_decide (lower_char <$> s = String.list_ascii_of_string "none")
      then 0
      else
        match hhmm_match s with
        | None => 0
        | Some (g1, g2) => int_of_digits g1 * 60 + int_of_digits g2
        end
  end.

(** ** procesador/pipeline.py: a day without manual corrections *)

(** The day loop on one cell (lines 352, 386-389, 444, 472-486) when there is no
    bulk plan, no interactive edit and no correction of events: the punches
    are parsed, normalized (unless [modo_seguro]), mapped to events, passed
    through the dinner guard, and the result is computed. *)
Definition eventos_del_dia (modo_seguro : bool) (registro : option (list ascii))
  : gmap string pyval :=
  let times := parse_registro registro in
  let times_norm := if modo_seguro then times else (normalize_registro_times times).1 in
  guardia_cena (map_eventos times_norm).

Definition procesar_dia (modo_seguro : bool) (registro : option (list ascii))
    (cfg : AppConfig) (no_lab : list no_laborado) : resultado :=
  calcular_trabajado (eventos_del_dia modo_seguro registro) cfg (Some no_lab).

(** [sep.join(parts)]. *)
Fixpoint join_str (sep : list ascii) (parts : list (list ascii)) : list ascii :=
  match parts with
  | [] => []
  | [p] => p
  | p :: ps => p ++ sep ++ join_str sep ps
  end.

(** The column "Registros parseados" of the day loop (lines 512 and 532):
    [", ".join([fmt_hhmm(t) for t in times])]. *)
Definition registros_parseados (times : list time) : list ascii :=
  join_str (String.list_ascii_of_string ", ") ((fun t => fmt_hhmm (Some t)) <$> times).

(** * The repository's tests, on the embedding *)

(** tests/test_calc_stress_intervals.py, merge across midnight. *)
Example test_nolabor_merge_cross_midnight_is_correct :
  calcular_trabajado eventos_nocturnos AppConfig_default
    (Some [(Some (Time 23 30), Some (Time 0 30), "A"%string);
           (Some (Time 0 20), Some (Time 1 0), "B"%string)])
  = Resultado 390 0 0 0 90 0 10 0.
Proof. vm_compute. reflexivity. Qed.

(** tests/test_calc_stress_intervals.py, exception inside the meal window. *)
Example test_nolabor_overlap_with_comida_not_double_discounted :
  calcular_trabajado eventos_nocturnos_comida AppConfig_default
    (Some [(Some (Time 23 50), Some (Time 0 10), "solapa comida"%string)])
  = Resultado 450 0 30 0 0 20 0 0.
Proof. vm_compute. reflexivity. Qed.

(** tests/test_core_midnight.py. *)
Example test_midnight_keeps_order_when_already_chronological :
  normalize_registro_times [Time 20 48; Time 23 10; Time 3 5; Time 6 0]
  = ([Time 20 48; Time 23 10; Time 3 5; Time 6 0], false).
Proof. vm_compute. reflexivity. Qed.

Example test_midnight_reorders_when_out_of_order :
  normalize_registro_times [Time 22 0; Time 2 0; Time 23 0; Time 6 0]
  = ([Time 22 0; Time 23 0; Time 2 0; Time 6 0], true).
Proof. vm_compute. reflexivity. Qed.

Example test_calcular_trabajado_tope_comida :
  calcular_trabajado eventos_tope_comida AppConfig_default None
  = Resultado 510 30 30 0 0 0 0 0.
Proof. vm_compute. reflexivity. Qed.

(** tests/test_core_extra_cases.py. *)
Example test_map_eventos_8_checadas_extra_registros :
  let ev := map_eventos ocho_checadas in
  ev !! "_extra_registros"%string = Some (PyInt 2) /\
  ev_get ev "Entrada" = Some (Time 8 0) /\
  ev_get ev "Salida" = Some (Time 17 0) /\
  ev_get ev "Salida a comer" = Some (Time 9 0) /\
  ev_get ev "Regreso de comer" = Some (Time 10 0) /\
  ev_get ev "Salida a cenar" = Some (Time 11 0) /\
  ev_get ev "Regreso de cenar" = Some (Time 12 0).
Proof. vm_compute. repeat split. Qed.

Example test_map_eventos_single_checada :
  let ev := map_eventos [Time 8 0] in
  ev_get ev "Entrada" = Some (Time 8 0) /\ ev_get ev "Salida" = None /\
  ev !! "Salida"%string = Some PyNone /\
  ev !! "_extra_registros"%string = Some (PyInt 0).
Proof. vm_compute. repeat split. Qed.

(** tests/test_parsers.py and tests/test_war_parsers_dirty.py. *)
Example test_parse_time_hhmm :
  parse_time (Some (String.list_ascii_of_string "9:10")) = Some (Time 9 10).
Proof. vm_compute. reflexivity. Qed.

Example test_parse_time_hhmmss :
  parse_time (Some (String.list_ascii_of_string "09:10:59")) = Some (Time 9 10).
Proof. vm_compute. reflexivity. Qed.

Example test_parse_time_invalid :
  parse_time (Some (String.list_ascii_of_string "24:00")) = None /\
  parse_time (Some (String.list_ascii_of_string "aa:bb")) = None.
Proof. vm_compute. done. Qed.

Example test_parse_time_dirty :
  parse_time (Some (String.list_ascii_of_string "9:1")) = Some (Time 9 1) /\
  parse_time (Some (String.list_ascii_of_string "09:01:59")) = Some (Time 9 1) /\
  parse_time (Some (String.list_ascii_of_string "  7:05  ")) = Some (Time 7 5) /\
  parse_time (Some []) = None /\
  parse_time None = None /\
  parse_time (Some (String.list_ascii_of_string "24:10")) = None.
Proof. vm_compute. done. Qed.

Example test_parse_registro_dedup_and_order :
  parse_registro (Some (String.list_ascii_of_string "08:00; 08:00; 17:00; 09:00"))
  = [Time 8 0; Time 17 0; Time 9 0].
Proof. vm_compute. reflexivity. Qed.

(** tests/test_war_core_midnight_complex.py. *)
Example test_midnight_shift_simple_total :
  trabajado (procesar_dia false (Some (String.list_ascii_of_string "22:00 02:00"))
               AppConfig_default []) = 240.
Proof. vm_compute. reflexivity. Qed.

Example test_midnight_with_seconds_and_breaks :
  trabajado (procesar_dia false
               (Some (String.list_ascii_of_string "23:50:12 00:10 00:40:59 02:00"))
               AppConfig_default []) = 100.
Proof. vm_compute. reflexivity. Qed.

(** tests/test_calc_sanity_cena.py: a dinner start corrected to 10:38, before
    the meal ends, is dropped and flagged. *)
Example test_cena_ignored_if_before_end_of_comida_due_to_edit :
  let eventos :=
    guardia_cena
      (corregir_eventos [("Salida a cenar"%string, Some (Time 10 38))]
         (map_eventos
            (normalize_registro_times [Time 8 25; Time 13 11; Time 13 41; Time 15 47]).1)) in
  ev_get eventos "Salida a cenar" = None /\
  eventos !! "_cena_ignorada_anomalia"%string = Some (PyInt 1).
Proof. vm_compute. done. Qed.

(** tests/test_validaciones.py. *)
Example test_validate_non_negative_int :
  validate_non_negative_int 0 = Some 0 /\ validate_non_negative_int 100 = Some 100 /\
  validate_non_negative_int (-1) = None.
Proof. vm_compute. done. Qed.

Example test_validate_weekday :
  Forall (fun d => validate_weekday d = Some d) (seqZ 0 7) /\
  validate_weekday 7 = None /\ validate_weekday (-1) = None.
Proof. vm_compute. split; [repeat constructor|done]. Qed.
(** * Basic facts on times *)

Lemma wf_datetime_of t : wf_time t -> 0 <= datetime_of t < 1440.
Proof. unfold wf_time, datetime_of. lia. Qed.

Lemma time_ltb_lt a b :
  wf_time a -> wf_time b -> time_ltb a b = true <-> datetime_of a < datetime_of b.
Proof.
  unfold wf_time, time_ltb, datetime_of. intros Ha Hb.
  rewrite orb_true_iff, andb_true_iff, !Z.ltb_lt, Z.eqb_eq. lia.
Qed.

Lemma time_ltb_datetime a b :
  wf_time a -> wf_time b -> time_ltb a b = (datetime_of a <? datetime_of b).
Proof.
  intros Ha Hb. apply eq_true_iff_eq. rewrite Z.ltb_lt. by apply time_ltb_lt.
Qed.

Lemma datetime_of_inj a b :
  wf_time a -> wf_time b -> datetime_of a = datetime_of b -> a = b.
Proof.
  destruct a as [ha ma], b as [hb mb]. unfold wf_time, datetime_of. simpl.
  intros Ha Hb Heq. f_equal; lia.
Qed.

Lemma wf_time_of_dt dt : wf_time (time_of_dt dt).
Proof.
  unfold wf_time, time_of_dt, dt_hour, dt_minute. simpl.
  split; apply Z.mod_pos_bound; lia.
Qed.

Lemma datetime_of_time_of_dt dt : datetime_of (time_of_dt dt) = dt mod 1440.
Proof.
  unfold datetime_of, time_of_dt, dt_hour, dt_minute. simpl.
  pose proof (Z.div_mod dt 60 ltac:(lia)) as H1.
  pose proof (Z.div_mod (dt / 60) 24 ltac:(lia)) as H2.
  pose proof (Z.mod_pos_bound dt 60 ltac:(lia)).
  pose proof (Z.mod_pos_bound (dt / 60) 24 ltac:(lia)).
  apply (Z.mod_unique_pos dt 1440 (dt / 60 / 24)); lia.
Qed.

Lemma minutos_entre_bounds a b :
  wf_time a -> wf_time b -> 0 <= minutos_entre (Some a) (Some b) < 1440.
Proof.
  intros Ha%wf_datetime_of Hb%wf_datetime_of. unfold minutos_entre.
  destruct (Z.ltb_spec (datetime_of b) (datetime_of a)); lia.
Qed.

Lemma minutos_entre_nonneg a b :
  from_option wf_time True a -> from_option wf_time True b -> 0 <= minutos_entre a b.
Proof.
  destruct a as [a|], b as [b|]; simpl; try (unfold minutos_entre; lia).
  intros Ha Hb. apply minutos_entre_bounds; done.
Qed.

Lemma minutos_entre_pos a b :
  wf_time a -> wf_time b -> a <> b -> 0 < minutos_entre (Some a) (Some b).
Proof.
  intros Ha Hb Hne.
  assert (datetime_of a <> datetime_of b) by (intros ?; by apply Hne, datetime_of_inj).
  apply wf_datetime_of in Ha, Hb. unfold minutos_entre.
  destruct (Z.ltb_spec (datetime_of b) (datetime_of a)); lia.
Qed.

Lemma wf_eventos_get eventos k t :
  wf_eventos eventos -> ev_get eventos k = Some t -> wf_time t.
Proof.
  unfold ev_get. intros Hwf Hget.
  destruct (eventos !! k) as [[| t' |]|] eqn:E; try done.
  injection Hget as ->. eauto.
Qed.

(** * The result of [calcular_trabajado], unfolded *)

Lemma no_laborado_bloque_Some ent sal ventanas l :
  no_laborado_bloque ent sal ventanas (Some l) =
  (let '(intervals, ignored) := fold_left (recortar ent sal) l ([], 0) in
   let intervals := sorted (inicio_leb ent) intervals in
   let '(merged, solape) := fold_left (fusionar ent sal) intervals ([], 0) in
   let '(overlap_cd, ded) := fold_left (descontar ent sal ventanas) merged (0, 0) in
   (ded, overlap_cd, solape, ignored)).
Proof. destruct l; reflexivity. Qed.

Lemma calcular_trabajado_fields eventos cfg nl ent sal :
  ev_get eventos "Entrada" = Some ent ->
  ev_get eventos "Salida" = Some sal ->
  let sal_com := ev_get eventos "Salida a comer" in
  let reg_com := ev_get eventos "Regreso de comer" in
  let sal_cen := ev_get eventos "Salida a cenar" in
  let reg_cen := ev_get eventos "Regreso de cenar" in
  let cm := comida sal_com reg_com sal cfg in
  let b := no_laborado_bloque ent sal
             (ventanas_descuento sal_com cm.2 sal_cen reg_cen sal) nl in
  let r := calcular_trabajado eventos cfg nl in
  comida_ded r = cm.1 /\
  cena_ded r = cena sal_cen reg_cen sal /\
  extra_ded r = b.1.1.1 /\
  nolab_overlap_cd r = b.1.1.2 /\
  nolab_solape_interno r = b.1.2 /\
  ignored_outside_shift r = b.2 /\
  trabajado r =
    Z.max 0 (minutos_entre (Some ent) (Some sal) - comida_ded r - cena_ded r - extra_ded r) /\
  (extra r = Z.max 0 (trabajado r - umbral_extra_min cfg) \/
   1 < redondeo_extra_step_min cfg /\ redondeo_extra_modo cfg <> "none"%string /\
   extra r = round_minutes (Z.max 0 (trabajado r - umbral_extra_min cfg))
               (redondeo_extra_step_min cfg) (redondeo_extra_modo cfg)).
Proof.
  intros Hent Hsal. cbv zeta. unfold calcular_trabajado. rewrite Hent, Hsal.
  destruct (comida _ _ _ _) as [cd fv]. simpl.
  destruct (no_laborado_bloque _ _ _ _) as [[[ed ov] so] ig]. simpl.
  repeat split.
  destruct (negb (redondeo_extra_step_min cfg =? 0)) eqn:E0; simpl; [|by left].
  destruct (Z.ltb_spec 1 (redondeo_extra_step_min cfg)); simpl; [|by left].
  destruct (String.eqb_spec (redondeo_extra_modo cfg) "none"); simpl; [by left|].
  right. done.
Qed.

Lemma calcular_trabajado_cero eventos cfg nl :
  ev_get eventos "Entrada" = None \/ ev_get eventos "Salida" = None ->
  calcular_trabajado eventos cfg nl = resultado_cero.
Proof.
  unfold calcular_trabajado. intros [-> | ->]; [done|].
  by destruct (ev_get eventos "Entrada").
Qed.

(** Two exception lists that yield the same block yield the same result. *)
Lemma calcular_trabajado_bloque eventos cfg nl1 nl2 :
  (forall ent sal ventanas,
     ev_get eventos "Salida" = Some sal ->
     no_laborado_bloque ent sal ventanas nl1 = no_laborado_bloque ent sal ventanas nl2) ->
  calcular_trabajado eventos cfg nl1 = calcular_trabajado eventos cfg nl2.
Proof.
  intros H. unfold calcular_trabajado.
  destruct (ev_get eventos "Entrada") as [ent|]; [|done].
  destruct (ev_get eventos "Salida") as [sal|] eqn:Hsal; [|done].
  destruct (comida _ _ _ _) as [cd fv]. by rewrite H.
Qed.

Lemma bloque_skip_absent_start ent sal ventanas l1 fin nota l2 :
  no_laborado_bloque ent sal ventanas (Some (l1 ++ (None, fin, nota) :: l2)) =
  no_laborado_bloque ent sal ventanas (Some (l1 ++ l2)).
Proof. rewrite !no_laborado_bloque_Some, !fold_left_app. reflexivity. Qed.

Lemma bloque_absent_end ent sal ventanas l1 ini nota l2 :
  no_laborado_bloque ent sal ventanas (Some (l1 ++ (Some ini, None, nota) :: l2)) =
  no_laborado_bloque ent sal ventanas (Some (l1 ++ (Some ini, Some sal, nota) :: l2)).
Proof. rewrite !no_laborado_bloque_Some, !fold_left_app. reflexivity. Qed.

(** * Scenario B *)

(** C7, as stated: the claim gives 470 worked minutes for the punches
    09:00, 12:00, 13:10, 17:00; the code does not return that. *)
Lemma scenario_B_not_470 :
  trabajado (calcular_trabajado (map_eventos punches_B) AppConfig_default None) <> 470.
Proof. vm_compute. discriminate. Qed.

(** C7, amended: for the punches 09:00, 12:00, 13:10, 17:00 under the default
    configuration, [map_eventos] followed by [calcular_trabajado] finds a meal
    of 70 minutes, above the ceiling of 60, deducts the full 70 from the span
    of 480 minutes, and returns worked = 410 and overtime = 0. *)
Theorem scenario_B :
  let ev := map_eventos punches_B in
  let r := calcular_trabajado ev AppConfig_default None in
  ev_get ev "Entrada" = Some (Time 9 0) /\
  ev_get ev "Salida" = Some (Time 17 0) /\
  minutos_entre (ev_get ev "Entrada") (ev_get ev "Salida") = 480 /\
  minutos_entre (ev_get ev "Salida a comer") (ev_get ev "Regreso de comer") = 70 /\
  umbral_comida_media_hora_min AppConfig_default < 70 /\
  comida_ded r = 70 /\
  trabajado r = 410 /\
  extra r = 0.
Proof. vm_compute. repeat split; discriminate. Qed.

(** * Loop invariants *)

Lemma fold_left_invariant {A B} (P : A -> Prop) (Q : B -> Prop) (f : A -> B -> A) l a :
  P a -> Forall Q l -> (forall a b, P a -> Q b -> P (f a b)) -> P (fold_left f l a).
Proof.
  intros Ha Hl Hf. revert a Ha.
  induction Hl as [|b l Hb _ IH]; intros a Ha; simpl; [done|]. apply IH, Hf; done.
Qed.

Lemma Forall_True {A} (l : list A) : Forall (fun _ => True) l.
Proof. by apply Forall_forall. Qed.

Lemma overlap_min_nonneg ent sal a1 a2 b1 b2 : 0 <= _overlap_min ent sal a1 a2 b1 b2.
Proof.
  unfold _overlap_min. cbv zeta.
  match goal with |- context [Z.leb ?a ?b] => destruct (Z.leb_spec a b) end; lia.
Qed.

Lemma round_minutes_nonneg v step mode : 0 <= round_minutes v step mode.
Proof.
  unfold round_minutes. destruct (Z.leb_spec step 1); [lia|].
  assert (0 <= Z.max 0 v / step) by (apply Z.div_pos; lia).
  assert (0 <= (Z.max 0 v + step - 1) / step) by (apply Z.div_pos; lia).
  set (q := Z.max 0 v / step) in *. set (q' := (Z.max 0 v + step - 1) / step) in *.
  assert (0 <= q * step) by (apply Z.mul_nonneg_nonneg; lia).
  assert (0 <= q' * step) by (apply Z.mul_nonneg_nonneg; lia).
  repeat case_match; lia.
Qed.

Lemma round_minutes_down v step : 0 <= v -> round_minutes v step "down" <= v.
Proof.
  intros Hv. unfold round_minutes. destruct (Z.leb_spec step 1); [lia|]. simpl.
  rewrite Z.max_r by done. rewrite Z.mul_comm. apply Z.mul_div_le. lia.
Qed.

Lemma recortar_ignored_nonneg ent sal l :
  wf_time sal -> Forall wf_no_laborado l ->
  0 <= (fold_left (recortar ent sal) l ([], 0)).2.
Proof.
  intros Hsal Hl.
  apply (fold_left_invariant (fun st => 0 <= st.2) wf_no_laborado); [done..|].
  intros [iv ig] [[[ini|] fin] nota] Hig [Hi Hf]; simpl in *; [|done].
  unfold recortar.
  assert (wf_time (match fin with Some f => f | None => sal end)) by by destruct fin.
  destruct (_clip_to_shift _ _ _ _ _ _) as [[[ic fc] ign]|] eqn:E; simpl.
  - unfold _clip_to_shift in E. destruct (_window _ _ _ _). cbv zeta in E.
    case_match; [done|]. injection E as <- <- <-.
    apply Z.add_nonneg_nonneg; [done|apply Z.le_max_l].
  - pose proof (minutos_entre_bounds ini _ Hi H). lia.
Qed.

Lemma fusionar_solape_nonneg ent sal l :
  0 <= (fold_left (fusionar ent sal) l ([], 0)).2.
Proof.
  apply (fold_left_invariant (fun st => 0 <= st.2) (fun _ => True));
    [done|apply Forall_True|].
  intros [mg so] [ini fin] Hso _; simpl in *. unfold fusionar. simpl.
  destruct (last mg) as [[li lf]|]; [|done].
  pose proof (overlap_min_nonneg ent sal li lf ini fin).
  repeat case_match; simpl; lia.
Qed.

Lemma descontar_ov_nonneg ent sal ventanas ini fin :
  0 <= fold_left (fun ov v => ov + _overlap_min ent sal ini fin v.1 v.2) ventanas 0.
Proof.
  apply (fold_left_invariant (fun ov => 0 <= ov) (fun _ => True));
    [done|apply Forall_True|].
  intros ov v Hov _. pose proof (overlap_min_nonneg ent sal ini fin v.1 v.2). lia.
Qed.

Lemma descontar_nonneg ent sal ventanas l :
  let st := fold_left (descontar ent sal ventanas) l (0, 0) in 0 <= st.1 /\ 0 <= st.2.
Proof.
  apply (fold_left_invariant (fun st => 0 <= st.1 /\ 0 <= st.2) (fun _ => True));
    [done|apply Forall_True|].
  intros [ov ded] [ini fin] [Hov Hded] _; simpl in *.
  pose proof (descontar_ov_nonneg ent sal ventanas ini fin). lia.
Qed.

Lemma bloque_nonneg ent sal ventanas nl :
  wf_time sal -> from_option (Forall wf_no_laborado) True nl ->
  let b := no_laborado_bloque ent sal ventanas nl in
  0 <= b.1.1.1 /\ 0 <= b.1.1.2 /\ 0 <= b.1.2 /\ 0 <= b.2.
Proof.
  intros Hsal Hnl. destruct nl as [l|]; [|simpl; lia].
  cbv zeta. rewrite no_laborado_bloque_Some.
  pose proof (recortar_ignored_nonneg ent sal l Hsal Hnl) as Hig.
  destruct (fold_left (recortar ent sal) l _) as [iv ig].
  pose proof (fusionar_solape_nonneg ent sal (sorted (inicio_leb ent) iv)) as Hso.
  destruct (fold_left (fusionar ent sal) _ _) as [mg so] eqn:Emg.
  pose proof (descontar_nonneg ent sal ventanas mg) as Hd.
  destruct (fold_left (descontar ent sal ventanas) _ _) as [ov ded] eqn:Eov.
  cbn [fst snd] in *. rewrite ?Emg, ?Eov. cbn [fst snd]. lia.
Qed.

Lemma cena_nonneg sal_cen reg_cen sal :
  from_option wf_time True sal_cen -> from_option wf_time True reg_cen -> wf_time sal ->
  0 <= cena sal_cen reg_cen sal.
Proof.
  intros H1 H2 H3. unfold cena.
  destruct sal_cen, reg_cen; try lia; apply minutos_entre_nonneg; done.
Qed.

Lemma comida_Some mo reg_com sal cfg :
  comida (Some mo) reg_com sal cfg =
  let fin := default sal reg_com in
  let dur := minutos_entre (Some mo) (Some fin) in
  if dur <=? umbral_comida_media_hora_min cfg
  then (Z.min dur (tope_descuento_comida_min cfg),
        Some (time_of_dt (datetime_of mo + Z.min dur (tope_descuento_comida_min cfg))))
  else (dur, Some fin).
Proof. unfold comida. by destruct reg_com. Qed.

Lemma comida_None reg_com sal cfg : comida None reg_com sal cfg = (0, None).
Proof. reflexivity. Qed.

Lemma comida_nonneg sal_com reg_com sal cfg :
  from_option wf_time True sal_com -> from_option wf_time True reg_com -> wf_time sal ->
  0 <= tope_descuento_comida_min cfg ->
  0 <= (comida sal_com reg_com sal cfg).1.
Proof.
  intros H1 H2 H3 Htope. destruct sal_com as [mo|]; [|done].
  rewrite comida_Some. cbv zeta.
  assert (wf_time (default sal reg_com)) as Hfin by by destruct reg_com.
  pose proof (minutos_entre_bounds mo _ H1 Hfin).
  case_match; simpl; lia.
Qed.

Lemma wf_eventos_slot eventos k :
  wf_eventos eventos -> from_option wf_time True (ev_get eventos k).
Proof.
  intros Hwf. destruct (ev_get eventos k) eqn:E; simpl; [|done].
  by eapply wf_eventos_get.
Qed.

(** * The all-zero result and malformed exceptions *)

(** C3, as stated: the all-zero result would occur only when Entry or Exit is
    missing; a shift whose Entry and Exit are the same time has both and is
    all-zero as well. *)
Lemma all_zero_with_entry_and_exit :
  ev_get eventos_jornada_vacia "Entrada" = Some (Time 9 0) /\
  ev_get eventos_jornada_vacia "Salida" = Some (Time 9 0) /\
  calcular_trabajado eventos_jornada_vacia AppConfig_default None = resultado_cero.
Proof. vm_compute. done. Qed.

(** C3, amended: [calcular_trabajado] returns the all-zero result whenever
    Entry or Exit is absent; it is defined on every exception list, an
    interval with an absent start being skipped and an absent end being
    replaced by Exit; and the all-zero result occurs only when Entry or Exit
    is missing or Entry and Exit are the same time. *)
Theorem all_zero_result eventos cfg :
  (forall nl,
     ev_get eventos "Entrada" = None \/ ev_get eventos "Salida" = None ->
     calcular_trabajado eventos cfg nl = resultado_cero) /\
  (forall l1 fin nota l2,
     calcular_trabajado eventos cfg (Some (l1 ++ (None, fin, nota) :: l2)) =
     calcular_trabajado eventos cfg (Some (l1 ++ l2))) /\
  (forall sal l1 ini nota l2,
     ev_get eventos "Salida" = Some sal ->
     calcular_trabajado eventos cfg (Some (l1 ++ (Some ini, None, nota) :: l2)) =
     calcular_trabajado eventos cfg (Some (l1 ++ (Some ini, Some sal, nota) :: l2))) /\
  (forall nl,
     wf_eventos eventos ->
     calcular_trabajado eventos cfg nl = resultado_cero ->
     ev_get eventos "Entrada" = None \/ ev_get eventos "Salida" = None \/
     ev_get eventos "Entrada" = ev_get eventos "Salida").
Proof.
  repeat split.
  - intros nl. apply calcular_trabajado_cero.
  - intros l1 fin nota l2. apply calcular_trabajado_bloque.
    intros ent sal ventanas _. apply bloque_skip_absent_start.
  - intros sal l1 ini nota l2 Hsal. apply calcular_trabajado_bloque.
    intros ent sal' ventanas Hsal'. assert (sal' = sal) as -> by congruence.
    apply bloque_absent_end.
  - intros nl Hwf Hcero.
    destruct (ev_get eventos "Entrada") as [ent|] eqn:Hent; [|by left].
    destruct (ev_get eventos "Salida") as [sal|] eqn:Hsal; [|by right; left].
    right; right. destruct (decide (ent = sal)) as [->|Hne]; [done|]. exfalso.
    destruct (calcular_trabajado_fields eventos cfg nl ent sal Hent Hsal)
      as (_ & _ & _ & _ & _ & _ & Htr & _).
    rewrite Hcero in Htr. simpl in Htr.
    pose proof (minutos_entre_pos ent sal (wf_eventos_get _ _ _ Hwf Hent)
                  (wf_eventos_get _ _ _ Hwf Hsal) Hne).
    lia.
Qed.

Lemma wf_eventos_dict l : Forall (fun kv => wf_time kv.2) l -> wf_eventos (dict l).
Proof.
  intros Hl k t Hk. unfold dict in Hk.
  apply elem_of_list_to_map_2 in Hk.
  apply list_elem_of_fmap in Hk as ([k' t'] & Heq & Hin). simpl in Heq.
  injection Heq as -> ->.
  rewrite Forall_forall in Hl. apply (Hl _ Hin).
Qed.

Lemma all_zero_result_witness :
  calcular_trabajado eventos_B AppConfig_default None <> resultado_cero.
Proof.
  intros Hcero.
  destruct (all_zero_result eventos_B AppConfig_default) as (_ & _ & _ & H).
  assert (wf_eventos eventos_B) as Hwf.
  { apply wf_eventos_dict. repeat constructor; simpl; lia. }
  destruct (H None Hwf Hcero) as [H1 | [H1 | H1]]; vm_compute in H1; discriminate.
Defined.

(** * Non-negativity *)

(** C8, as stated: every component would be non-negative under every
    configuration; with a meal cap of -5 the meal deduction of a 30-minute
    meal is [min 30 (-5)], a negative number. *)
Lemma negative_meal_deduction :
  comida_ded (calcular_trabajado eventos_comida_corta cfg_tope_negativo None) = -5 /\
  ~ (0 <= comida_ded (calcular_trabajado eventos_comida_corta cfg_tope_negativo None)).
Proof. vm_compute. split; [done|]. intros H. by apply H. Qed.

(** C8, amended: for every events map, every exception list, and every
    configuration whose meal cap is non-negative, every component of the
    result is non-negative: worked, overtime, the meal, dinner and no-labor
    deductions, and the three diagnostic counters. *)
Theorem result_nonneg eventos cfg nl :
  wf_eventos eventos ->
  from_option (Forall wf_no_laborado) True nl ->
  0 <= tope_descuento_comida_min cfg ->
  let r := calcular_trabajado eventos cfg nl in
  0 <= trabajado r /\ 0 <= extra r /\ 0 <= comida_ded r /\ 0 <= cena_ded r /\
  0 <= extra_ded r /\ 0 <= nolab_overlap_cd r /\ 0 <= nolab_solape_interno r /\
  0 <= ignored_outside_shift r.
Proof.
  intros Hwf Hnl Htope. cbv zeta.
  destruct (ev_get eventos "Entrada") as [ent|] eqn:Hent;
    [|rewrite calcular_trabajado_cero by (by left); simpl; lia].
  destruct (ev_get eventos "Salida") as [sal|] eqn:Hsal;
    [|rewrite calcular_trabajado_cero by (by right); simpl; lia].
  destruct (calcular_trabajado_fields eventos cfg nl ent sal Hent Hsal)
    as (Hc & Hd & He & Ho & Hs & Hi & Htr & Hex).
  assert (wf_time sal) as Hwsal by by eapply wf_eventos_get.
  pose proof (bloque_nonneg ent sal
    (ventanas_descuento (ev_get eventos "Salida a comer")
       (comida (ev_get eventos "Salida a comer") (ev_get eventos "Regreso de comer") sal cfg).2
       (ev_get eventos "Salida a cenar") (ev_get eventos "Regreso de cenar") sal)
    nl Hwsal Hnl) as Hb.
  cbv zeta in Hb. rewrite <- He, <- Ho, <- Hs, <- Hi in Hb.
  pose proof (comida_nonneg (ev_get eventos "Salida a comer")
                (ev_get eventos "Regreso de comer") sal cfg
                (wf_eventos_slot _ _ Hwf) (wf_eventos_slot _ _ Hwf) Hwsal Htope) as Hcn.
  rewrite <- Hc in Hcn.
  pose proof (cena_nonneg (ev_get eventos "Salida a cenar")
                (ev_get eventos "Regreso de cenar") sal
                (wf_eventos_slot _ _ Hwf) (wf_eventos_slot _ _ Hwf) Hwsal) as Hcen.
  rewrite <- Hd in Hcen.
  set (r := calcular_trabajado eventos cfg nl) in *.
  assert (0 <= extra r).
  { destruct Hex as [-> | (_ & _ & ->)]; [lia|apply round_minutes_nonneg]. }
  lia.
Qed.

Lemma result_nonneg_witness :
  0 <= trabajado (calcular_trabajado eventos_B AppConfig_default
                    (Some [(Some (Time 10 0), None, "visita"%string)])).
Proof.
  apply (result_nonneg eventos_B AppConfig_default
           (Some [(Some (Time 10 0), None, "visita"%string)])).
  - apply wf_eventos_dict. repeat constructor; simpl; lia.
  - repeat constructor; simpl; lia.
  - simpl. lia.
Defined.

(** * The stable sort *)

Section sorted_facts.
Context {A : Type} (leb : A -> A -> bool).

Lemma insert_sorted_perm x l : insert_sorted leb x l ≡ₚ x :: l.
Proof.
  induction l as [|y l IH]; simpl; [done|].
  destruct (leb x y); [done|]. rewrite IH. apply Permutation_swap.
Qed.

Lemma sorted_perm l : sorted leb l ≡ₚ l.
Proof.
  induction l as [|x l IH]; simpl; [done|].
  by rewrite insert_sorted_perm, IH.
Qed.

Lemma insert_sorted_HdRel a x l :
  le_of leb a x -> HdRel (le_of leb) a l -> HdRel (le_of leb) a (insert_sorted leb x l).
Proof.
  intros Hax Hal. destruct l as [|y l]; simpl; [by constructor|].
  destruct (leb x y); constructor; [done|]. by inversion Hal.
Qed.

Lemma sorted_id l : Sorted (le_of leb) l -> sorted leb l = l.
Proof.
  induction 1 as [|x l Hl IH Hhd]; simpl; [done|].
  rewrite IH. destruct Hhd as [|y l Hxy]; simpl; [done|].
  unfold le_of in Hxy. by rewrite Hxy.
Qed.

Lemma sorted_cons_min x l :
  (forall y, y ∈ l -> le_of leb x y) -> sorted leb (x :: l) = x :: sorted leb l.
Proof.
  intros Hmin. simpl.
  destruct (sorted leb l) as [|y l'] eqn:E; simpl; [done|].
  assert (y ∈ l) as Hy.
  { rewrite <- (sorted_perm l), E. by left. }
  apply Hmin in Hy. unfold le_of in Hy. by rewrite Hy.
Qed.

Hypothesis leb_total : forall x y, leb x y = true \/ leb y x = true.

Lemma insert_sorted_Sorted x l :
  Sorted (le_of leb) l -> Sorted (le_of leb) (insert_sorted leb x l).
Proof.
  induction 1 as [|y l Hl IH Hhd]; simpl; [by repeat constructor|].
  destruct (leb x y) eqn:Hxy.
  - constructor; [by constructor|by constructor].
  - constructor; [done|]. apply insert_sorted_HdRel; [|done].
    destruct (leb_total x y) as [H|H]; [congruence|done].
Qed.

Lemma sorted_Sorted l : Sorted (le_of leb) (sorted leb l).
Proof.
  induction l as [|x l IH]; simpl; [constructor|]. by apply insert_sorted_Sorted.
Qed.
End sorted_facts.

(** * normalize_registro_times *)

Lemma key_leb_le x y : key_leb x y = true <-> key_le x y.
Proof.
  unfold key_leb, key_le.
  rewrite orb_true_iff, andb_true_iff, Z.ltb_lt, Z.eqb_eq, Nat.leb_le. done.
Qed.

Lemma key_leb_total x y : key_leb x y = true \/ key_leb y x = true.
Proof. rewrite !key_leb_le. unfold key_le. lia. Qed.

Global Instance key_le_trans : Transitive key_le.
Proof. intros x y z. unfold key_le. lia. Qed.

Lemma Sorted_key_leb_le l : Sorted (le_of key_leb) l <-> Sorted key_le l.
Proof.
  split; induction 1 as [|x l Hl IH Hhd]; constructor; try done.
  all: destruct Hhd; constructor; by apply key_leb_le.
Qed.

Lemma py_max_spec x l : py_max (x :: l) ∈ x :: l /\ forall m, m ∈ x :: l -> m <= py_max (x :: l).
Proof.
  unfold py_max. revert x. induction l as [|y l IH]; intros x; simpl.
  - split; [by left|]. intros m ->%list_elem_of_singleton. lia.
  - destruct (IH (Z.max x y)) as [Hin Hle]. split.
    + apply elem_of_cons in Hin as [Heq | Hin]; [|by do 2 right].
      rewrite Heq. destruct (Z.max_spec x y) as [[_ ->] | [_ ->]]; [right|]; by left.
    + intros m Hm.
      assert (m <= Z.max x y \/ m ∈ l) as [H | H].
      { apply elem_of_cons in Hm as [-> | Hm]; [left; lia|].
        apply elem_of_cons in Hm as [-> | Hm]; [left; lia|by right]. }
      * etrans; [done|]. apply Hle. by left.
      * apply Hle. by right.
Qed.

Lemma py_min_spec x l : py_min (x :: l) ∈ x :: l /\ forall m, m ∈ x :: l -> py_min (x :: l) <= m.
Proof.
  unfold py_min. revert x. induction l as [|y l IH]; intros x; simpl.
  - split; [by left|]. intros m ->%list_elem_of_singleton. lia.
  - destruct (IH (Z.min x y)) as [Hin Hle]. split.
    + apply elem_of_cons in Hin as [Heq | Hin]; [|by do 2 right].
      rewrite Heq. destruct (Z.min_spec x y) as [[_ ->] | [_ ->]]; [|right]; by left.
    + intros m Hm.
      assert (Z.min x y <= m \/ m ∈ l) as [H | H].
      { apply elem_of_cons in Hm as [-> | Hm]; [left; lia|].
        apply elem_of_cons in Hm as [-> | Hm]; [left; lia|by right]. }
      * etrans; [|done]. apply Hle. by left.
      * apply Hle. by right.
Qed.

Lemma py_max_perm l1 l2 : l1 ≡ₚ l2 -> py_max l1 = py_max l2.
Proof.
  intros Hp. destruct l1 as [|x1 l1], l2 as [|x2 l2]; [done| | |].
  - by apply Permutation_nil_l in Hp.
  - by apply Permutation_nil_r in Hp.
  - destruct (py_max_spec x1 l1) as [Hi1 Hl1], (py_max_spec x2 l2) as [Hi2 Hl2].
    apply (elem_of_Permutation_proper _ _ _ Hp) in Hi1.
    apply (elem_of_Permutation_proper _ _ _ Hp) in Hi2.
    apply Hl1 in Hi2. apply Hl2 in Hi1. lia.
Qed.

Lemma py_min_perm l1 l2 : l1 ≡ₚ l2 -> py_min l1 = py_min l2.
Proof.
  intros Hp. destruct l1 as [|x1 l1], l2 as [|x2 l2]; [done| | |].
  - by apply Permutation_nil_l in Hp.
  - by apply Permutation_nil_r in Hp.
  - destruct (py_min_spec x1 l1) as [Hi1 Hl1], (py_min_spec x2 l2) as [Hi2 Hl2].
    apply (elem_of_Permutation_proper _ _ _ Hp) in Hi1.
    apply (elem_of_Permutation_proper _ _ _ Hp) in Hi2.
    apply Hl1 in Hi2. apply Hl2 in Hi1. lia.
Qed.

Lemma has_smaller_spec x l :
  has_smaller (x :: l) = true <-> exists m, m ∈ l /\ m < x.
Proof.
  unfold has_smaller. simpl. rewrite existsb_exists. split.
  - intros (m & Hin & Hlt). exists m. rewrite list_elem_of_In, <- Z.ltb_lt. done.
  - intros (m & Hin & Hlt). exists m. rewrite <- list_elem_of_In, Z.ltb_lt. done.
Qed.

Lemma wrap_likely_spec mins :
  wrap_likely mins = true <->
  (1080 <= hd 0 mins /\ has_smaller mins = true) \/
  (has_smaller mins = true /\ 720 < py_max mins - py_min mins).
Proof.
  unfold wrap_likely.
  rewrite orb_true_iff, !andb_true_iff, Z.leb_le, Z.ltb_lt. done.
Qed.

Lemma adjusted_eq times :
  adjusted times =
  imap (fun idx t =>
          (adj_of (wrap_likely (min_of_day <$> times)) (hd 0 (min_of_day <$> times))
                  (min_of_day t), idx, t)) times.
Proof. reflexivity. Qed.

Lemma imap_snd {A B} (f : nat -> A -> B) (l : list A) :
  (imap (fun i x => (f i x, x)) l).*2 = l.
Proof.
  revert f. induction l as [|x l IH]; intros f; [done|].
  rewrite imap_cons. simpl. f_equal. apply (IH (f ∘ S)).
Qed.

Lemma adjusted_snd times : (adjusted times).*2 = times.
Proof. rewrite adjusted_eq. apply (imap_snd (fun i x => (_, i))). Qed.

Lemma imap_keys_Forall {A} (f : A -> Z) (k : nat) (l l0 : list A) :
  (forall i x, l !! i = Some x -> l0 !! (k + i)%nat = Some x) ->
  Forall (fun x : Z * nat * A => l0 !! x.1.2 = Some x.2 /\ x.1.1 = f x.2)
         (imap (fun i x => (f x, (k + i)%nat, x)) l).
Proof.
  revert k. induction l as [|x l IH]; intros k Hl; [constructor|].
  rewrite imap_cons. constructor.
  - simpl. split; [|done]. apply (Hl 0%nat). done.
  - rewrite (imap_ext _ (fun i x => (f x, (S k + i)%nat, x))).
    + apply IH. intros i y Hy. replace (S k + i)%nat with (k + S i)%nat by lia.
      by apply Hl.
    + intros i y _. simpl. do 2 f_equal. lia.
Qed.

Lemma imap_keys_idx {A} (f : A -> Z) (k : nat) (l : list A) :
  (fun x : Z * nat * A => x.1.2) <$> imap (fun i x => (f x, (k + i)%nat, x)) l
  = seq k (length l).
Proof.
  revert k. induction l as [|x l IH]; intros k; [done|].
  rewrite imap_cons. simpl. f_equal; [lia|].
  rewrite <- IH. f_equal. apply imap_ext. intros i y _. simpl. do 2 f_equal. lia.
Qed.

(** Consecutive indices break no tie: keys in non-decreasing order of their
    first component are in order. *)
Lemma imap_keys_Sorted {A} (f : A -> Z) (k : nat) (l : list A) :
  Sorted Z.le (f <$> l) ->
  Sorted (fun x y : Z * nat * A => x.1.1 < y.1.1 \/ x.1.1 = y.1.1 /\ (x.1.2 <= y.1.2)%nat)
         (imap (fun i x => (f x, (k + i)%nat, x)) l).
Proof.
  revert k. induction l as [|x l IH]; intros k Hs; [constructor|].
  rewrite imap_cons. inversion Hs as [|? ? Hs' Hhd]; subst.
  rewrite (imap_ext _ (fun i x => (f x, (S k + i)%nat, x)))
    by (intros i y _; simpl; do 2 f_equal; lia).
  constructor; [by apply IH|].
  destruct l as [|y l]; [constructor|]. rewrite imap_cons. constructor. simpl.
  inversion Hhd; subst. lia.
Qed.

Lemma Sorted_key_le_fst l : Sorted key_le l -> Sorted Z.le ((fun x => x.1.1) <$> l).
Proof.
  induction 1 as [|x l Hl IH Hhd]; simpl; constructor; [done|].
  destruct Hhd as [|y l Hxy]; simpl; constructor. unfold key_le in Hxy. lia.
Qed.

Lemma normalize_short times :
  (length times < 2)%nat -> normalize_registro_times times = (times, false).
Proof.
  intros H. unfold normalize_registro_times.
  destruct (Nat.ltb_spec (length times) 2); [done|lia].
Qed.

Lemma normalize_long times :
  (2 <= length times)%nat ->
  normalize_registro_times times =
  ((sorted key_leb (adjusted times)).*2,
   bool_decide ((sorted key_leb (adjusted times)).*2 <> times)).
Proof.
  intros H. unfold normalize_registro_times.
  destruct (Nat.ltb_spec (length times) 2); [lia|done].
Qed.

Lemma normalize_out_perm times : (normalize_registro_times times).1 ≡ₚ times.
Proof.
  destruct (Nat.lt_ge_cases (length times) 2) as [H|H].
  - by rewrite normalize_short.
  - rewrite normalize_long by done. simpl.
    rewrite (sorted_perm key_leb (adjusted times)). by rewrite adjusted_snd.
Qed.

(** * Normalization only reorders *)

(** C10: the list returned by [normalize_registro_times] is a permutation of
    the input: same length, same values with the same multiplicities; the
    1440 added for ordering never reaches an output value. *)
Theorem normalize_permutation times :
  (normalize_registro_times times).1 ≡ₚ times /\
  length (normalize_registro_times times).1 = length times /\
  (forall t, t ∈ (normalize_registro_times times).1 <-> t ∈ times) /\
  (forall t, count_occ time_eq_dec (normalize_registro_times times).1 t
             = count_occ time_eq_dec times t).
Proof.
  pose proof (normalize_out_perm times) as Hp. repeat split.
  - done.
  - by rewrite Hp.
  - by rewrite Hp.
  - by rewrite Hp.
  - intros t. apply Permutation_count_occ. done.
Qed.

Lemma adjusted_Forall times :
  Forall (fun x : Z * nat * time =>
            times !! x.1.2 = Some x.2 /\
            x.1.1 = adj_of (wrap_likely (min_of_day <$> times))
                           (hd 0 (min_of_day <$> times)) (min_of_day x.2))
         (adjusted times).
Proof.
  rewrite adjusted_eq.
  apply (imap_keys_Forall (fun t => adj_of _ _ (min_of_day t)) 0 times times). done.
Qed.

Lemma adjusted_idx times :
  (fun x : Z * nat * time => x.1.2) <$> adjusted times = seq 0 (length times).
Proof.
  rewrite adjusted_eq.
  apply (imap_keys_idx (fun t => adj_of _ _ (min_of_day t)) 0 times).
Qed.

Lemma ordered_Sorted times : Sorted key_le (sorted key_leb (adjusted times)).
Proof. apply Sorted_key_leb_le, sorted_Sorted, key_leb_total. Qed.

(** * What normalization computes *)

(** C4: a list with fewer than 2 punches is returned unchanged with
    [reordered = false]. For a list with at least 2 punches, with the minute
    of a punch [hour * 60 + minute], [wrap_likely] is (first minute >= 1080
    and some later punch is strictly smaller) or (some later punch is strictly
    smaller and max - min > 720); the sort keys are the punches with their
    original index and their minute, plus 1440 when [wrap_likely] holds and
    the minute is below the first punch's; the output is the original values
    in the order of (adjusted minute, original index); and [reordered] is
    true exactly when the output differs from the input. *)
Theorem normalize_spec times :
  ((length times < 2)%nat -> normalize_registro_times times = (times, false)) /\
  ((2 <= length times)%nat ->
   let minuto (t : time) := hour t * 60 + minute t in
   let mins := minuto <$> times in
   exists (entry_min mx mn : Z) (wrap : bool) (ordered : list (Z * nat * time)),
     mins !! 0%nat = Some entry_min /\
     (mx ∈ mins /\ forall m, m ∈ mins -> m <= mx) /\
     (mn ∈ mins /\ forall m, m ∈ mins -> mn <= m) /\
     (let smaller := exists i m, (0 < i)%nat /\ mins !! i = Some m /\ m < entry_min in
      wrap = true <-> (1080 <= entry_min /\ smaller) \/ (smaller /\ 720 < mx - mn)) /\
     (fun x : Z * nat * time => x.1.2) <$> ordered ≡ₚ seq 0 (length times) /\
     Forall (fun x : Z * nat * time =>
               times !! x.1.2 = Some x.2 /\
               x.1.1 = minuto x.2 +
                       (if wrap && (minuto x.2 <? entry_min) then 1440 else 0))
            ordered /\
     StronglySorted (fun x y : Z * nat * time =>
                       x.1.1 < y.1.1 \/ (x.1.1 = y.1.1 /\ (x.1.2 <= y.1.2)%nat))
                    ordered /\
     (normalize_registro_times times).1 = ordered.*2 /\
     ((normalize_registro_times times).2 = true <->
      (normalize_registro_times times).1 <> times)).
Proof.
  split; [apply normalize_short|]. intros Hlen minuto mins.
  change minuto with min_of_day in *. clear minuto.
  destruct times as [|t0 ts]; [simpl in Hlen; lia|].
  exists (min_of_day t0), (py_max mins), (py_min mins), (wrap_likely mins),
    (sorted key_leb (adjusted (t0 :: ts))).
  split; [done|]. split; [apply py_max_spec|]. split; [apply py_min_spec|].
  split; [|split; [|split; [|split; [|split]]]].
  - cbv zeta. rewrite wrap_likely_spec. subst mins. rewrite fmap_cons.
    rewrite has_smaller_spec. simpl hd.
    assert ((exists m, m ∈ min_of_day <$> ts /\ m < min_of_day t0) <->
            (exists i m, (0 < i)%nat /\
               (min_of_day t0 :: (min_of_day <$> ts)) !! i = Some m /\ m < min_of_day t0))
      as Hiff; [|by rewrite Hiff].
    split.
    + intros (m & [i Hi]%list_elem_of_lookup & Hlt).
      exists (S i), m. split; [lia|]. done.
    + intros (i & m & Hpos & Hi & Hlt). destruct i as [|i]; [lia|].
      exists m. split; [|done]. apply list_elem_of_lookup. by exists i.
  - rewrite <- adjusted_idx. apply fmap_Permutation, sorted_perm.
  - eapply Permutation_Forall; [symmetry; apply sorted_perm|].
    apply adjusted_Forall.
  - apply Sorted_StronglySorted; [apply key_le_trans|apply ordered_Sorted].
  - rewrite normalize_long by done. done.
  - rewrite normalize_long by done. simpl. rewrite bool_decide_eq_true. done.
Qed.

Lemma normalize_spec_witness :
  normalize_registro_times [Time 9 0] = ([Time 9 0], false) /\
  normalize_registro_times [Time 10 0; Time 9 0] = ([Time 9 0; Time 10 0], true) /\
  normalize_registro_times [Time 22 0; Time 2 0] = ([Time 22 0; Time 2 0], false).
Proof.
  split; [apply (normalize_spec [Time 9 0]); simpl; lia|].
  split.
  - destruct (proj2 (normalize_spec [Time 10 0; Time 9 0]))
      as (e & mx & mn & w & ordered & He & [Hmx _] & [Hmn _] & Hw & Hperm & Hall & Hs & Ho & Hr);
      [simpl; lia|].
    destruct (normalize_registro_times [Time 10 0; Time 9 0]) as [out re].
    cbv zeta in *. simpl in He, Hmx, Hmn, Hw, Hperm, Hall.
    apply (inj Some) in He. subst e.
    assert (w = false) as ->.
    { destruct w; [|done]. exfalso.
      apply elem_of_cons in Hmx as [->|Hmx]; [|apply list_elem_of_singleton in Hmx as ->];
      (apply elem_of_cons in Hmn as [->|Hmn]; [|apply list_elem_of_singleton in Hmn as ->]);
      destruct (proj1 Hw eq_refl) as [[? _]|[_ ?]]; lia. }
    simpl in Hall.
    destruct ordered as [|[[k1 i1] t1] [|[[k2 i2] t2] [|? ?]]];
      try (apply Permutation_length in Hperm; simpl in Hperm; lia).
    apply Forall_cons in Hall as [[Ht1 Hk1] Hall].
    apply Forall_cons in Hall as [[Ht2 Hk2] _].
    apply StronglySorted_inv in Hs as [_ Hs]. apply Forall_cons in Hs as [Hs _].
    simpl in *.
    apply Permutation_sym, Permutation_length_2_inv in Hperm as [Hp|Hp];
      injection Hp as -> ->; simpl in Ht1, Ht2;
      apply (inj Some) in Ht1; apply (inj Some) in Ht2; subst t1 t2; simpl in *.
    + lia.
    + subst out. f_equal. apply Hr. discriminate.
  - destruct (proj2 (normalize_spec [Time 22 0; Time 2 0]))
      as (e & mx & mn & w & ordered & He & _ & _ & Hw & Hperm & Hall & Hs & Ho & Hr);
      [simpl; lia|].
    destruct (normalize_registro_times [Time 22 0; Time 2 0]) as [out re].
    cbv zeta in *. simpl in He, Hw, Hperm, Hall.
    apply (inj Some) in He. subst e.
    assert (w = true) as ->.
    { apply Hw. left. split; [lia|]. exists 1%nat, 120. split; [lia|]. split; [done|lia]. }
    simpl in Hall.
    destruct ordered as [|[[k1 i1] t1] [|[[k2 i2] t2] [|? ?]]];
      try (apply Permutation_length in Hperm; simpl in Hperm; lia).
    apply Forall_cons in Hall as [[Ht1 Hk1] Hall].
    apply Forall_cons in Hall as [[Ht2 Hk2] _].
    apply StronglySorted_inv in Hs as [_ Hs]. apply Forall_cons in Hs as [Hs _].
    simpl in *.
    apply Permutation_sym, Permutation_length_2_inv in Hperm as [Hp|Hp];
      injection Hp as -> ->; simpl in Ht1, Ht2;
      apply (inj Some) in Ht1; apply (inj Some) in Ht2; subst t1 t2; simpl in *.
    + subst out. f_equal. destruct re; [|done].
      exfalso. by apply (proj1 Hr).
    + lia.
Defined.

(** * Normalizing twice *)

Lemma has_smaller_perm x l1 l2 : l1 ≡ₚ l2 -> has_smaller (x :: l1) = has_smaller (x :: l2).
Proof.
  intros Hp. apply eq_true_iff_eq. rewrite !has_smaller_spec.
  split; intros (m & Hin & Hlt); exists m; split; try done.
  - by rewrite <- Hp.
  - by rewrite Hp.
Qed.

Lemma wrap_likely_perm x l1 l2 : l1 ≡ₚ l2 -> wrap_likely (x :: l1) = wrap_likely (x :: l2).
Proof.
  intros Hp. unfold wrap_likely.
  rewrite (has_smaller_perm x l1 l2 Hp).
  rewrite (py_max_perm (x :: l1) (x :: l2)) by by constructor.
  rewrite (py_min_perm (x :: l1) (x :: l2)) by by constructor.
  done.
Qed.

Lemma has_smaller_sorted mins : Sorted Z.le mins -> has_smaller mins = false.
Proof.
  intros Hs. apply Sorted_StronglySorted in Hs; [|intros ???; lia].
  destruct mins as [|x l]; [done|]. apply not_true_is_false.
  rewrite has_smaller_spec. intros (m & Hin & Hlt).
  apply StronglySorted_inv in Hs as [_ Hall].
  rewrite Forall_forall in Hall. apply Hall in Hin. lia.
Qed.

Lemma wrap_likely_no_smaller mins : has_smaller mins = false -> wrap_likely mins = false.
Proof. unfold wrap_likely. intros ->. by rewrite andb_false_r. Qed.

Lemma adj_of_false e m : adj_of false e m = m.
Proof. unfold adj_of. simpl. lia. Qed.

Lemma adj_of_entry w e : adj_of w e e = e.
Proof. unfold adj_of. rewrite Z.ltb_irrefl, andb_false_r. lia. Qed.

Lemma adj_of_ge e m : 0 <= m -> e < 1440 -> e <= adj_of true e m.
Proof.
  intros Hm He. unfold adj_of. simpl. destruct (Z.ltb_spec m e); lia.
Qed.

(** With the overnight adjustment in force the first punch stays first. *)
Lemma ordered_head t0 ts :
  Forall wf_time (t0 :: ts) ->
  wrap_likely (min_of_day <$> t0 :: ts) = true ->
  exists rest, (sorted key_leb (adjusted (t0 :: ts))).*2 = t0 :: rest /\ rest ≡ₚ ts.
Proof.
  intros Hwf Hw. pose proof (adjusted_Forall (t0 :: ts)) as Hall.
  pose proof (adjusted_snd (t0 :: ts)) as Hsnd.
  pose proof (adjusted_idx (t0 :: ts)) as Hidx.
  destruct (adjusted (t0 :: ts)) as [|x0 tl] eqn:E; [done|].
  rewrite fmap_cons in Hsnd. injection Hsnd as Hx0 Htl.
  rewrite fmap_cons in Hidx. simpl in Hidx. injection Hidx as Hi0 _.
  apply Forall_cons in Hall as [[_ Hk0] Hall].
  rewrite fmap_cons in Hk0. simpl hd in Hk0. rewrite Hx0, adj_of_entry in Hk0.
  rewrite sorted_cons_min.
  - exists ((sorted key_leb tl).*2). rewrite fmap_cons, Hx0. split; [done|].
    by rewrite (sorted_perm key_leb tl), Htl.
  - intros y Hy. rewrite Forall_forall in Hall. destruct (Hall y Hy) as [Hlk Hky].
    apply key_leb_le. unfold key_le. rewrite Hk0, Hi0.
    assert (wf_time y.2) as Hwy.
    { rewrite Forall_forall in Hwf. apply Hwf. by eapply list_elem_of_lookup_2. }
    apply Forall_cons in Hwf as [Hw0 _].
    rewrite Hw in Hky. rewrite fmap_cons in Hky. simpl hd in Hky.
    pose proof (adj_of_ge (min_of_day t0) (min_of_day y.2)) as Hge.
    unfold wf_time, min_of_day in *. lia.
Qed.

(** After the sort the adjusted minutes of the output, computed afresh from
    the output, are in non-decreasing order. *)
Lemma normalized_adj_Sorted times :
  Forall wf_time times ->
  let out := (sorted key_leb (adjusted times)).*2 in
  Sorted Z.le
    ((fun t => adj_of (wrap_likely (min_of_day <$> out)) (hd 0 (min_of_day <$> out))
                      (min_of_day t)) <$> out).
Proof.
  intros Hwf out.
  set (w := wrap_likely (min_of_day <$> times)).
  set (e := hd 0 (min_of_day <$> times)).
  assert (Sorted Z.le ((fun t => adj_of w e (min_of_day t)) <$> out)) as Hs.
  { pose proof (Sorted_key_le_fst _ (ordered_Sorted times)) as H1.
    assert (Forall (fun x : Z * nat * time => x.1.1 = adj_of w e (min_of_day x.2))
                   (sorted key_leb (adjusted times))) as H2.
    { eapply Permutation_Forall; [symmetry; apply sorted_perm|].
      eapply Forall_impl; [apply adjusted_Forall|]. by intros x [_ ?]. }
    apply Forall_fmap_ext_1 in H2. rewrite H2 in H1.
    subst out. by rewrite <- list_fmap_compose. }
  destruct w eqn:Hw.
  - (* overnight adjustment in force *)
    destruct times as [|t0 ts]; [done|].
    destruct (ordered_head t0 ts Hwf Hw) as (rest & Hout & Hrest).
    fold out in Hout. rewrite Hout in Hs |- *.
    assert (wrap_likely (min_of_day <$> t0 :: rest) = true) as ->.
    { rewrite fmap_cons.
      rewrite (wrap_likely_perm _ (min_of_day <$> rest) (min_of_day <$> ts))
        by by apply fmap_Permutation.
      exact Hw. }
    exact Hs.
  - (* no adjustment: the output is in plain minute order *)
    assert ((fun t => adj_of false e (min_of_day t)) <$> out = min_of_day <$> out) as Heq.
    { apply list_fmap_ext. intros i x _. apply adj_of_false. }
    rewrite Heq in Hs.
    rewrite (wrap_likely_no_smaller _ (has_smaller_sorted _ Hs)).
    erewrite list_fmap_ext; [exact Hs|]. intros i x _. apply adj_of_false.
Qed.

Lemma adjusted_normalized_Sorted times :
  Forall wf_time times ->
  Sorted key_le (adjusted (sorted key_leb (adjusted times)).*2).
Proof.
  intros Hwf. rewrite adjusted_eq.
  apply (imap_keys_Sorted (fun t => adj_of _ _ (min_of_day t)) 0
           (sorted key_leb (adjusted times)).*2).
  by apply normalized_adj_Sorted.
Qed.

(** C9: normalization is idempotent: if [normalize_registro_times] returns
    [(out, r)], then applied to [out] it returns [(out, false)]. *)
Theorem normalize_idempotent times out r :
  Forall wf_time times ->
  normalize_registro_times times = (out, r) ->
  normalize_registro_times out = (out, false).
Proof.
  intros Hwf Hn.
  destruct (Nat.lt_ge_cases (length times) 2) as [Hlen|Hlen].
  - rewrite normalize_short in Hn by done. injection Hn as <- <-.
    by apply normalize_short.
  - rewrite normalize_long in Hn by done. injection Hn as <- <-.
    set (out := (sorted key_leb (adjusted times)).*2).
    assert (length out = length times) as Hlo.
    { subst out. by rewrite length_fmap, (sorted_perm key_leb (adjusted times)),
        <- (length_fmap snd), adjusted_snd. }
    rewrite normalize_long by lia.
    rewrite (sorted_id key_leb (adjusted out)).
    + rewrite adjusted_snd. f_equal. apply bool_decide_eq_false. by intros H.
    + apply Sorted_key_leb_le. by apply adjusted_normalized_Sorted.
Qed.

Lemma normalize_idempotent_witness :
  normalize_registro_times [Time 22 0; Time 23 0; Time 2 0]
  = ([Time 22 0; Time 23 0; Time 2 0], false).
Proof.
  apply (normalize_idempotent [Time 22 0; Time 2 0; Time 23 0] _ true).
  - repeat constructor; simpl; lia.
  - vm_compute. reflexivity.
Defined.

(** * The specification's arithmetic against the helpers of core.py *)

Lemma time_of_dt_datetime_of t : wf_time t -> time_of_dt (datetime_of t) = t.
Proof.
  intros Ht. apply datetime_of_inj; [apply wf_time_of_dt|done|].
  rewrite datetime_of_time_of_dt. apply Z.mod_small. by apply wf_datetime_of.
Qed.

Lemma spec_minutos_entre_eq a b :
  spec_minutos_entre a b = minutos_entre (Some a) (Some b).
Proof. reflexivity. Qed.

Lemma wf_spec_mas_minutos t m : wf_time (spec_mas_minutos t m).
Proof.
  unfold wf_time, spec_mas_minutos. cbv zeta. cbn [hour minute].
  pose proof (Z.mod_pos_bound (spec_minuto t + m) 1440 ltac:(lia)) as Hb.
  split; [|apply Z.mod_pos_bound; lia].
  split; [apply Z.div_pos; lia|apply Z.div_lt_upper_bound; lia].
Qed.

Lemma spec_mas_minutos_eq t m :
  Some (spec_mas_minutos t m) = add_minutes (Some t) m.
Proof.
  unfold add_minutes. f_equal.
  apply datetime_of_inj; [apply wf_spec_mas_minutos|apply wf_time_of_dt|].
  rewrite datetime_of_time_of_dt.
  unfold spec_mas_minutos, datetime_of. cbv zeta. cbn [hour minute].
  change (hour t * 60 + minute t) with (spec_minuto t).
  pose proof (Z.div_mod ((spec_minuto t + m) mod 1440) 60 ltac:(lia)). lia.
Qed.

(** * The recorded windows *)

Lemma comida_fin_wf sal_com reg_com sal cfg :
  from_option wf_time True reg_com -> wf_time sal ->
  from_option wf_time True (comida sal_com reg_com sal cfg).2.
Proof.
  intros Hr Hs. destruct sal_com as [mo|]; [|done]. rewrite comida_Some. cbv zeta.
  destruct (_ <=? _); simpl; [apply wf_time_of_dt|by destruct reg_com].
Qed.

Lemma wf_ventanas_descuento sal_com fv sal_cen reg_cen sal :
  from_option wf_time True sal_com -> from_option wf_time True fv ->
  from_option wf_time True sal_cen -> from_option wf_time True reg_cen -> wf_time sal ->
  Forall (fun v : time * time => wf_time v.1 /\ wf_time v.2)
         (ventanas_descuento sal_com fv sal_cen reg_cen sal).
Proof.
  intros H1 H2 H3 H4 H5. unfold ventanas_descuento. apply Forall_app. split.
  - destruct sal_com, fv; try constructor; [done|constructor].
  - destruct sal_cen; constructor; [|constructor].
    split; [done|]. by destruct reg_cen.
Qed.

Lemma spec_ventanas_horas_eq eventos cfg sal :
  spec_ventanas_horas eventos cfg sal =
  ventanas_descuento (ev_get eventos "Salida a comer")
    (comida (ev_get eventos "Salida a comer") (ev_get eventos "Regreso de comer")
       sal cfg).2
    (ev_get eventos "Salida a cenar") (ev_get eventos "Regreso de cenar") sal.
Proof.
  unfold spec_ventanas_horas, ventanas_descuento. f_equal.
  - unfold spec_ventana_comida, spec_descuento_comida, spec_fin_comida.
    destruct (ev_get eventos "Salida a comer") as [mo|]; [|done].
    rewrite comida_Some. cbv zeta. rewrite spec_minutos_entre_eq.
    destruct (_ <=? _); cbn [snd option_list]; [|done].
    pose proof (spec_mas_minutos_eq mo
      (Z.min (minutos_entre (Some mo) (Some (default sal (ev_get eventos "Regreso de comer"))))
             (tope_descuento_comida_min cfg))) as Heq.
    unfold add_minutes in Heq. apply (inj Some) in Heq. by rewrite Heq.
  - unfold spec_ventana_cena.
    destruct (ev_get eventos "Salida a cenar") as [dn|]; [|done].
    by destruct (ev_get eventos "Regreso de cenar").
Qed.

Lemma wf_spec_ventanas_horas eventos cfg sal :
  wf_eventos eventos -> wf_time sal ->
  Forall (fun v : time * time => wf_time v.1 /\ wf_time v.2)
         (spec_ventanas_horas eventos cfg sal).
Proof.
  intros Hwf Hs. rewrite spec_ventanas_horas_eq.
  apply wf_ventanas_descuento; try (by apply wf_eventos_slot); [|done].
  apply comida_fin_wf; [by apply wf_eventos_slot|done].
Qed.

(** * The meal deduction *)

(** C2: with Entry and Exit present, the meal deduction is 0 without MealOut;
    otherwise, with the effective end MealIn (or Exit when MealIn is absent)
    and [actual] the minutes from MealOut to it (the end counted on the next
    day when its minute of the day is below MealOut's), the deduction is
    [min actual cap] when [actual <= ceiling] and [actual] above the ceiling,
    and the window the code records runs from MealOut to MealOut plus the
    deducted minutes, around the clock, in the capped case, and to the
    effective end otherwise; the dinner window follows it. *)
Theorem meal_deduction eventos cfg nl ent sal :
  ev_get eventos "Entrada" = Some ent ->
  ev_get eventos "Salida" = Some sal ->
  let r := calcular_trabajado eventos cfg nl in
  let sal_com := ev_get eventos "Salida a comer" in
  let reg_com := ev_get eventos "Regreso de comer" in
  let sal_cen := ev_get eventos "Salida a cenar" in
  let reg_cen := ev_get eventos "Regreso de cenar" in
  let ventanas :=
    ventanas_descuento sal_com (comida sal_com reg_com sal cfg).2 sal_cen reg_cen sal in
  let cenas :=
    match sal_cen with Some dn => [(dn, default sal reg_cen)] | None => [] end in
  let minuto (t : time) := hour t * 60 + minute t in
  match sal_com with
  | None => comida_ded r = 0 /\ ventanas = cenas
  | Some mo =>
      let fin := default sal reg_com in
      let actual :=
        (if minuto fin <? minuto mo then minuto fin + 1440 else minuto fin) - minuto mo in
      (actual <= umbral_comida_media_hora_min cfg ->
         let ded := Z.min actual (tope_descuento_comida_min cfg) in
         let x := (minuto mo + ded) mod 1440 in
         comida_ded r = ded /\
         ventanas = (mo, Time (x / 60) (x mod 60)) :: cenas) /\
      (umbral_comida_media_hora_min cfg < actual ->
         comida_ded r = actual /\ ventanas = (mo, fin) :: cenas)
  end.
Proof.
  intros Hent Hsal.
  destruct (calcular_trabajado_fields eventos cfg nl ent sal Hent Hsal) as (Hc & _).
  cbv zeta. rewrite Hc. clear Hc.
  rewrite <- spec_ventanas_horas_eq.
  unfold spec_ventanas_horas, spec_ventana_comida, spec_ventana_cena,
    spec_descuento_comida, spec_fin_comida.
  destruct (ev_get eventos "Salida a comer") as [mo|].
  2: { split; [done|]. by destruct (ev_get eventos "Salida a cenar"). }
  rewrite comida_Some. cbv zeta. rewrite <- spec_minutos_entre_eq.
  change (spec_minutos_entre mo (default sal (ev_get eventos "Regreso de comer")))
    with ((if spec_minuto (default sal (ev_get eventos "Regreso de comer")) <? spec_minuto mo
           then spec_minuto (default sal (ev_get eventos "Regreso de comer")) + 1440
           else spec_minuto (default sal (ev_get eventos "Regreso de comer")))
          - spec_minuto mo).
  repeat match goal with
         | |- context [hour ?t * 60 + minute ?t] =>
             change (hour t * 60 + minute t) with (spec_minuto t)
         end.
  set (actual := _ - spec_minuto mo).
  assert (option_list
            match ev_get eventos "Salida a cenar" with
            | Some dn => Some (dn, default sal (ev_get eventos "Regreso de cenar"))
            | None => None
            end
          = match ev_get eventos "Salida a cenar" with
            | Some dn => [(dn, default sal (ev_get eventos "Regreso de cenar"))]
            | None => []
            end) as -> by (by destruct (ev_get eventos "Salida a cenar")).
  split; intros Hle.
  - destruct (Z.leb_spec actual (umbral_comida_media_hora_min cfg)); [|lia].
    split; done.
  - destruct (Z.leb_spec actual (umbral_comida_media_hora_min cfg)); [lia|].
    split; done.
Qed.

Lemma meal_deduction_witness :
  (comida_ded (calcular_trabajado eventos_nocturnos_comida AppConfig_default None) = 30 /\
   ventanas_descuento (Some (Time 23 45))
     (comida (Some (Time 23 45)) (Some (Time 0 25)) (Time 6 0) AppConfig_default).2
     None None (Time 6 0)
   = [(Time 23 45, Time 0 15)]) /\
  (comida_ded (calcular_trabajado eventos_B AppConfig_default None) = 70 /\
   ventanas_descuento (Some (Time 12 0))
     (comida (Some (Time 12 0)) (Some (Time 13 10)) (Time 17 0) AppConfig_default).2
     None None (Time 17 0)
   = [(Time 12 0, Time 13 10)]).
Proof.
  split.
  - pose proof (meal_deduction eventos_nocturnos_comida AppConfig_default None
                  (Time 22 0) (Time 6 0) eq_refl eq_refl) as H.
    cbv zeta in H.
    change (ev_get eventos_nocturnos_comida "Salida a comer") with (Some (Time 23 45)) in H.
    change (ev_get eventos_nocturnos_comida "Regreso de comer") with (Some (Time 0 25)) in H.
    change (ev_get eventos_nocturnos_comida "Salida a cenar") with (@None time) in H.
    change (ev_get eventos_nocturnos_comida "Regreso de cenar") with (@None time) in H.
    cbv beta iota in H. destruct H as [H _]. apply H. vm_compute. discriminate.
  - pose proof (meal_deduction eventos_B AppConfig_default None (Time 9 0) (Time 17 0)
                  eq_refl eq_refl) as H.
    cbv zeta in H.
    change (ev_get eventos_B "Salida a comer") with (Some (Time 12 0)) in H.
    change (ev_get eventos_B "Regreso de comer") with (Some (Time 13 10)) in H.
    change (ev_get eventos_B "Salida a cenar") with (@None time) in H.
    change (ev_get eventos_B "Regreso de cenar") with (@None time) in H.
    cbv beta iota in H. destruct H as [_ H]. apply H. vm_compute. reflexivity.
Defined.


(** * The shift timeline *)

Lemma mod_1440_cases i :
  0 <= i < 2880 -> i mod 1440 = if i <? 1440 then i else i - 1440.
Proof.
  intros Hi. destruct (Z.ltb_spec i 1440).
  - apply Z.mod_small. lia.
  - symmetry. apply (Z.mod_unique_pos i 1440 1); lia.
Qed.

Section timeline.
Variables (ent sal : time).
Hypothesis (Hent : wf_time ent) (Hsal : wf_time sal).

Lemma to_shift_cases t :
  wf_time t ->
  _to_shift_dt ent sal t =
  datetime_of t +
  (if (datetime_of sal <? datetime_of ent) && (datetime_of t <? datetime_of ent)
   then 1440 else 0).
Proof.
  intros Ht. unfold _to_shift_dt, crosses_midnight.
  rewrite !time_ltb_datetime by done. case_match; lia.
Qed.

(** The timeline of the amended statement is the one [_to_shift_dt] lays
    out. *)
Lemma spec_linea_to_shift t :
  wf_time t -> spec_linea ent sal t = _to_shift_dt ent sal t.
Proof. intros Ht. rewrite to_shift_cases by done. reflexivity. Qed.

Lemma spec_jornada_eq :
  spec_jornada ent sal =
  (datetime_of ent, datetime_of ent + minutos_entre (Some ent) (Some sal)).
Proof.
  unfold spec_jornada, spec_intervalo, minutos_entre. cbn [fst snd].
  rewrite !spec_linea_to_shift, !to_shift_cases by done.
  pose proof (wf_datetime_of ent Hent). pose proof (wf_datetime_of sal Hsal).
  f_equal; [case_ltb; simpl; lia|].
  destruct (Z.ltb_spec (datetime_of sal) (datetime_of ent)); simpl.
  - rewrite Z.ltb_irrefl. case_ltb; lia.
  - case_ltb; lia.
Qed.

Lemma spec_jornada_bounds :
  0 <= (spec_jornada ent sal).1 < 1440 /\
  (spec_jornada ent sal).1 <= (spec_jornada ent sal).2 < (spec_jornada ent sal).1 + 1440.
Proof.
  rewrite spec_jornada_eq. cbn [fst snd].
  pose proof (wf_datetime_of ent Hent).
  pose proof (minutos_entre_bounds ent sal Hent Hsal). lia.
Qed.

(** A position inside the shift window keeps its place when it goes through
    a time of day and back. *)
Lemma to_shift_time_of_dt i :
  (spec_jornada ent sal).1 <= i <= (spec_jornada ent sal).2 ->
  _to_shift_dt ent sal (time_of_dt i) = i.
Proof.
  intros Hi. pose proof spec_jornada_bounds as Hb.
  rewrite to_shift_cases by apply wf_time_of_dt.
  rewrite datetime_of_time_of_dt, mod_1440_cases by lia.
  rewrite spec_jornada_eq in *. cbn [fst snd] in *.
  unfold minutos_entre in *.
  pose proof (wf_datetime_of sal Hsal).
  destruct (Z.ltb_spec (datetime_of sal) (datetime_of ent)); simpl;
    destruct (Z.ltb_spec i 1440); case_ltb; lia.
Qed.

Lemma spec_intervalo_horas i :
  (spec_jornada ent sal).1 <= i.1 -> i.1 <= i.2 -> i.2 <= (spec_jornada ent sal).2 ->
  spec_intervalo ent sal (horas i) = i.
Proof.
  intros H1 H2 H3. destruct i as [a b]. unfold spec_intervalo, horas. cbn [fst snd] in *.
  rewrite !spec_linea_to_shift by apply wf_time_of_dt.
  rewrite !to_shift_time_of_dt by lia.
  destruct (Z.ltb_spec b a); [lia|done].
Qed.

Lemma minutos_entre_horas a b :
  (spec_jornada ent sal).1 <= a -> a <= b -> b <= (spec_jornada ent sal).2 ->
  minutos_entre (Some (time_of_dt a)) (Some (time_of_dt b)) = b - a.
Proof.
  intros H1 H2 H3. pose proof spec_jornada_bounds as Hb.
  unfold minutos_entre. rewrite !datetime_of_time_of_dt, !mod_1440_cases by lia.
  case_ltb; lia.
Qed.

Lemma minutos_entre_offset a :
  (spec_jornada ent sal).1 <= a <= (spec_jornada ent sal).2 ->
  a < (spec_jornada ent sal).2 \/ (spec_jornada ent sal).1 < a ->
  minutos_entre (Some ent) (Some (time_of_dt a)) = a - (spec_jornada ent sal).1.
Proof.
  intros H1 H2. pose proof spec_jornada_bounds as Hb.
  unfold minutos_entre. rewrite datetime_of_time_of_dt, mod_1440_cases by lia.
  rewrite spec_jornada_eq in *. cbn [fst snd] in *.
  unfold minutos_entre in *.
  pose proof (wf_datetime_of sal Hsal).
  destruct (Z.ltb_spec (datetime_of sal) (datetime_of ent)); case_ltb; lia.
Qed.

Lemma time_of_dt_inj a b :
  (spec_jornada ent sal).1 <= a <= (spec_jornada ent sal).2 ->
  (spec_jornada ent sal).1 <= b <= (spec_jornada ent sal).2 ->
  time_of_dt a = time_of_dt b -> a = b.
Proof.
  intros Ha Hb Heq. pose proof spec_jornada_bounds as Hj.
  apply (f_equal datetime_of) in Heq.
  rewrite !datetime_of_time_of_dt, !mod_1440_cases in Heq by lia.
  revert Heq. case_ltb; lia.
Qed.

(** The duration of an interval on the timeline is what [minutos_entre]
    measures between its two times. *)
Lemma spec_intervalo_duracion ini fin :
  wf_time ini -> wf_time fin ->
  (spec_intervalo ent sal (ini, fin)).2 - (spec_intervalo ent sal (ini, fin)).1
  = minutos_entre (Some ini) (Some fin).
Proof.
  intros Hi Hf. unfold spec_intervalo, minutos_entre. cbn [fst snd].
  rewrite !spec_linea_to_shift, !to_shift_cases by done.
  pose proof (wf_datetime_of ini Hi). pose proof (wf_datetime_of fin Hf).
  pose proof (wf_datetime_of ent Hent).
  destruct (datetime_of sal <? datetime_of ent); simpl; case_ltb; lia.
Qed.

End timeline.

(** * The code against the timeline: clipping *)

Lemma overlap_min_spec ent sal a1 a2 b1 b2 :
  wf_time ent -> wf_time sal ->
  wf_time a1 -> wf_time a2 -> wf_time b1 -> wf_time b2 ->
  _overlap_min ent sal a1 a2 b1 b2 =
  spec_solape (spec_intervalo ent sal (a1, a2)) (spec_intervalo ent sal (b1, b2)).
Proof.
  intros Hent Hsal Ha1 Ha2 Hb1 Hb2.
  unfold _overlap_min, spec_solape, spec_intervalo. cbv zeta. cbn [fst snd].
  rewrite !spec_linea_to_shift by done.
  generalize (_to_shift_dt ent sal a1) (_to_shift_dt ent sal a2)
             (_to_shift_dt ent sal b1) (_to_shift_dt ent sal b2).
  intros A1 A2 B1 B2. case_ltb; lia.
Qed.

Lemma spec_dentro_Some ent sal a i :
  spec_dentro ent sal a = Some i ->
  i = (Z.max a.1 (spec_jornada ent sal).1, Z.min a.2 (spec_jornada ent sal).2) /\
  en_ventana (spec_jornada ent sal) i.
Proof.
  unfold spec_dentro, en_ventana. cbv zeta. cbn [fst snd].
  destruct (Z.leb_spec (Z.min a.2 (spec_jornada ent sal).2)
                       (Z.max a.1 (spec_jornada ent sal).1)); [done|].
  intros Heq. apply (inj Some) in Heq. subst i. cbn [fst snd]. split; [done|lia].
Qed.

Lemma clip_to_shift_spec ent sal ini fin :
  wf_time ent -> wf_time sal -> wf_time ini -> wf_time fin ->
  _clip_to_shift ent sal ini fin ent sal =
  match spec_dentro ent sal (spec_intervalo ent sal (ini, fin)) with
  | None => None
  | Some i => Some (time_of_dt i.1, time_of_dt i.2, spec_ignorado ent sal (ini, fin))
  end.
Proof.
  intros Hent Hsal Hini Hfin.
  unfold _clip_to_shift, _window, spec_ignorado, spec_dentro, spec_jornada, spec_intervalo.
  cbv zeta. cbn [fst snd]. rewrite !spec_linea_to_shift by done.
  generalize (_to_shift_dt ent sal ini) (_to_shift_dt ent sal fin)
             (_to_shift_dt ent sal ent) (_to_shift_dt ent sal sal).
  intros a0 a1 s0 s1.
  set (a1' := if a1 <? a0 then a1 + 1440 else a1).
  set (s1' := if s1 <? s0 then s1 + 1440 else s1).
  destruct (Z.leb_spec (Z.min a1' s1') (Z.max a0 s0)); [done|].
  cbn [fst snd]. do 2 f_equal. lia.
Qed.

Section refinement.
Variables (ent sal : time).
Hypothesis (Hent : wf_time ent) (Hsal : wf_time sal).

Lemma recortar_spec l acc ig :
  Forall wf_no_laborado l ->
  fold_left (recortar ent sal) l (acc, ig) =
  (acc ++ (horas <$> spec_recortados ent sal (spec_efectivos sal l)),
   ig + spec_ignorados ent sal (spec_efectivos sal l)).
Proof.
  intros Hl. revert acc ig.
  induction Hl as [|[[ini fin] nota] l [Hi Hf] _ IH]; intros acc ig; simpl.
  { by rewrite app_nil_r, Z.add_0_r. }
  destruct ini as [ini|]; simpl in *; [|apply IH].
  change (match fin with Some f => f | None => sal end) with (default sal fin).
  assert (wf_time (default sal fin)) as Hfe by by destruct fin.
  rewrite clip_to_shift_spec by done.
  unfold spec_ignorados. rewrite fmap_cons. simpl sumZ.
  fold (spec_ignorados ent sal (spec_efectivos sal l)).
  unfold spec_ignorado at 2.
  destruct (spec_dentro ent sal (spec_intervalo ent sal (ini, default sal fin)))
    as [i|] eqn:Hd.
  - rewrite IH. rewrite fmap_cons, <- app_assoc. simpl app.
    f_equal. unfold spec_ignorado. rewrite Hd. lia.
  - rewrite IH. f_equal. rewrite spec_intervalo_duracion by done. lia.
Qed.

Lemma spec_recortados_en_ventana l :
  Forall (en_ventana (spec_jornada ent sal)) (spec_recortados ent sal l).
Proof.
  apply Forall_forall. intros i Hi. unfold spec_recortados in Hi.
  apply list_elem_of_omap in Hi as (x & _ & Hx).
  by apply spec_dentro_Some in Hx as [_ ?].
Qed.
End refinement.

(** * The code against the timeline: sorting and merging *)

(** Sorting commutes with a renaming of the elements that respects the
    comparison. *)
Lemma insert_sorted_fmap {A B} (leb1 : A -> A -> bool) (leb2 : B -> B -> bool)
    (g : A -> B) (P : A -> Prop) x l :
  (forall x y, P x -> P y -> leb2 (g x) (g y) = leb1 x y) ->
  P x -> Forall P l ->
  insert_sorted leb2 (g x) (g <$> l) = g <$> insert_sorted leb1 x l.
Proof.
  intros Hg Hx Hl. induction Hl as [|y l Hy _ IH]; csimpl; [done|].
  rewrite Hg by done. destruct (leb1 x y); csimpl; [done|]. by rewrite IH.
Qed.

Lemma sorted_fmap {A B} (leb1 : A -> A -> bool) (leb2 : B -> B -> bool)
    (g : A -> B) (P : A -> Prop) l :
  (forall x y, P x -> P y -> leb2 (g x) (g y) = leb1 x y) ->
  Forall P l ->
  sorted leb2 (g <$> l) = g <$> sorted leb1 l.
Proof.
  intros Hg Hl. induction Hl as [|x l Hx Hl IH]; csimpl; [done|].
  rewrite IH. apply (insert_sorted_fmap leb1 leb2 g P); [done..|].
  eapply Permutation_Forall; [symmetry; apply sorted_perm|done].
Qed.

Lemma fold_left_cons {A B} (f : A -> B -> A) x l a :
  fold_left f (x :: l) a = fold_left f l (f a x).
Proof. reflexivity. Qed.

Lemma insert_last {A} (pre : list A) (c v : A) :
  <[pred (length (pre ++ [c])) := v]> (pre ++ [c]) = pre ++ [v].
Proof.
  rewrite length_app. simpl. rewrite Nat.add_1_r. simpl.
  rewrite insert_app_r_alt by lia. by rewrite Nat.sub_diag.
Qed.

Lemma spec_fusion_en_ventana s cur rest :
  en_ventana s cur -> Forall (en_ventana s) rest ->
  Forall (en_ventana s) (spec_fusion cur rest).
Proof.
  intros Hc Hr. revert cur Hc.
  induction Hr as [|x rest Hx _ IH]; intros cur Hc; simpl;
    [constructor; [done|constructor]|].
  destruct (spec_se_fusionan cur x).
  - apply IH. unfold en_ventana in *. cbn [fst snd]. lia.
  - constructor; [done|]. by apply IH.
Qed.

Lemma spec_fusionados_en_ventana s l :
  Forall (en_ventana s) l -> Forall (en_ventana s) (spec_fusionados l).
Proof.
  intros Hl. destruct Hl as [|x l Hx Hl]; [constructor|].
  by apply spec_fusion_en_ventana.
Qed.

Section refinement_merge.
Variables (ent sal : time).
Hypothesis (Hent : wf_time ent) (Hsal : wf_time sal).

Lemma spec_intervalo_horas_en_ventana i :
  en_ventana (spec_jornada ent sal) i -> spec_intervalo ent sal (horas i) = i.
Proof.
  intros (H1 & H2 & H3). apply (spec_intervalo_horas ent sal Hent Hsal); lia.
Qed.

Lemma inicio_leb_horas x y :
  en_ventana (spec_jornada ent sal) x -> en_ventana (spec_jornada ent sal) y ->
  inicio_leb ent (horas x) (horas y) = spec_offset_leb ent sal x y.
Proof.
  intros (Hx1 & Hx2 & Hx3) (Hy1 & Hy2 & Hy3).
  unfold inicio_leb, spec_offset_leb, horas. cbn [fst snd].
  rewrite !(minutos_entre_offset ent sal Hent Hsal) by lia. done.
Qed.

Lemma ordenar_spec l :
  Forall (en_ventana (spec_jornada ent sal)) l ->
  sorted (inicio_leb ent) (horas <$> l) = horas <$> spec_ordenados ent sal l.
Proof.
  intros Hl. unfold spec_ordenados.
  apply (sorted_fmap _ _ horas (en_ventana (spec_jornada ent sal))); [|done].
  intros x y Hx Hy. by apply inicio_leb_horas.
Qed.

Lemma overlap_min_horas x y :
  en_ventana (spec_jornada ent sal) x -> en_ventana (spec_jornada ent sal) y ->
  _overlap_min ent sal (horas x).1 (horas x).2 (horas y).1 (horas y).2 = spec_solape x y.
Proof.
  intros Hx Hy. rewrite overlap_min_spec by (done || apply wf_time_of_dt).
  rewrite <- !surjective_pairing, !spec_intervalo_horas_en_ventana by done. done.
Qed.

Lemma fusionar_horas pre so cur x :
  en_ventana (spec_jornada ent sal) cur -> en_ventana (spec_jornada ent sal) x ->
  fusionar ent sal (pre ++ [horas cur], so) (horas x) =
  if spec_se_fusionan cur x
  then (pre ++ [horas (cur.1, Z.max cur.2 x.2)], so + spec_solape cur x)
  else (pre ++ [horas cur; horas x], so).
Proof.
  intros Hc Hx. unfold fusionar. cbn [fst snd].
  rewrite last_snoc.
  pose proof (overlap_min_horas cur x Hc Hx) as Hov.
  unfold horas in Hov |- * at 1 2. cbn [fst snd] in Hov |- *. rewrite Hov.
  destruct Hc as (Hc1 & Hc2 & Hc3), Hx as (Hx1 & Hx2 & Hx3).
  rewrite !(to_shift_time_of_dt ent sal Hent Hsal) by lia.
  assert (bool_decide (time_of_dt cur.2 = time_of_dt x.1) = (cur.2 =? x.1)) as ->.
  { destruct (Z.eqb_spec cur.2 x.1) as [->|Hne].
    - by apply bool_decide_eq_true.
    - apply bool_decide_eq_false. intros Heq. apply Hne.
      apply (time_of_dt_inj ent sal Hent Hsal); [lia|lia|done]. }
  unfold spec_se_fusionan.
  destruct ((0 <? spec_solape cur x) || (cur.2 =? x.1)).
  - destruct (Z.ltb_spec cur.2 cur.1); [lia|].
    destruct (Z.ltb_spec x.2 x.1); [lia|].
    destruct (Z.ltb_spec cur.2 x.2).
    + rewrite insert_last. unfold horas. cbn [fst snd].
      by rewrite Z.max_r by lia.
    + unfold horas. cbn [fst snd]. rewrite Z.max_l by lia.
      by destruct cur.
  - by rewrite <- app_assoc.
Qed.

Lemma fusionar_spec rest pre so cur :
  en_ventana (spec_jornada ent sal) cur -> Forall (en_ventana (spec_jornada ent sal)) rest ->
  fold_left (fusionar ent sal) (horas <$> rest) (pre ++ [horas cur], so) =
  (pre ++ (horas <$> spec_fusion cur rest), so + spec_solape_fusion cur rest).
Proof.
  intros Hc Hr. revert pre so cur Hc.
  induction Hr as [|x rest Hx _ IH]; intros pre so cur Hc.
  { simpl. by rewrite Z.add_0_r. }
  rewrite fmap_cons, fold_left_cons, fusionar_horas by done.
  simpl spec_fusion. simpl spec_solape_fusion.
  destruct (spec_se_fusionan cur x).
  - rewrite IH; [f_equal; lia|].
    unfold en_ventana in *. cbn [fst snd]. lia.
  - replace (pre ++ [horas cur; horas x]) with ((pre ++ [horas cur]) ++ [horas x])
      by (by rewrite <- app_assoc).
    rewrite IH by done. rewrite fmap_cons. by rewrite <- app_assoc.
Qed.

Lemma fusionar_todo_spec l :
  Forall (en_ventana (spec_jornada ent sal)) l ->
  fold_left (fusionar ent sal) (horas <$> l) ([], 0) =
  (horas <$> spec_fusionados l, spec_solape_interno l).
Proof.
  intros Hl. destruct Hl as [|x l Hx Hl]; [done|].
  rewrite fmap_cons, fold_left_cons.
  change (fusionar ent sal ([], 0) (horas x)) with ([] ++ [horas x], 0).
  rewrite fusionar_spec by done. done.
Qed.
End refinement_merge.

(** * The code against the timeline: the deduction *)

Section refinement_deduction.
Variables (ent sal : time).
Hypothesis (Hent : wf_time ent) (Hsal : wf_time sal).

Lemma descontar_ov_spec ventanas m acc :
  Forall (fun v : time * time => wf_time v.1 /\ wf_time v.2) ventanas ->
  en_ventana (spec_jornada ent sal) m ->
  fold_left (fun ov v => ov + _overlap_min ent sal (horas m).1 (horas m).2 v.1 v.2)
            ventanas acc
  = acc + spec_solape_ventanas (spec_intervalo ent sal <$> ventanas) m.
Proof.
  intros Hv Hm. revert acc.
  induction Hv as [|v ventanas [Hv1 Hv2] _ IH]; intros acc.
  { unfold spec_solape_ventanas. simpl. lia. }
  rewrite fold_left_cons, IH, overlap_min_spec by (done || apply wf_time_of_dt).
  rewrite <- !surjective_pairing, spec_intervalo_horas_en_ventana by done.
  unfold spec_solape_ventanas. rewrite !fmap_cons. simpl sumZ. lia.
Qed.

Lemma descontar_spec ventanas merged ov ded :
  Forall (fun v : time * time => wf_time v.1 /\ wf_time v.2) ventanas ->
  Forall (en_ventana (spec_jornada ent sal)) merged ->
  fold_left (descontar ent sal ventanas) (horas <$> merged) (ov, ded) =
  (ov + sumZ (spec_solape_ventanas (spec_intervalo ent sal <$> ventanas) <$> merged),
   ded + sumZ (spec_no_solapado (spec_intervalo ent sal <$> ventanas) <$> merged)).
Proof.
  intros Hv Hm. revert ov ded.
  induction Hm as [|m merged Hm _ IH]; intros ov ded.
  { simpl. by rewrite !Z.add_0_r. }
  rewrite fmap_cons, fold_left_cons.
  assert (descontar ent sal ventanas (ov, ded) (horas m) =
          (ov + spec_solape_ventanas (spec_intervalo ent sal <$> ventanas) m,
           ded + spec_no_solapado (spec_intervalo ent sal <$> ventanas) m)) as ->.
  { unfold descontar, spec_no_solapado.
    pose proof (descontar_ov_spec ventanas m 0 Hv Hm) as Hov.
    unfold horas in Hov |- *. cbn [fst snd] in Hov |- *.
    rewrite Hov. destruct Hm as (H1 & H2 & H3).
    rewrite (minutos_entre_horas ent sal Hent Hsal) by lia.
    rewrite Z.add_0_l. done. }
  rewrite IH, !fmap_cons. simpl sumZ. f_equal; lia.
Qed.

(** The block under [if no_laborado_extra:] computes what the specification
    describes on the timeline. *)
Lemma bloque_spec ventanas l :
  Forall (fun v : time * time => wf_time v.1 /\ wf_time v.2) ventanas ->
  Forall wf_no_laborado l ->
  let vs := spec_intervalo ent sal <$> ventanas in
  let merged := spec_merged ent sal l in
  no_laborado_bloque ent sal ventanas (Some l) =
  (sumZ (spec_no_solapado vs <$> merged),
   sumZ (spec_solape_ventanas vs <$> merged),
   spec_solape_interno (spec_ordenados ent sal (spec_recortados ent sal (spec_efectivos sal l))),
   spec_ignorados ent sal (spec_efectivos sal l)).
Proof.
  intros Hv Hl. cbv zeta. rewrite no_laborado_bloque_Some.
  rewrite (recortar_spec ent sal Hent Hsal l [] 0 Hl). rewrite app_nil_l, Z.add_0_l.
  cbv beta iota zeta.
  pose proof (spec_recortados_en_ventana ent sal (spec_efectivos sal l)) as Hrec.
  rewrite (ordenar_spec ent sal Hent Hsal) by done.
  assert (Forall (en_ventana (spec_jornada ent sal))
            (spec_ordenados ent sal (spec_recortados ent sal (spec_efectivos sal l))))
    as Hord.
  { eapply Permutation_Forall; [symmetry; apply sorted_perm|done]. }
  rewrite (fusionar_todo_spec ent sal Hent Hsal) by done.
  cbv beta iota zeta.
  rewrite (descontar_spec ventanas) by (done || by apply spec_fusionados_en_ventana).
  cbv beta iota zeta. rewrite !Z.add_0_l. done.
Qed.
End refinement_deduction.

(** * The no-labor exceptions *)

Lemma omap_fmap_fusion {A B C} (f : B -> option C) (g : A -> B) (l : list A) :
  omap f (g <$> l) = omap (fun x => f (g x)) l.
Proof.
  induction l as [|x l IH]; [done|].
  rewrite fmap_cons.
  change (omap f (g x :: (g <$> l)))
    with (match f (g x) with Some y => y :: omap f (g <$> l) | None => omap f (g <$> l) end).
  change (omap (fun x => f (g x)) (x :: l))
    with (match f (g x) with
          | Some y => y :: omap (fun x => f (g x)) l
          | None => omap (fun x => f (g x)) l
          end).
  by rewrite IH.
Qed.

(** On a shift that crosses midnight every time earlier than Entry is the
    following day on both timelines: the step as the specification words it
    and the step of the amended statement differ by the floor only. *)
Lemma spec_literal_nocturno ent sal ventanas l :
  spec_minuto sal < spec_minuto ent ->
  spec_literal ent sal ventanas l =
  (let vs := spec_intervalo ent sal <$> ventanas in
   let merged := spec_merged ent sal l in
   (sumZ (spec_duracion_menos_solape vs <$> merged),
    sumZ (spec_solape_ventanas vs <$> merged),
    spec_solape_interno
      (spec_ordenados ent sal (spec_recortados ent sal (spec_efectivos sal l))),
    spec_ignorados ent sal (spec_efectivos sal l))).
Proof.
  intros Hcruza.
  assert (forall t, spec_linea_literal ent t = spec_linea ent sal t) as Hlin.
  { intros t. unfold spec_linea, spec_linea_literal.
    destruct (Z.ltb_spec (spec_minuto sal) (spec_minuto ent)); [done|lia]. }
  assert (forall x : time * time,
            (spec_linea_literal ent x.1,
             if spec_linea_literal ent x.2 <? spec_linea_literal ent x.1
             then spec_linea_literal ent x.2 + 1440 else spec_linea_literal ent x.2)
            = spec_intervalo ent sal x) as Hint.
  { intros x. unfold spec_intervalo. by rewrite !Hlin. }
  unfold spec_literal. cbv zeta.
  rewrite !(list_fmap_ext _ (spec_intervalo ent sal) _ (fun _ x _ => Hint x)).
  rewrite (Hint (ent, sal)). fold (spec_jornada ent sal).
  unfold spec_merged, spec_ordenados, spec_recortados, spec_ignorados.
  rewrite omap_fmap_fusion.
  repeat f_equal.
  rewrite <- list_fmap_compose. apply list_fmap_ext. intros _ x _. simpl.
  unfold spec_ignorado, spec_dentro. cbv zeta.
  destruct (_ <=? _); simpl; lia.
Qed.

Lemma sumZ_duracion_menos_solape_le vs l :
  sumZ (spec_duracion_menos_solape vs <$> l) <= sumZ (spec_no_solapado vs <$> l).
Proof.
  induction l as [|m l IH]; [done|]. rewrite !fmap_cons. simpl sumZ.
  unfold spec_duracion_menos_solape at 1, spec_no_solapado at 1. lia.
Qed.

(** C1, as stated: the exceptions would be clipped on the timeline where any
    time earlier than Entry is the following day, and the no-labor deduction
    would be the sum over the merged intervals of duration minus overlap with
    the meal and dinner windows. The code departs from both.

    On the shift 09:00-17:00 an exception from 08:00 to 09:30 starts, on that
    timeline, at minute 1920 of the following day, after Exit: it is dropped
    whole, 90 minutes ignored and nothing deducted. The code keeps 08:00 on
    the day of Entry, trims the exception to 09:00-09:30, deducts 30 minutes
    and counts 60 as ignored.

    With the meal and the dinner both recorded from 12:00 to 14:00 and one
    exception from 12:00 to 15:00, the merged interval lasts 180 minutes and
    overlaps each of the two windows by 120: duration minus overlap is -60,
    and the code deducts 0. *)
Lemma no_labor_literal_differs :
  (let r := calcular_trabajado eventos_B AppConfig_default
              (Some no_laborado_antes_de_entrada) in
   let literal := spec_literal (Time 9 0) (Time 17 0)
                    (spec_ventanas_horas eventos_B AppConfig_default (Time 17 0))
                    no_laborado_antes_de_entrada in
   spec_linea_literal (Time 9 0) (Time 8 0) = 1920 /\
   literal = (0, 0, 0, 90) /\
   extra_ded r = 30 /\ ignored_outside_shift r = 60 /\
   extra_ded r <> literal.1.1.1 /\ ignored_outside_shift r <> literal.2) /\
  (let ev := eventos_ventanas_encimadas in
   let r := calcular_trabajado ev AppConfig_default (Some no_laborado_tres_horas) in
   let literal := spec_literal (Time 9 0) (Time 17 0)
                    (spec_ventanas_horas ev AppConfig_default (Time 17 0))
                    no_laborado_tres_horas in
   literal = (-60, 240, 0, 0) /\
   extra_ded r = 0 /\ nolab_overlap_cd r = 240 /\
   extra_ded r <> literal.1.1.1).
Proof. vm_compute. repeat split; discriminate. Qed.

(** C1, amended: with Entry and Exit present, [calcular_trabajado] skips an
    exception with absent start and replaces an absent end by Exit; places
    every time on the shift timeline at its minute of the day, one day later
    when the shift crosses midnight (Exit earlier than Entry) and the time is
    earlier than Entry, and an interval's end one day later again when it
    falls before its start; clips each interval to the shift window on that
    timeline, adding to the ignored-outside-shift counter the full duration
    of an interval wholly outside and the trimmed-off minutes of one partially
    outside; sorts the surviving intervals by offset from Entry and merges
    them when they overlap by more than 0 minutes or are back-to-back, the end
    extending to the later of the two ends and the overlapping minutes
    accumulating into the internal-overlap counter; and the no-labor deduction
    is the sum over the merged intervals of duration minus overlap with the
    recorded meal and dinner windows, each term floored at 0, that overlap
    accumulating into the meal/dinner-overlap counter. The timeline is the
    specification's ("any time earlier than Entry is the following day") on
    every shift that crosses midnight, and for every time not earlier than
    Entry; on a shift that crosses midnight the three counters are those of
    the step as the specification words it, and the deduction is at least
    that step's, the difference being the floor. *)
Theorem no_labor_exceptions eventos cfg l ent sal :
  wf_eventos eventos ->
  Forall wf_no_laborado l ->
  ev_get eventos "Entrada" = Some ent ->
  ev_get eventos "Salida" = Some sal ->
  let r := calcular_trabajado eventos cfg (Some l) in
  let efectivos := spec_efectivos sal l in
  let recortados := spec_recortados ent sal efectivos in
  let ordenados := spec_ordenados ent sal recortados in
  let merged := spec_fusionados ordenados in
  let ventanas := spec_ventanas eventos cfg ent sal in
  ignored_outside_shift r = spec_ignorados ent sal efectivos /\
  nolab_solape_interno r = spec_solape_interno ordenados /\
  nolab_overlap_cd r = sumZ (spec_solape_ventanas ventanas <$> merged) /\
  extra_ded r = sumZ (spec_no_solapado ventanas <$> merged) /\
  (forall t, spec_minuto sal < spec_minuto ent \/ spec_minuto ent <= spec_minuto t ->
             spec_linea ent sal t = spec_linea_literal ent t) /\
  (spec_minuto sal < spec_minuto ent ->
   let literal := spec_literal ent sal (spec_ventanas_horas eventos cfg sal) l in
   ignored_outside_shift r = literal.2 /\
   nolab_solape_interno r = literal.1.2 /\
   nolab_overlap_cd r = literal.1.1.2 /\
   literal.1.1.1 <= extra_ded r).
Proof.
  intros Hwf Hl Hent Hsal.
  destruct (calcular_trabajado_fields eventos cfg (Some l) ent sal Hent Hsal)
    as (_ & _ & He & Ho & Hs & Hi & _).
  cbv zeta. rewrite He, Ho, Hs, Hi.
  pose proof (wf_eventos_get _ _ _ Hwf Hsal) as Hws.
  pose proof (wf_spec_ventanas_horas eventos cfg sal Hwf Hws) as Hv.
  unfold spec_ventanas. rewrite spec_ventanas_horas_eq in *.
  rewrite (bloque_spec ent sal (wf_eventos_get _ _ _ Hwf Hent) Hws _ l Hv Hl).
  cbn [fst snd].
  split; [done|]. split; [done|]. split; [done|]. split; [done|]. split.
  - intros t Ht. unfold spec_linea, spec_linea_literal.
    destruct (Z.ltb_spec (spec_minuto sal) (spec_minuto ent));
      destruct (Z.ltb_spec (spec_minuto t) (spec_minuto ent)); simpl; lia.
  - intros Hcruza. rewrite spec_literal_nocturno by done. cbn [fst snd].
    split; [done|]. split; [done|]. split; [done|].
    apply sumZ_duracion_menos_solape_le.
Qed.

Lemma no_labor_exceptions_witness :
  (let r := calcular_trabajado eventos_B AppConfig_default
              (Some [(Some (Time 16 0), None, "salida"%string);
                     (None, Some (Time 10 0), "sin inicio"%string);
                     (Some (Time 8 0), Some (Time 9 30), "antes"%string);
                     (Some (Time 9 15), Some (Time 10 0), "visita"%string)]) in
   ignored_outside_shift r = 60 /\ nolab_solape_interno r = 15 /\
   nolab_overlap_cd r = 0 /\ extra_ded r = 120) /\
  (let r := calcular_trabajado eventos_nocturnos_comida AppConfig_default
              (Some no_laborado_nocturno) in
   let literal := spec_literal (Time 22 0) (Time 6 0)
                    (spec_ventanas_horas eventos_nocturnos_comida AppConfig_default
                       (Time 6 0))
                    no_laborado_nocturno in
   ignored_outside_shift r = literal.2 /\
   nolab_solape_interno r = literal.1.2 /\
   nolab_overlap_cd r = literal.1.1.2 /\
   literal.1.1.1 <= extra_ded r).
Proof.
  cbv zeta. split.
  - assert (wf_eventos eventos_B) as Hwf
      by (apply wf_eventos_dict; repeat constructor; simpl; lia).
    assert (Forall wf_no_laborado
              [(Some (Time 16 0), None, "salida"%string);
               (None, Some (Time 10 0), "sin inicio"%string);
               (Some (Time 8 0), Some (Time 9 30), "antes"%string);
               (Some (Time 9 15), Some (Time 10 0), "visita"%string)]) as Hl
      by (repeat constructor; simpl; lia).
    destruct (no_labor_exceptions eventos_B AppConfig_default _
                (Time 9 0) (Time 17 0) Hwf Hl eq_refl eq_refl)
      as (H1 & H2 & H3 & H4 & _).
    split; [etrans; [exact H1|]|split; [etrans; [exact H2|]|
      split; [etrans; [exact H3|]|etrans; [exact H4|]]]]; vm_compute; reflexivity.
  - assert (wf_eventos eventos_nocturnos_comida) as Hwf
      by (apply wf_eventos_dict; repeat constructor; simpl; lia).
    assert (Forall wf_no_laborado no_laborado_nocturno) as Hl
      by (repeat constructor; simpl; lia).
    destruct (no_labor_exceptions eventos_nocturnos_comida AppConfig_default _
                (Time 22 0) (Time 6 0) Hwf Hl eq_refl eq_refl)
      as (_ & _ & _ & _ & _ & H).
    apply H. reflexivity.
Defined.

(** * Intervals in a row: counting minutes *)

Lemma cadena_weaken lo lo' l : lo' <= lo -> cadena lo l -> cadena lo' l.
Proof.
  destruct l as [|m l]; simpl; [done|]. intros Hlo (H1 & H2 & H3).
  repeat split; [lia|done..].
Qed.

Lemma spec_solape_ventanas_cubierto vs a b :
  Forall (fun v : Z * Z => v.1 <= v.2) vs -> a <= b ->
  spec_solape_ventanas vs (a, b) = cubierto vs b - cubierto vs a.
Proof.
  intros Hvs Hab. unfold spec_solape_ventanas, cubierto.
  induction Hvs as [|v vs Hv _ IH]; [done|].
  rewrite !fmap_cons. simpl sumZ. rewrite IH.
  unfold spec_solape. cbn [fst snd]. lia.
Qed.

Lemma cadena_le lo vs : cadena lo vs -> Forall (fun v : Z * Z => v.1 <= v.2) vs.
Proof.
  revert lo. induction vs as [|v vs IH]; intros lo; simpl; [constructor|].
  intros (_ & Hv & Hc). constructor; [done|]. by eapply IH.
Qed.

(** Windows in a row cover no minute twice. *)
Lemma cubierto_cadena lo vs a b :
  cadena lo vs -> a <= b ->
  cubierto vs b - cubierto vs a <= Z.max 0 (b - Z.max a lo).
Proof.
  revert lo. unfold cubierto.
  induction vs as [|v vs IH]; intros lo Hc Hab; [simpl; lia|].
  rewrite !fmap_cons. simpl sumZ.
  destruct Hc as (H1 & H2 & Hc). specialize (IH _ Hc Hab). lia.
Qed.

Lemma cubierto_total s0 s1 vs :
  Forall (fun v : Z * Z => s0 <= v.1 /\ v.1 <= v.2 /\ v.2 <= s1) vs ->
  cubierto vs s1 - cubierto vs s0 = sumZ ((fun v : Z * Z => v.2 - v.1) <$> vs).
Proof.
  intros Hvs. unfold cubierto.
  induction Hvs as [|v vs Hv _ IH]; [done|].
  rewrite !fmap_cons. simpl sumZ. lia.
Qed.

(** The no-labor deduction of merged intervals in a row, against windows
    in a row: it fits in the minutes the windows leave free. *)
Lemma deduccion_cadena vs lo0 merged lo s1 :
  cadena lo0 vs -> cadena lo merged -> Forall (fun m : Z * Z => m.2 <= s1) merged ->
  lo <= s1 ->
  sumZ (spec_no_solapado vs <$> merged) <= (s1 - lo) - (cubierto vs s1 - cubierto vs lo).
Proof.
  intros Hvs Hm Hs1. revert lo Hm.
  pose proof (cadena_le _ _ Hvs) as Hle.
  induction Hs1 as [|m merged Hm2 _ IH]; intros lo Hm Hlo.
  - simpl. pose proof (cubierto_cadena lo0 vs lo s1 Hvs Hlo). lia.
  - destruct Hm as (H1 & H2 & Hm). rewrite fmap_cons. simpl sumZ.
    assert (m.2 <= s1 -> sumZ (spec_no_solapado vs <$> merged)
                         <= s1 - m.2 - (cubierto vs s1 - cubierto vs m.2)) as IH'.
    { intros ?. by apply IH. }
    unfold spec_no_solapado at 1.
    rewrite (surjective_pairing m) at 3.
    rewrite spec_solape_ventanas_cubierto by done.
    pose proof (cubierto_cadena lo0 vs m.1 m.2 Hvs H2).
    pose proof (cubierto_cadena lo0 vs lo m.1 Hvs H1).
    lia.
Qed.

(** * The merged intervals follow one another *)

Lemma spec_fusion_cadena cur rest :
  cur.1 <= cur.2 ->
  Forall (fun y : Z * Z => cur.1 <= y.1 /\ y.1 < y.2) rest ->
  StronglySorted (fun x y : Z * Z => x.1 <= y.1) rest ->
  cadena cur.1 (spec_fusion cur rest).
Proof.
  intros Hc Hr Hs. revert cur Hc Hr.
  induction Hs as [|x rest Hs IH Hx]; intros cur Hc Hr; simpl; [lia|].
  apply Forall_cons in Hr as [[Hx1 Hx2] Hr].
  destruct (spec_se_fusionan cur x) eqn:Hf.
  - apply (IH (cur.1, Z.max cur.2 x.2)); cbn [fst snd]; [lia|done].
  - simpl. split; [lia|]. split; [done|].
    apply (cadena_weaken x.1).
    + unfold spec_se_fusionan, spec_solape in Hf.
      apply orb_false_iff in Hf as [Hf1 Hf2].
      apply Z.ltb_ge in Hf1. apply Z.eqb_neq in Hf2. lia.
    + apply IH; [lia|].
      rewrite Forall_forall in Hx, Hr |- *. intros y Hy.
      split; [by apply Hx|by apply Hr].
Qed.

Lemma Sorted_weaken {A} (R R' : relation A) l :
  (forall x y, R x y -> R' x y) -> Sorted R l -> Sorted R' l.
Proof.
  intros HR. induction 1 as [|x l Hl IH Hhd]; constructor; [done|].
  destruct Hhd; constructor. by apply HR.
Qed.

Lemma spec_merged_cadena ent sal l :
  cadena (spec_jornada ent sal).1 (spec_merged ent sal l) /\
  Forall (fun m : Z * Z => m.2 <= (spec_jornada ent sal).2) (spec_merged ent sal l).
Proof.
  unfold spec_merged.
  set (rec := spec_recortados ent sal (spec_efectivos sal l)).
  pose proof (spec_recortados_en_ventana ent sal (spec_efectivos sal l)) as Hrec.
  fold rec in Hrec.
  assert (Forall (en_ventana (spec_jornada ent sal)) (spec_ordenados ent sal rec)) as Hord.
  { eapply Permutation_Forall; [symmetry; apply sorted_perm|done]. }
  split.
  - assert (StronglySorted (fun x y : Z * Z => x.1 <= y.1) (spec_ordenados ent sal rec))
      as Hs.
    { apply Sorted_StronglySorted; [intros ???; lia|].
      eapply Sorted_weaken; [|apply (sorted_Sorted (spec_offset_leb ent sal))].
      - intros x y. unfold le_of, spec_offset_leb. rewrite Z.leb_le. lia.
      - intros x y. unfold spec_offset_leb. rewrite !Z.leb_le. lia. }
    destruct (spec_ordenados ent sal rec) as [|x rest]; [done|]. simpl.
    apply StronglySorted_inv in Hs as [Hs Hx].
    apply Forall_cons in Hord as [(Hx1 & Hx2 & Hx3) Hord].
    apply (cadena_weaken x.1); [done|].
    apply spec_fusion_cadena; [lia| |done].
    rewrite Forall_forall in Hx, Hord |- *. intros y Hy.
    split; [by apply Hx|]. by destruct (Hord y Hy) as (_ & ? & _).
  - eapply Forall_impl; [by apply spec_fusionados_en_ventana|].
    by intros m (_ & _ & ?).
Qed.

(** * The meal and dinner windows of a chronological day *)

Lemma time_of_dt_mod x y : x mod 1440 = y mod 1440 -> time_of_dt x = time_of_dt y.
Proof.
  intros Hxy. apply datetime_of_inj; [apply wf_time_of_dt..|].
  by rewrite !datetime_of_time_of_dt.
Qed.

Section ventanas.
Variables (ent sal : time).
Hypothesis (Hent : wf_time ent) (Hsal : wf_time sal).

Lemma to_shift_offset t :
  wf_time t ->
  minutos_entre (Some ent) (Some t) <= minutos_entre (Some ent) (Some sal) ->
  _to_shift_dt ent sal t = datetime_of ent + minutos_entre (Some ent) (Some t).
Proof.
  intros Ht. rewrite to_shift_cases by done. unfold minutos_entre.
  pose proof (wf_datetime_of ent Hent). pose proof (wf_datetime_of sal Hsal).
  pose proof (wf_datetime_of t Ht).
  destruct (Z.ltb_spec (datetime_of sal) (datetime_of ent)); simpl; case_ltb; lia.
Qed.

Lemma minutos_entre_offsets a b :
  wf_time a -> wf_time b ->
  minutos_entre (Some ent) (Some a) <= minutos_entre (Some ent) (Some b) ->
  minutos_entre (Some a) (Some b)
  = minutos_entre (Some ent) (Some b) - minutos_entre (Some ent) (Some a).
Proof.
  intros Ha Hb. unfold minutos_entre.
  pose proof (wf_datetime_of ent Hent).
  pose proof (wf_datetime_of a Ha). pose proof (wf_datetime_of b Hb).
  case_ltb; lia.
Qed.

(** An interval of the day, given by its two times in order, sits on the
    timeline at its offsets from Entry. *)
Lemma spec_intervalo_offsets a b :
  wf_time a -> wf_time b ->
  minutos_entre (Some ent) (Some a) <= minutos_entre (Some ent) (Some b) ->
  minutos_entre (Some ent) (Some b) <= minutos_entre (Some ent) (Some sal) ->
  spec_intervalo ent sal (a, b)
  = (datetime_of ent + minutos_entre (Some ent) (Some a),
     datetime_of ent + minutos_entre (Some ent) (Some b)).
Proof.
  intros Ha Hb Hab Hbs. unfold spec_intervalo. cbv zeta. cbn [fst snd].
  rewrite !spec_linea_to_shift by done.
  rewrite !to_shift_offset by (done || lia).
  destruct (Z.ltb_spec (datetime_of ent + minutos_entre (Some ent) (Some b))
                       (datetime_of ent + minutos_entre (Some ent) (Some a))); [lia|done].
Qed.

(** The capped meal window: from the meal's start, [ded] minutes. *)
Lemma spec_intervalo_add a ded :
  wf_time a -> 0 <= ded ->
  minutos_entre (Some ent) (Some a) + ded <= minutos_entre (Some ent) (Some sal) ->
  spec_intervalo ent sal (a, time_of_dt (datetime_of a + ded))
  = (datetime_of ent + minutos_entre (Some ent) (Some a),
     datetime_of ent + minutos_entre (Some ent) (Some a) + ded).
Proof.
  intros Ha Hded Hle. unfold spec_intervalo. cbv zeta. cbn [fst snd].
  rewrite !spec_linea_to_shift by (done || apply wf_time_of_dt).
  pose proof (minutos_entre_bounds ent a Hent Ha) as Hoff.
  rewrite (to_shift_offset a) by (done || lia).
  set (p := datetime_of ent + minutos_entre (Some ent) (Some a)).
  assert (time_of_dt (datetime_of a + ded) = time_of_dt (p + ded)) as ->.
  { apply time_of_dt_mod. subst p. unfold minutos_entre.
    destruct (Z.ltb_spec (datetime_of a) (datetime_of ent)).
    - replace (datetime_of ent + (datetime_of a + 1440 - datetime_of ent) + ded)
        with (datetime_of a + ded + 1 * 1440) by lia.
      by rewrite Z.mod_add by lia.
    - f_equal. lia. }
  rewrite (to_shift_time_of_dt ent sal Hent Hsal).
  - destruct (Z.ltb_spec (p + ded) p); [lia|done].
  - rewrite spec_jornada_eq by done. cbn [fst snd]. subst p. lia.
Qed.
End ventanas.

Section ventanas_del_dia.
Variables (ent sal : time).
Hypothesis (Hent : wf_time ent) (Hsal : wf_time sal).

Lemma ventana_comida mo reg_com cfg :
  wf_time mo -> from_option wf_time True reg_com ->
  0 <= tope_descuento_comida_min cfg ->
  minutos_entre (Some ent) (Some mo)
    <= minutos_entre (Some ent) (Some (default sal reg_com)) ->
  minutos_entre (Some ent) (Some (default sal reg_com))
    <= minutos_entre (Some ent) (Some sal) ->
  let cm := comida (Some mo) reg_com sal cfg in
  exists fv,
    cm.2 = Some fv /\
    spec_intervalo ent sal (mo, fv)
    = (datetime_of ent + minutos_entre (Some ent) (Some mo),
       datetime_of ent + minutos_entre (Some ent) (Some mo) + cm.1) /\
    0 <= cm.1 /\
    minutos_entre (Some ent) (Some mo) + cm.1
      <= minutos_entre (Some ent) (Some (default sal reg_com)).
Proof.
  intros Hmo Hreg Htope H1 H2. cbv zeta. rewrite comida_Some. cbv zeta.
  assert (wf_time (default sal reg_com)) as Hme by by destruct reg_com.
  pose proof (minutos_entre_offsets ent Hent mo _ Hmo Hme H1) as Hdur.
  set (dur := minutos_entre (Some mo) (Some (default sal reg_com))) in *.
  destruct (Z.leb_spec dur (umbral_comida_media_hora_min cfg)); cbn [fst snd].
  - eexists. split; [done|]. split; [|lia].
    apply spec_intervalo_add; (done || lia).
  - eexists. split; [done|]. split; [|lia].
    rewrite spec_intervalo_offsets by done. f_equal. lia.
Qed.

Lemma ventana_cena dn reg_cen :
  wf_time dn -> from_option wf_time True reg_cen ->
  minutos_entre (Some ent) (Some dn)
    <= minutos_entre (Some ent) (Some (default sal reg_cen)) ->
  minutos_entre (Some ent) (Some (default sal reg_cen))
    <= minutos_entre (Some ent) (Some sal) ->
  spec_intervalo ent sal (dn, default sal reg_cen)
  = (datetime_of ent + minutos_entre (Some ent) (Some dn),
     datetime_of ent + minutos_entre (Some ent) (Some dn) + cena (Some dn) reg_cen sal) /\
  0 <= cena (Some dn) reg_cen sal /\
  minutos_entre (Some ent) (Some dn) + cena (Some dn) reg_cen sal
    = minutos_entre (Some ent) (Some (default sal reg_cen)).
Proof.
  intros Hdn Hreg H1 H2.
  assert (wf_time (default sal reg_cen)) as Hde by by destruct reg_cen.
  assert (cena (Some dn) reg_cen sal
          = minutos_entre (Some dn) (Some (default sal reg_cen))) as ->
    by by destruct reg_cen.
  rewrite (minutos_entre_offsets ent Hent dn _ Hdn Hde H1).
  rewrite spec_intervalo_offsets by done.
  split; [f_equal; lia|]. lia.
Qed.
End ventanas_del_dia.

(** On a chronological day the recorded windows follow one another inside
    the shift, and their lengths are the meal and dinner deductions. *)
Lemma ventanas_cronologico eventos cfg ent sal :
  wf_eventos eventos ->
  ev_get eventos "Entrada" = Some ent ->
  ev_get eventos "Salida" = Some sal ->
  cronologico eventos ->
  0 <= tope_descuento_comida_min cfg ->
  let vs := spec_ventanas eventos cfg ent sal in
  let s := spec_jornada ent sal in
  cadena s.1 vs /\
  Forall (fun v : Z * Z => s.1 <= v.1 /\ v.1 <= v.2 /\ v.2 <= s.2) vs /\
  sumZ ((fun v : Z * Z => v.2 - v.1) <$> vs)
  = (comida (ev_get eventos "Salida a comer") (ev_get eventos "Regreso de comer") sal cfg).1
    + cena (ev_get eventos "Salida a cenar") (ev_get eventos "Regreso de cenar") sal.
Proof.
  intros Hwf Hent Hsal Hcr Htope. cbv zeta.
  pose proof (wf_eventos_get _ _ _ Hwf Hent) as Hwe.
  pose proof (wf_eventos_get _ _ _ Hwf Hsal) as Hws.
  destruct (Hcr ent sal Hent Hsal) as (Hc1 & Hc2 & Hc3).
  rewrite spec_jornada_eq by done. cbn [fst snd].
  unfold spec_ventanas. rewrite spec_ventanas_horas_eq.
  pose proof (wf_eventos_slot eventos "Regreso de comer" Hwf) as Hwrc.
  pose proof (wf_eventos_slot eventos "Regreso de cenar" Hwf) as Hwrn.
  pose proof (minutos_entre_bounds ent sal Hwe Hws) as HT.
  destruct (ev_get eventos "Salida a comer") as [mo|] eqn:Hmo;
    destruct (ev_get eventos "Salida a cenar") as [dn|] eqn:Hdn.
  - destruct (Hc1 mo eq_refl) as [Hm1 Hm2]. destruct (Hc2 dn eq_refl) as [Hd1 Hd2].
    specialize (Hc3 mo dn eq_refl eq_refl).
    destruct (ventana_comida ent sal Hwe Hws mo _ cfg
                (wf_eventos_get _ _ _ Hwf Hmo) Hwrc Htope Hm1 Hm2)
      as (fv & Hfv & HM & Hcd0 & Hcd1).
    destruct (ventana_cena ent sal Hwe Hws dn _
                (wf_eventos_get _ _ _ Hwf Hdn) Hwrn Hd1 Hd2) as (HD & Hce0 & Hce1).
    pose proof (minutos_entre_bounds ent mo Hwe (wf_eventos_get _ _ _ Hwf Hmo)).
    rewrite Hfv. unfold ventanas_descuento. simpl app.
    rewrite !fmap_cons, fmap_nil.
    change (match ev_get eventos "Regreso de cenar" with Some r => r | None => sal end)
      with (default sal (ev_get eventos "Regreso de cenar")).
    rewrite HM, HD. simpl. repeat split; try lia.
    repeat constructor; cbn [fst snd]; lia.
  - destruct (Hc1 mo eq_refl) as [Hm1 Hm2].
    destruct (ventana_comida ent sal Hwe Hws mo _ cfg
                (wf_eventos_get _ _ _ Hwf Hmo) Hwrc Htope Hm1 Hm2)
      as (fv & Hfv & HM & Hcd0 & Hcd1).
    pose proof (minutos_entre_bounds ent mo Hwe (wf_eventos_get _ _ _ Hwf Hmo)).
    rewrite Hfv. unfold ventanas_descuento. simpl app.
    rewrite !fmap_cons, fmap_nil. rewrite HM. simpl.
    change (cena None (ev_get eventos "Regreso de cenar") sal) with 0.
    repeat split; try lia.
    repeat constructor; cbn [fst snd]; lia.
  - destruct (Hc2 dn eq_refl) as [Hd1 Hd2].
    destruct (ventana_cena ent sal Hwe Hws dn _
                (wf_eventos_get _ _ _ Hwf Hdn) Hwrn Hd1 Hd2) as (HD & Hce0 & Hce1).
    pose proof (minutos_entre_bounds ent dn Hwe (wf_eventos_get _ _ _ Hwf Hdn)).
    rewrite comida_None. unfold ventanas_descuento. simpl app.
    rewrite !fmap_cons, fmap_nil.
    change (match ev_get eventos "Regreso de cenar" with Some r => r | None => sal end)
      with (default sal (ev_get eventos "Regreso de cenar")).
    rewrite HD. simpl. repeat split; try lia.
    repeat constructor; cbn [fst snd]; lia.
  - rewrite comida_None. simpl.
    change (cena None (ev_get eventos "Regreso de cenar") sal) with 0.
    repeat split; first [by constructor | simpl; lia].
Qed.

(** * No over-deduction on a chronological day *)

Lemma deducciones_cronologico eventos cfg nl :
  wf_eventos eventos ->
  from_option (Forall wf_no_laborado) True nl ->
  0 <= tope_descuento_comida_min cfg ->
  cronologico eventos ->
  let r := calcular_trabajado eventos cfg nl in
  comida_ded r + cena_ded r + extra_ded r
  <= minutos_entre (ev_get eventos "Entrada") (ev_get eventos "Salida").
Proof.
  intros Hwf Hnl Htope Hcr. cbv zeta.
  destruct (ev_get eventos "Entrada") as [ent|] eqn:Hent;
    [|rewrite calcular_trabajado_cero by (by left); done].
  destruct (ev_get eventos "Salida") as [sal|] eqn:Hsal;
    [|rewrite calcular_trabajado_cero by (by right); done].
  pose proof (wf_eventos_get _ _ _ Hwf Hent) as Hwe.
  pose proof (wf_eventos_get _ _ _ Hwf Hsal) as Hws.
  assert (exists l, Forall wf_no_laborado l /\
            calcular_trabajado eventos cfg nl = calcular_trabajado eventos cfg (Some l))
    as (l & Hl & ->).
  { destruct nl as [l|]; [by exists l|]. exists []. split; [constructor|].
    by apply calcular_trabajado_bloque. }
  destruct (calcular_trabajado_fields eventos cfg (Some l) ent sal Hent Hsal)
    as (Hc & Hd & He & _).
  rewrite Hc, Hd, He.
  pose proof (wf_spec_ventanas_horas eventos cfg sal Hwf Hws) as Hv.
  rewrite spec_ventanas_horas_eq in Hv.
  rewrite (bloque_spec ent sal Hwe Hws _ l Hv Hl). cbn [fst snd].
  destruct (ventanas_cronologico eventos cfg ent sal Hwf Hent Hsal Hcr Htope)
    as (Hvc & Hvs & Hsum).
  rewrite <- spec_ventanas_horas_eq. fold (spec_ventanas eventos cfg ent sal).
  destruct (spec_merged_cadena ent sal l) as [Hmc Hms].
  pose proof (spec_jornada_bounds ent sal Hwe Hws) as Hb.
  pose proof (deduccion_cadena _ _ _ _ _ Hvc Hmc Hms ltac:(lia)) as Hded.
  rewrite (cubierto_total _ _ _ Hvs), Hsum in Hded.
  rewrite spec_jornada_eq in Hded by done. cbn [fst snd] in Hded. lia.
Qed.

(** A window more can only lower what is left to deduct, and an empty
    window changes nothing. *)
Lemma spec_solape_nonneg x y : 0 <= spec_solape x y.
Proof. unfold spec_solape. lia. Qed.

Lemma sumZ_no_solapado_cons w vs l :
  sumZ (spec_no_solapado (w :: vs) <$> l) <= sumZ (spec_no_solapado vs <$> l).
Proof.
  induction l as [|m l IH]; [done|]. rewrite !fmap_cons. simpl sumZ.
  assert (spec_no_solapado (w :: vs) m <= spec_no_solapado vs m); [|lia].
  unfold spec_no_solapado, spec_solape_ventanas. rewrite fmap_cons. simpl sumZ.
  pose proof (spec_solape_nonneg m w). lia.
Qed.

Lemma sumZ_no_solapado_vacia p vs l :
  sumZ (spec_no_solapado ((p, p) :: vs) <$> l) = sumZ (spec_no_solapado vs <$> l).
Proof.
  induction l as [|m l IH]; [done|]. rewrite !fmap_cons. simpl sumZ. rewrite IH.
  f_equal. unfold spec_no_solapado, spec_solape_ventanas. rewrite fmap_cons. simpl sumZ.
  unfold spec_solape at 1. cbn [fst snd]. lia.
Qed.

(** A negative meal cap only lowers the deductions: they are at most those
    under a cap of 0. *)
Lemma deducciones_tope_negativo eventos cfg l :
  wf_eventos eventos ->
  Forall wf_no_laborado l ->
  tope_descuento_comida_min cfg < 0 ->
  let cfg0 := {| umbral_extra_min := umbral_extra_min cfg;
                 redondeo_extra_step_min := redondeo_extra_step_min cfg;
                 redondeo_extra_modo := redondeo_extra_modo cfg;
                 tope_descuento_comida_min := 0;
                 umbral_comida_media_hora_min := umbral_comida_media_hora_min cfg |} in
  let r := calcular_trabajado eventos cfg (Some l) in
  let r0 := calcular_trabajado eventos cfg0 (Some l) in
  comida_ded r + cena_ded r + extra_ded r <= comida_ded r0 + cena_ded r0 + extra_ded r0.
Proof.
  intros Hwf Hl Htope. cbv zeta.
  set (cfg0 := {| umbral_extra_min := umbral_extra_min cfg;
                  redondeo_extra_step_min := redondeo_extra_step_min cfg;
                  redondeo_extra_modo := redondeo_extra_modo cfg;
                  tope_descuento_comida_min := 0;
                  umbral_comida_media_hora_min := umbral_comida_media_hora_min cfg |}).
  destruct (ev_get eventos "Entrada") as [ent|] eqn:Hent;
    [|rewrite !calcular_trabajado_cero by (by left); done].
  destruct (ev_get eventos "Salida") as [sal|] eqn:Hsal;
    [|rewrite !calcular_trabajado_cero by (by right); done].
  pose proof (wf_eventos_get _ _ _ Hwf Hent) as Hwe.
  pose proof (wf_eventos_get _ _ _ Hwf Hsal) as Hws.
  destruct (calcular_trabajado_fields eventos cfg (Some l) ent sal Hent Hsal)
    as (Hc & Hd & He & _).
  destruct (calcular_trabajado_fields eventos cfg0 (Some l) ent sal Hent Hsal)
    as (Hc0 & Hd0 & He0 & _).
  rewrite Hc, Hd, He, Hc0, Hd0, He0. clear Hc Hd He Hc0 Hd0 He0.
  pose proof (wf_spec_ventanas_horas eventos cfg sal Hwf Hws) as Hv.
  pose proof (wf_spec_ventanas_horas eventos cfg0 sal Hwf Hws) as Hv0.
  rewrite spec_ventanas_horas_eq in Hv, Hv0.
  rewrite (bloque_spec ent sal Hwe Hws _ l Hv Hl).
  rewrite (bloque_spec ent sal Hwe Hws _ l Hv0 Hl). cbn [fst snd].
  clear Hv Hv0.
  destruct (ev_get eventos "Salida a comer") as [mo|] eqn:Hmo; [|by rewrite !comida_None].
  pose proof (wf_eventos_get _ _ _ Hwf Hmo) as Hwm.
  rewrite !comida_Some. cbv zeta.
  assert (wf_time (default sal (ev_get eventos "Regreso de comer"))) as Hwf'.
  { pose proof (wf_eventos_slot eventos "Regreso de comer" Hwf) as H.
    by destruct (ev_get eventos "Regreso de comer"). }
  pose proof (minutos_entre_bounds mo _ Hwm Hwf') as Hdur.
  set (dur := minutos_entre (Some mo) (Some (default sal (ev_get eventos "Regreso de comer")))) in *.
  change (umbral_comida_media_hora_min cfg0) with (umbral_comida_media_hora_min cfg).
  change (tope_descuento_comida_min cfg0) with 0.
  destruct (Z.leb_spec dur (umbral_comida_media_hora_min cfg)); cbn [fst snd]; [|lia].
  rewrite (Z.min_r dur 0) by lia. rewrite Z.add_0_r, time_of_dt_datetime_of by done.
  unfold ventanas_descuento. cbn [app]. rewrite !fmap_cons.
  set (cenas := spec_intervalo ent sal <$> _).
  assert (spec_intervalo ent sal (mo, mo)
          = (spec_linea ent sal mo, spec_linea ent sal mo)) as ->.
  { unfold spec_intervalo. cbn [fst snd]. by rewrite Z.ltb_irrefl. }
  rewrite sumZ_no_solapado_vacia.
  pose proof (sumZ_no_solapado_cons
                (spec_intervalo ent sal
                   (mo, time_of_dt (datetime_of mo
                                    + Z.min dur (tope_descuento_comida_min cfg))))
                cenas (spec_merged ent sal l)).
  lia.
Qed.

(** On a chronological day the deductions fit in the span, whatever the
    configuration. *)
Lemma deducciones_en_orden eventos cfg nl :
  wf_eventos eventos ->
  from_option (Forall wf_no_laborado) True nl ->
  cronologico eventos ->
  let r := calcular_trabajado eventos cfg nl in
  comida_ded r + cena_ded r + extra_ded r
  <= minutos_entre (ev_get eventos "Entrada") (ev_get eventos "Salida").
Proof.
  intros Hwf Hnl Hcr. cbv zeta.
  destruct (Z.le_gt_cases 0 (tope_descuento_comida_min cfg)) as [Htope|Htope].
  { by apply deducciones_cronologico. }
  assert (exists l, Forall wf_no_laborado l /\
            forall c, calcular_trabajado eventos c nl = calcular_trabajado eventos c (Some l))
    as (l & Hl & Heq).
  { destruct nl as [l|]; [by exists l|]. exists []. split; [constructor|].
    intros c. by apply calcular_trabajado_bloque. }
  rewrite Heq.
  etrans; [by apply deducciones_tope_negativo|].
  apply (deducciones_cronologico eventos _ (Some l)); done.
Qed.

(** * A normalized punch list gives a chronological day *)

Lemma StronglySorted_lookup_le (l : list Z) i j x y :
  StronglySorted Z.le l -> (i <= j)%nat -> l !! i = Some x -> l !! j = Some y -> x <= y.
Proof.
  intros Hs. revert i j. induction Hs as [|z l Hs IH Hz]; intros i j Hij Hi Hj; [done|].
  destruct i as [|i], j as [|j]; simpl in *; try lia.
  - simplify_eq. lia.
  - simplify_eq. rewrite Forall_forall in Hz. apply Hz.
    by eapply list_elem_of_lookup_2.
  - apply (IH i j); [lia|done..].
Qed.

(** Measured from its first punch, a normalized list is in order. *)
Lemma normalized_offsets times p0 rest :
  Forall wf_time times ->
  (normalize_registro_times times).1 = p0 :: rest ->
  StronglySorted Z.le
    ((fun t => minutos_entre (Some p0) (Some t)) <$> (normalize_registro_times times).1).
Proof.
  intros Hwf Hout.
  destruct (Nat.lt_ge_cases (length times) 2) as [Hlen|Hlen].
  { rewrite normalize_short in Hout |- * by done. simpl in *. subst times.
    destruct rest; [|simpl in Hlen; lia]. repeat constructor. }
  rewrite normalize_long in Hout |- * by done. cbn [fst] in *.
  pose proof (normalized_adj_Sorted times Hwf) as Hs. cbv zeta in Hs.
  assert (Forall wf_time (sorted key_leb (adjusted times)).*2) as Hwo.
  { eapply Permutation_Forall; [|exact Hwf].
    symmetry. rewrite (sorted_perm key_leb (adjusted times)). by rewrite adjusted_snd. }
  rewrite Hout in Hs, Hwo |- *.
  change (hd 0 (min_of_day <$> p0 :: rest)) with (min_of_day p0) in Hs.
  set (w := wrap_likely (min_of_day <$> p0 :: rest)) in *.
  apply Sorted_StronglySorted; [intros ???; lia|].
  assert (Forall (fun t => minutos_entre (Some p0) (Some t)
                           = adj_of w (min_of_day p0) (min_of_day t) - min_of_day p0)
                 (p0 :: rest)) as Hoff.
  { destruct w eqn:Hw.
    - apply Forall_forall. intros t _. unfold minutos_entre, adj_of, datetime_of, min_of_day.
      simpl. case_ltb; lia.
    - apply Sorted_StronglySorted in Hs; [|intros ???; lia].
      rewrite fmap_cons in Hs. apply StronglySorted_inv in Hs as [_ Hhd].
      rewrite Forall_fmap in Hhd.
      constructor.
      + unfold minutos_entre, adj_of, datetime_of, min_of_day. simpl. case_ltb; lia.
      + eapply Forall_impl; [exact Hhd|]. intros t Ht. simpl in Ht.
        rewrite !adj_of_false in Ht. rewrite ?adj_of_false.
        unfold minutos_entre, datetime_of, min_of_day in *. case_ltb; lia. }
  apply Forall_fmap_ext_1 in Hoff. rewrite Hoff.
  rewrite (list_fmap_compose (fun t => adj_of w (min_of_day p0) (min_of_day t))
                             (fun z => z - min_of_day p0)).
  eapply Sorted_fmap; [|exact Hs]. intros x y. simpl. lia.
Qed.

Lemma map_eventos_slots times :
  let n := length times in
  let ev := map_eventos times in
  ev_get ev "Entrada" = times !! 0%nat /\
  ev_get ev "Salida" = (if (2 <=? n)%nat then last times else None) /\
  ev_get ev "Salida a comer" = (if (3 <=? n)%nat then times !! 1%nat else None) /\
  ev_get ev "Regreso de comer" = (if (4 <=? n)%nat then times !! 2%nat else None) /\
  ev_get ev "Salida a cenar" = (if (5 <=? n)%nat then times !! 3%nat else None) /\
  ev_get ev "Regreso de cenar" = (if (6 <=? n)%nat then times !! 4%nat else None).
Proof.
  assert (forall (d : time) l, l <> [] -> Some (List.last l d) = last l) as Hlast.
  { intros d l. induction l as [|x [|y l] IH]; intros Hne; [done|done|].
    rewrite last_cons_cons. rewrite <- IH by done. done. }
  destruct times as [|t0 [|t1 [|t2 [|t3 [|t4 [|t5 rest]]]]]].
  1-6: vm_compute; done.
  cbv zeta. rewrite <- (Hlast t0) by done.
  repeat split; reflexivity.
Qed.

Lemma wf_eventos_empty : wf_eventos ∅.
Proof. intros k t Hk. by rewrite lookup_empty in Hk. Qed.

Lemma wf_eventos_insert (m : gmap string pyval) k v :
  wf_eventos m -> (forall t, v = PyTime t -> wf_time t) -> wf_eventos (<[k:=v]> m).
Proof.
  intros Hm Hv k' t Hk. destruct (decide (k = k')) as [->|Hne].
  - rewrite lookup_insert_eq in Hk. injection Hk as ->. by apply Hv.
  - rewrite lookup_insert_ne in Hk by done. by eapply Hm.
Qed.

Lemma wf_eventos_fold (pairs : list (string * time)) (m : gmap string pyval) :
  Forall (fun lt => wf_time lt.2) pairs -> wf_eventos m ->
  wf_eventos (fold_left (fun o lt => <[lt.1 := PyTime lt.2]> o) pairs m).
Proof.
  intros Hp. revert m. induction Hp as [|lt pairs Hlt _ IH]; intros m Hm; [done|].
  simpl. apply IH, wf_eventos_insert; [done|]. by intros t [= <-].
Qed.

Lemma Forall_zip_snd {A B} (P : B -> Prop) (l1 : list A) (l2 : list B) :
  Forall P l2 -> Forall (fun x => P x.2) (zip l1 l2).
Proof.
  intros Hl2. revert l1. induction Hl2 as [|y l2 Hy _ IH]; intros [|x l1]; simpl;
    try constructor; [done|apply IH].
Qed.

Lemma wf_last (d : time) l : wf_time d -> Forall wf_time l -> wf_time (List.last l d).
Proof.
  intros Hd Hl. induction Hl as [|x l Hx Hl IH]; [done|].
  simpl. destruct l; [done|]. apply IH.
Qed.

Lemma Forall_removelast {A} (P : A -> Prop) l : Forall P l -> Forall P (removelast l).
Proof.
  induction 1 as [|x l Hx Hl IH]; [constructor|].
  simpl. destruct l; [constructor|]. by constructor.
Qed.

Lemma wf_middle_of times : Forall wf_time times -> Forall wf_time (middle_of times).
Proof.
  intros Hwf. unfold middle_of. apply Forall_removelast.
  destruct Hwf; [constructor|done].
Qed.

Lemma wf_map_eventos times : Forall wf_time times -> wf_eventos (map_eventos times).
Proof.
  intros Hwf. unfold map_eventos. cbv zeta.
  assert (wf_eventos
            (<["_extra_registros"%string := PyInt (Z.max 0 (Z.of_nat (length times) - 6))]>
               (list_to_map ((fun k => (k, PyNone)) <$> labels)))) as Hbase.
  { apply wf_eventos_insert; [|done]. simpl.
    repeat (apply wf_eventos_insert; [|done]). apply wf_eventos_empty. }
  destruct times as [|t0 [|t1 rest]]; [done| |].
  - apply wf_eventos_insert; [done|]. intros t [= <-]. by apply Forall_cons in Hwf as [? _].
  - apply wf_eventos_fold.
    + apply Forall_zip_snd, Forall_take, wf_middle_of. done.
    + pose proof Hwf as Hwf'. apply Forall_cons in Hwf' as [H0 _].
      apply wf_eventos_insert; [apply wf_eventos_insert; [done|]|].
      * by intros t [= <-].
      * intros t Heq.
        replace t with (List.last (t0 :: t1 :: rest) t0) by congruence.
        by apply wf_last.
Qed.

Lemma map_eventos_cronologico out p0 rest :
  out = p0 :: rest ->
  StronglySorted Z.le ((fun t => minutos_entre (Some p0) (Some t)) <$> out) ->
  cronologico (map_eventos out).
Proof.
  intros Hout Hs ent sal Hent Hsal.
  destruct (map_eventos_slots out) as (H0 & Hn & H1 & H2 & H3 & H4).
  cbv zeta in *. rewrite H1, H2, H3, H4. clear H1 H2 H3 H4.
  rewrite Hent in H0. rewrite Hsal in Hn.
  assert (ent = p0) as -> by (rewrite Hout in H0; simpl in H0; congruence).
  destruct (Nat.leb_spec 2 (length out)) as [Hlen|]; [|done].
  rewrite last_lookup in Hn. symmetry in Hn.
  assert (forall i j a b, (i <= j)%nat -> out !! i = Some a -> out !! j = Some b ->
            minutos_entre (Some p0) (Some a) <= minutos_entre (Some p0) (Some b)) as Hle.
  { intros i j a b Hij Ha Hb.
    apply (StronglySorted_lookup_le _ i j _ _ Hs Hij); rewrite list_lookup_fmap.
    - by rewrite Ha.
    - by rewrite Hb. }
  assert (forall i, (i < length out)%nat -> exists a, out !! i = Some a) as Hex.
  { intros i Hi. by apply lookup_lt_is_Some_2. }
  split; [|split].
  - intros sc Hsc. destruct (Nat.leb_spec 3 (length out)); [|done].
    destruct (Nat.leb_spec 4 (length out)).
    + destruct (Hex 2%nat ltac:(lia)) as [c Hc]. rewrite Hc. simpl. split.
      * apply (Hle 1%nat 2%nat); [lia|done..].
      * apply (Hle 2%nat (pred (length out))); [lia|done..].
    + simpl. split; [|lia]. apply (Hle 1%nat (pred (length out))); [lia|done..].
  - intros sc Hsc. destruct (Nat.leb_spec 5 (length out)); [|done].
    destruct (Nat.leb_spec 6 (length out)).
    + destruct (Hex 4%nat ltac:(lia)) as [c Hc]. rewrite Hc. simpl. split.
      * apply (Hle 3%nat 4%nat); [lia|done..].
      * apply (Hle 4%nat (pred (length out))); [lia|done..].
    + simpl. split; [|lia]. apply (Hle 3%nat (pred (length out))); [lia|done..].
  - intros sc sn Hsc Hsn. destruct (Nat.leb_spec 5 (length out)); [|done].
    destruct (Nat.leb_spec 3 (length out)); [|done].
    destruct (Nat.leb_spec 4 (length out)); [|lia].
    destruct (Hex 2%nat ltac:(lia)) as [c Hc]. rewrite Hc. simpl.
    apply (Hle 2%nat 3%nat); [lia|done..].
Qed.

(** The events that [map_eventos] builds from a normalized punch list are in
    chronological order. *)
Lemma normalized_cronologico times :
  Forall wf_time times ->
  cronologico (map_eventos (normalize_registro_times times).1).
Proof.
  intros Hwf.
  destruct (normalize_registro_times times).1 as [|p0 rest] eqn:Hout.
  - intros ent sal Hent. by vm_compute in Hent.
  - rewrite <- Hout. eapply (map_eventos_cronologico _ p0 rest); [done|].
    by apply normalized_offsets with rest.
Qed.

(** * The deductions against the span *)

(** C5, as stated: the three deductions would never add up to more than the
    span between Entry and Exit; with the meal and the dinner both recorded
    from 10:00 to 16:00 in a shift from 09:00 to 17:00, each is deducted in
    full and they add up to 720 minutes of a span of 480. *)
Lemma deductions_exceed_span :
  let r := calcular_trabajado eventos_doble_descuento AppConfig_default None in
  minutos_entre (ev_get eventos_doble_descuento "Entrada")
                (ev_get eventos_doble_descuento "Salida") = 480 /\
  comida_ded r = 360 /\ cena_ded r = 360 /\ extra_ded r = 0 /\ trabajado r = 0 /\
  ~ (comida_ded r + cena_ded r + extra_ded r
     <= minutos_entre (ev_get eventos_doble_descuento "Entrada")
                      (ev_get eventos_doble_descuento "Salida")).
Proof. vm_compute. repeat split; try discriminate. intros H. by apply H. Qed.

(** C5, amended: for every events map in chronological order (measured from
    Entry: meal start <= meal end <= dinner start <= dinner end <= Exit, a
    missing return counting as Exit), every configuration and every exception
    list, the meal, dinner and no-labor deductions add up to at most the span
    between Entry and Exit. The events that [map_eventos] builds from the
    output of [normalize_registro_times] are always in that order, so the
    bound holds for every punch list that goes through normalization. *)
Theorem no_over_deduction :
  (forall eventos cfg nl,
     wf_eventos eventos ->
     from_option (Forall wf_no_laborado) True nl ->
     cronologico eventos ->
     let r := calcular_trabajado eventos cfg nl in
     comida_ded r + cena_ded r + extra_ded r
     <= minutos_entre (ev_get eventos "Entrada") (ev_get eventos "Salida")) /\
  (forall times,
     Forall wf_time times ->
     cronologico (map_eventos (normalize_registro_times times).1)) /\
  (forall times cfg nl,
     Forall wf_time times ->
     from_option (Forall wf_no_laborado) True nl ->
     let eventos := map_eventos (normalize_registro_times times).1 in
     let r := calcular_trabajado eventos cfg nl in
     comida_ded r + cena_ded r + extra_ded r
     <= minutos_entre (ev_get eventos "Entrada") (ev_get eventos "Salida")).
Proof.
  split; [apply deducciones_en_orden|]. split; [apply normalized_cronologico|].
  intros times cfg nl Hwf Hnl. cbv zeta.
  apply deducciones_en_orden; [|done|by apply normalized_cronologico].
  apply wf_map_eventos.
  eapply Permutation_Forall; [symmetry; apply normalize_out_perm|done].
Qed.

Lemma no_over_deduction_witness :
  (let eventos := map_eventos (normalize_registro_times punches_nocturnos).1 in
   let r := calcular_trabajado eventos AppConfig_default (Some no_laborado_nocturno) in
   comida_ded r + cena_ded r + extra_ded r
   <= minutos_entre (ev_get eventos "Entrada") (ev_get eventos "Salida")) /\
  (let eventos := map_eventos (normalize_registro_times punches_nocturnos).1 in
   let r := calcular_trabajado eventos cfg_tope_negativo (Some no_laborado_nocturno) in
   comida_ded r + cena_ded r + extra_ded r
   <= minutos_entre (ev_get eventos "Entrada") (ev_get eventos "Salida")).
Proof.
  assert (Forall wf_time punches_nocturnos) as Hp
    by (repeat constructor; simpl; lia).
  assert (Forall wf_no_laborado no_laborado_nocturno) as Hl
    by (repeat constructor; simpl; lia).
  split.
  - exact (proj2 (proj2 no_over_deduction) punches_nocturnos AppConfig_default
             (Some no_laborado_nocturno) Hp Hl).
  - exact (proj2 (proj2 no_over_deduction) punches_nocturnos cfg_tope_negativo
             (Some no_laborado_nocturno) Hp Hl).
Defined.

(** * round_minutes *)

Lemma round_minutes_cases v step mode :
  1 < step ->
  let w := Z.max 0 v in
  round_minutes v step mode =
  if String.eqb mode "up" then ((w + step - 1) / step) * step
  else if String.eqb mode "down" then (w / step) * step
  else if step - (w - (w / step) * step) <=? w - (w / step) * step
       then (w / step) * step + step else (w / step) * step.
Proof.
  intros Hstep. unfold round_minutes. destruct (Z.leb_spec step 1); [lia|].
  cbv zeta. repeat case_match; try done.
  all: match goal with
       | H1 : (?a <=? ?b) = _, H2 : (?c <=? ?d) = _ |- _ =>
           replace a with c in H1 by lia; replace b with d in H1 by lia; congruence
       end.
Qed.

(** With a step above 1 the result is a non-negative multiple of the step,
    less than one step away from the clamped value. *)
Lemma round_minutes_grid v step mode :
  1 < step ->
  0 <= round_minutes v step mode /\ (step | round_minutes v step mode) /\
  Z.max 0 v - step < round_minutes v step mode < Z.max 0 v + step.
Proof.
  intros Hstep. rewrite round_minutes_cases by done. cbv zeta.
  set (w := Z.max 0 v). assert (0 <= w) as Hw by lia.
  pose proof (Z.div_mod w step ltac:(lia)) as Hd.
  pose proof (Z.mod_pos_bound w step ltac:(lia)) as Hm.
  pose proof (Z.div_mod (w + step - 1) step ltac:(lia)) as Hd'.
  pose proof (Z.mod_pos_bound (w + step - 1) step ltac:(lia)) as Hm'.
  assert (0 <= w / step) by (apply Z.div_pos; lia).
  assert (0 <= (w + step - 1) / step) by (apply Z.div_pos; lia).
  set (q := w / step) in *. set (q' := (w + step - 1) / step) in *.
  assert (0 <= q * step) by (apply Z.mul_nonneg_nonneg; lia).
  assert (0 <= q' * step) by (apply Z.mul_nonneg_nonneg; lia).
  destruct (String.eqb mode "up").
  { repeat split; try lia. by exists q'. }
  destruct (String.eqb mode "down").
  { repeat split; try lia. by exists q. }
  destruct (Z.leb_spec (step - (w - q * step)) (w - q * step)).
  - repeat split; try lia. exists (q + 1). lia.
  - repeat split; try lia. by exists q.
Qed.

(** X1: with a step above 1, [round_minutes] returns a non-negative multiple
    of the step; mode "up" never goes below the (clamped) value and stays
    within one step above it, mode "down" never goes above it and stays
    within one step below it, and any other mode lands within half a step,
    a tie going up. *)
Theorem round_minutes_spec v step mode :
  1 < step ->
  let w := Z.max 0 v in
  let r := round_minutes v step mode in
  0 <= r /\ (step | r) /\
  (mode = "up"%string -> w <= r < w + step) /\
  (mode = "down"%string -> w - step < r <= w) /\
  (mode <> "up"%string -> mode <> "down"%string -> - step < 2 * (r - w) <= step).
Proof.
  intros Hstep w r. subst r. rewrite round_minutes_cases by done. fold w.
  assert (0 <= w) as Hw by lia.
  pose proof (Z.div_mod w step ltac:(lia)) as Hd.
  pose proof (Z.mod_pos_bound w step ltac:(lia)) as Hm.
  pose proof (Z.div_mod (w + step - 1) step ltac:(lia)) as Hd'.
  pose proof (Z.mod_pos_bound (w + step - 1) step ltac:(lia)) as Hm'.
  assert (0 <= w / step) by (apply Z.div_pos; lia).
  assert (0 <= (w + step - 1) / step) by (apply Z.div_pos; lia).
  set (q := w / step) in *. set (q' := (w + step - 1) / step) in *.
  assert (0 <= q * step) by (apply Z.mul_nonneg_nonneg; lia).
  assert (0 <= q' * step) by (apply Z.mul_nonneg_nonneg; lia).
  destruct (String.eqb_spec mode "up") as [->|Hup].
  { repeat split; try lia; try done. by exists q'. }
  destruct (String.eqb_spec mode "down") as [->|Hdown].
  { repeat split; try lia; try done. by exists q. }
  destruct (Z.leb_spec (step - (w - q * step)) (w - q * step)).
  - repeat split; try lia; try done. exists (q + 1). lia.
  - repeat split; try lia; try done. by exists q.
Qed.

Lemma round_minutes_spec_witness :
  round_minutes 7 15 "up" = 15 /\ round_minutes 7 15 "down" = 0 /\
  - 15 < 2 * (round_minutes 7 15 "nearest" - 7) <= 15.
Proof.
  pose proof (round_minutes_spec 7 15 "nearest" ltac:(lia)) as (_ & _ & _ & _ & H).
  repeat split; [apply H; discriminate..].
Defined.

(** X2: [round_minutes] is monotone in the value, for every step and mode: a
    larger value never rounds to less. *)
Theorem round_minutes_mono v v' step mode :
  v <= v' -> round_minutes v step mode <= round_minutes v' step mode.
Proof.
  intros Hv. destruct (Z.leb_spec step 1) as [Hs|Hs].
  { unfold round_minutes. destruct (Z.leb_spec step 1); lia. }
  rewrite !round_minutes_cases by done. cbv zeta.
  set (w := Z.max 0 v). set (w' := Z.max 0 v').
  assert (0 <= w <= w') as Hw by lia.
  assert (w / step <= w' / step) as Hq by (apply Z.div_le_mono; lia).
  assert ((w + step - 1) / step <= (w' + step - 1) / step) as Hq'
    by (apply Z.div_le_mono; lia).
  pose proof (Z.div_mod w step ltac:(lia)) as Hd.
  pose proof (Z.mod_pos_bound w step ltac:(lia)) as Hm.
  pose proof (Z.div_mod w' step ltac:(lia)) as Hd'.
  pose proof (Z.mod_pos_bound w' step ltac:(lia)) as Hm'.
  set (q := w / step) in *. set (q' := w' / step) in *.
  destruct (String.eqb mode "up"); [apply Z.mul_le_mono_nonneg_r; lia|].
  destruct (String.eqb mode "down"); [apply Z.mul_le_mono_nonneg_r; lia|].
  assert (q * step <= q' * step) by (apply Z.mul_le_mono_nonneg_r; lia).
  destruct (Z.eq_dec q q') as [Heq|Hne].
  - rewrite <- Heq in *. case_ltb; lia.
  - assert (q * step + step <= q' * step) by nia. case_ltb; lia.
Qed.

Lemma round_minutes_mono_witness :
  round_minutes 7 15 "nearest" <= round_minutes 8 15 "nearest".
Proof. apply round_minutes_mono. lia. Defined.

(** X3: rounding is idempotent: rounding an already rounded value with the
    same step and mode returns it unchanged. *)
Theorem round_minutes_idempotent v step mode :
  round_minutes (round_minutes v step mode) step mode = round_minutes v step mode.
Proof.
  destruct (Z.leb_spec step 1) as [Hs|Hs].
  { unfold round_minutes. destruct (Z.leb_spec step 1); lia. }
  destruct (round_minutes_grid v step mode Hs) as (H0 & [k Hk] & _).
  set (r := round_minutes v step mode) in *.
  rewrite (round_minutes_cases r) by done. cbv zeta.
  rewrite Z.max_r by done. rewrite Hk.
  rewrite Z.div_mul by lia.
  replace (k * step + step - 1) with (step - 1 + k * step) by lia.
  rewrite Z.div_add by lia. rewrite (Z.div_small (step - 1)) by lia.
  destruct (String.eqb mode "up"); [lia|].
  destruct (String.eqb mode "down"); [lia|].
  case_ltb; lia.
Qed.
(** * Overtime against worked minutes *)

(** What rounding can add: less than one step upwards, at most half a step
    to the nearest multiple, nothing downwards; and 0 stays 0. *)
Lemma round_minutes_techo v step mode :
  1 < step -> 0 <= v ->
  round_minutes v step mode
  <= v + (if String.eqb mode "up" then step - 1
          else if String.eqb mode "down" then 0 else step / 2) /\
  (v = 0 -> round_minutes v step mode = 0).
Proof.
  intros Hstep Hv. rewrite round_minutes_cases by done. cbv zeta.
  rewrite Z.max_r by done.
  pose proof (Z.div_mod v step ltac:(lia)) as Hd.
  pose proof (Z.mod_pos_bound v step ltac:(lia)) as Hm.
  pose proof (Z.div_mod (v + step - 1) step ltac:(lia)) as Hd'.
  pose proof (Z.mod_pos_bound (v + step - 1) step ltac:(lia)) as Hm'.
  pose proof (Z.div_mod step 2 ltac:(lia)) as Hh.
  pose proof (Z.mod_pos_bound step 2 ltac:(lia)) as Hhm.
  assert (v = 0 -> v / step = 0) as Hq0 by (intros ->; apply Z.div_0_l; lia).
  assert (v = 0 -> (v + step - 1) / step = 0) as Hq0'
    by (intros ->; apply Z.div_small; lia).
  destruct (String.eqb mode "up").
  { split; [lia|]. intros H0. rewrite (Hq0' H0). lia. }
  destruct (String.eqb mode "down").
  { split; [lia|]. intros H0. rewrite (Hq0 H0). lia. }
  destruct (Z.leb_spec (step - (v - v / step * step)) (v - v / step * step)).
  - split; [lia|]. intros H0. specialize (Hq0 H0). lia.
  - split; [lia|]. intros H0. rewrite (Hq0 H0). lia.
Qed.

(** C6, as stated: overtime would never exceed the worked minutes under any
    configuration. Rounding 10 minutes of overtime up to a step of 60 returns
    60 minutes of overtime for 10 minutes worked; and with a threshold of
    -10 and no rounding, 10 minutes worked give 20 minutes of overtime. *)
Lemma overtime_exceeds_worked :
  (let r := calcular_trabajado eventos_diez_minutos cfg_redondeo_up None in
   trabajado r = 10 /\ extra r = 60 /\ ~ (extra r <= trabajado r)) /\
  (let r := calcular_trabajado eventos_diez_minutos cfg_umbral_negativo None in
   trabajado r = 10 /\ extra r = 20 /\ ~ (extra r <= trabajado r)).
Proof.
  vm_compute. repeat split; try discriminate.
  all: intros H; by apply H.
Qed.

(** C6, amended: for every events map and exception list, the overtime
    minutes are at most the worked minutes under every configuration with a
    non-negative overtime threshold in which rounding cannot add more than
    the threshold: rounding inactive (step at most 1, or mode "none"), mode
    "down", a step with [step - 1 <= threshold] under any mode, or a mode
    other than "up" with half the step, rounded down, at most the
    threshold. *)
Theorem overtime_le_worked eventos cfg nl :
  0 <= umbral_extra_min cfg ->
  redondeo_extra_step_min cfg <= 1 \/ redondeo_extra_modo cfg = "none"%string \/
    redondeo_extra_modo cfg = "down"%string \/
    redondeo_extra_step_min cfg - 1 <= umbral_extra_min cfg \/
    (redondeo_extra_modo cfg <> "up"%string /\
     redondeo_extra_step_min cfg / 2 <= umbral_extra_min cfg) ->
  extra (calcular_trabajado eventos cfg nl) <= trabajado (calcular_trabajado eventos cfg nl).
Proof.
  intros Hum Hmode.
  destruct (ev_get eventos "Entrada") as [ent|] eqn:Hent;
    [|rewrite calcular_trabajado_cero by (by left); done].
  destruct (ev_get eventos "Salida") as [sal|] eqn:Hsal;
    [|rewrite calcular_trabajado_cero by (by right); done].
  destruct (calcular_trabajado_fields eventos cfg nl ent sal Hent Hsal)
    as (_ & _ & _ & _ & _ & _ & Htr & Hex).
  set (r := calcular_trabajado eventos cfg nl) in *.
  assert (0 <= trabajado r) as Hw by lia.
  destruct Hex as [-> | (Hstep & Hnone & ->)]; [lia|].
  set (sobre := Z.max 0 (trabajado r - umbral_extra_min cfg)).
  assert (0 <= sobre) as Hs by lia.
  destruct (round_minutes_techo sobre _ (redondeo_extra_modo cfg) Hstep Hs)
    as [Hle H0].
  destruct (Z.le_gt_cases (trabajado r) (umbral_extra_min cfg)) as [Hbajo|Hsobre].
  { rewrite H0 by lia. done. }
  assert (sobre = trabajado r - umbral_extra_min cfg) as Hsb by lia.
  assert (redondeo_extra_step_min cfg / 2 <= redondeo_extra_step_min cfg - 1) as Hhalf.
  { pose proof (Z.div_mod (redondeo_extra_step_min cfg) 2 ltac:(lia)).
    pose proof (Z.mod_pos_bound (redondeo_extra_step_min cfg) 2 ltac:(lia)). lia. }
  destruct Hmode as [? | [? | [Hdown | [Hpaso | [Hup Hmedio]]]]]; [lia|done|..].
  - rewrite Hdown in *. simpl in Hle. lia.
  - destruct (String.eqb (redondeo_extra_modo cfg) "up"); [lia|].
    destruct (String.eqb (redondeo_extra_modo cfg) "down"); lia.
  - destruct (String.eqb_spec (redondeo_extra_modo cfg) "up"); [done|].
    destruct (String.eqb (redondeo_extra_modo cfg) "down"); lia.
Qed.

Lemma overtime_le_worked_witness :
  extra (calcular_trabajado eventos_B cfg_redondeo_cuartos None)
  <= trabajado (calcular_trabajado eventos_B cfg_redondeo_cuartos None).
Proof.
  apply overtime_le_worked.
  - simpl. lia.
  - right; right; right; left. simpl. lia.
Defined.

(** * minutos_entre and add_minutes *)

(** X4: [minutos_entre] is 0 as soon as one time is absent and lies in
    [0, 1440) otherwise; between two different times, going there and coming
    back takes the whole day: the two differences add up to 1440, and the
    difference of a time with itself is 0. *)
Theorem minutos_entre_complement :
  (forall t, minutos_entre None t = 0 /\ minutos_entre t None = 0) /\
  (forall a b, wf_time a -> wf_time b ->
     0 <= minutos_entre (Some a) (Some b) < 1440 /\
     (a = b -> minutos_entre (Some a) (Some b) = 0) /\
     (a <> b ->
      minutos_entre (Some a) (Some b) + minutos_entre (Some b) (Some a) = 1440)).
Proof.
  split.
  - intros t. split; [done|]. by destruct t.
  - intros a b Ha Hb. split; [by apply minutos_entre_bounds|]. split.
    + intros ->. unfold minutos_entre. rewrite Z.ltb_irrefl. lia.
    + intros Hne.
      assert (datetime_of a <> datetime_of b)
        by (intros ?; by apply Hne, datetime_of_inj).
      unfold minutos_entre. case_ltb; lia.
Qed.

Lemma minutos_entre_complement_witness :
  minutos_entre (Some (Time 22 0)) (Some (Time 6 0))
  + minutos_entre (Some (Time 6 0)) (Some (Time 22 0)) = 1440.
Proof.
  apply (proj2 minutos_entre_complement (Time 22 0) (Time 6 0)).
  - unfold wf_time. simpl. lia.
  - unfold wf_time. simpl. lia.
  - discriminate.
Defined.

Lemma add_minutes_Some t m :
  add_minutes (Some t) m = Some (time_of_dt (datetime_of t + m)).
Proof. reflexivity. Qed.

(** X5: [add_minutes] and [minutos_entre] undo each other. For a number of
    minutes [m] that [add_minutes] accepts from [t] (the sum stays in the
    range of [datetime]), the minutes from [t] to [add_minutes t m] are
    [m mod 1440]; and adding to [t] the minutes between [t] and [u], which
    [add_minutes] always accepts, gives back [u]. *)
Theorem add_minutes_minutos_entre t u m :
  wf_time t -> wf_time u ->
  (add_minutes_en_rango (Some t) m = true ->
   minutos_entre (Some t) (add_minutes (Some t) m) = m mod 1440) /\
  add_minutes_en_rango (Some t) (minutos_entre (Some t) (Some u)) = true /\
  add_minutes (Some t) (minutos_entre (Some t) (Some u)) = Some u.
Proof.
  intros Ht Hu. pose proof (wf_datetime_of t Ht) as Hdt.
  pose proof (wf_datetime_of u Hu) as Hdu. rewrite !add_minutes_Some.
  split; [|split].
  - intros _. unfold minutos_entre. rewrite datetime_of_time_of_dt.
    pose proof (Z.mod_pos_bound (datetime_of t + m) 1440 ltac:(lia)) as Hb.
    pose proof (Z.mod_pos_bound m 1440 ltac:(lia)) as Hbm.
    pose proof (Z.div_mod (datetime_of t + m) 1440 ltac:(lia)) as Hd.
    pose proof (Z.div_mod m 1440 ltac:(lia)) as Hdm.
    destruct (Z.ltb_spec ((datetime_of t + m) mod 1440) (datetime_of t)).
    + apply (Z.mod_unique_pos m 1440 ((datetime_of t + m) / 1440 - 1)); lia.
    + apply (Z.mod_unique_pos m 1440 ((datetime_of t + m) / 1440)); lia.
  - pose proof (minutos_entre_bounds t u Ht Hu) as Hb.
    unfold add_minutes_en_rango, en_rango, datetime_min, datetime_max.
    apply andb_true_iff. split; apply Z.leb_le; lia.
  - f_equal. rewrite <- (time_of_dt_datetime_of u Hu) at 2.
    apply time_of_dt_mod. unfold minutos_entre.
    destruct (Z.ltb_spec (datetime_of u) (datetime_of t)).
    + replace (datetime_of t + (datetime_of u + 1440 - datetime_of t))
        with (datetime_of u + 1 * 1440) by lia.
      by rewrite Z.mod_add by lia.
    + f_equal. lia.
Qed.

Lemma add_minutes_minutos_entre_witness :
  minutos_entre (Some (Time 23 45)) (add_minutes (Some (Time 23 45)) 3000) = 120 /\
  add_minutes (Some (Time 23 45)) (minutos_entre (Some (Time 23 45)) (Some (Time 0 15)))
  = Some (Time 0 15).
Proof.
  assert (wf_time (Time 23 45)) as Ht by (unfold wf_time; simpl; lia).
  assert (wf_time (Time 0 15)) as Hu by (unfold wf_time; simpl; lia).
  destruct (add_minutes_minutos_entre (Time 23 45) (Time 0 15) 3000 Ht Hu)
    as (H1 & _ & H2).
  split; [|exact H2]. apply H1. reflexivity.
Defined.

(** X6: [add_minutes] of [None] is [None]. Whenever [add_minutes] accepts the
    minutes (the sum stays in the range of [datetime]) it returns a time of
    the day; adding [a] then [b] minutes is adding [a + b], when each of the
    three additions is accepted; and adding [k] whole days to a time, when
    accepted, leaves it unchanged, as does adding 0 minutes. *)
Theorem add_minutes_compose t a b k :
  add_minutes None a = None /\
  (add_minutes_en_rango t a = true -> from_option wf_time True (add_minutes t a)) /\
  (add_minutes_en_rango t a = true ->
   add_minutes_en_rango (add_minutes t a) b = true ->
   add_minutes_en_rango t (a + b) = true ->
   add_minutes (add_minutes t a) b = add_minutes t (a + b)) /\
  (from_option wf_time True t ->
   add_minutes_en_rango t (1440 * k) = true -> add_minutes t (1440 * k) = t) /\
  (from_option wf_time True t ->
   add_minutes_en_rango t 0 = true /\ add_minutes t 0 = t).
Proof.
  split; [done|]. destruct t as [t|]; [|done].
  rewrite !add_minutes_Some. split; [intros _; apply wf_time_of_dt|].
  split; [|split].
  - intros _ _ _. f_equal. apply time_of_dt_mod. rewrite datetime_of_time_of_dt.
    rewrite Z.add_assoc. rewrite Zplus_mod_idemp_l. done.
  - simpl. intros Ht _. f_equal.
    rewrite <- (time_of_dt_datetime_of t Ht) at 2.
    apply time_of_dt_mod. rewrite (Z.mul_comm 1440 k). by rewrite Z.mod_add by lia.
  - simpl. intros Ht. pose proof (wf_datetime_of t Ht) as Hdt. split.
    + unfold en_rango, datetime_min, datetime_max.
      apply andb_true_iff. split; apply Z.leb_le; lia.
    + f_equal. rewrite Z.add_0_r. by apply time_of_dt_datetime_of.
Qed.

Lemma add_minutes_compose_witness :
  from_option wf_time True (add_minutes (Some (Time 23 45)) 100) /\
  add_minutes (add_minutes (Some (Time 23 45)) 100) (-2000)
  = add_minutes (Some (Time 23 45)) (100 + -2000) /\
  add_minutes (Some (Time 23 45)) (1440 * 3) = Some (Time 23 45).
Proof.
  destruct (add_minutes_compose (Some (Time 23 45)) 100 (-2000) 3)
    as (_ & H1 & H2 & H3 & _).
  split; [by apply H1|]. split; [by apply H2|].
  apply H3; [unfold wf_time; simpl; lia|reflexivity].
Defined.

(** * map_eventos *)

Lemma dom_fold_insert (pairs : list (string * time)) (m : gmap string pyval) :
  Forall (fun lt => lt.1 ∈ dom m) pairs ->
  dom (fold_left (fun o lt => <[lt.1 := PyTime lt.2]> o) pairs m) = dom m.
Proof.
  revert m. induction pairs as [|lt pairs IH]; intros m Hp; [done|].
  apply Forall_cons in Hp as [Hlt Hp]. simpl. rewrite IH.
  - rewrite dom_insert_L. by apply subseteq_union_1_L, singleton_subseteq_l.
  - eapply Forall_impl; [exact Hp|]. intros x Hx. simpl in Hx.
    rewrite dom_insert_L. apply elem_of_union. by right.
Qed.

Lemma Forall_zip_fst {A B} (P : A -> Prop) (l1 : list A) (l2 : list B) :
  Forall P l1 -> Forall (fun x => P x.1) (zip l1 l2).
Proof.
  intros Hl1. revert l2. induction Hl1 as [|x l1 Hx _ IH]; intros [|y l2]; simpl;
    try constructor; [done|apply IH].
Qed.

(** X7: [map_eventos] is positional: the dictionary always has the six event
    keys and [_extra_registros], which counts the punches beyond the sixth;
    Entrada is the first punch; with two punches or more Salida is the last
    one; the punches in between fill Salida a comer, Regreso de comer, Salida
    a cenar and Regreso de cenar in that order, and a slot that no punch
    reaches is [None]. *)
Theorem map_eventos_positional times :
  let n := length times in
  let ev := map_eventos times in
  dom ev = list_to_set ("_extra_registros"%string :: labels) /\
  ev !! "_extra_registros"%string = Some (PyInt (Z.max 0 (Z.of_nat n - 6))) /\
  ev_get ev "Entrada" = times !! 0%nat /\
  ev_get ev "Salida" = (if (2 <=? n)%nat then last times else None) /\
  ev_get ev "Salida a comer" = (if (3 <=? n)%nat then times !! 1%nat else None) /\
  ev_get ev "Regreso de comer" = (if (4 <=? n)%nat then times !! 2%nat else None) /\
  ev_get ev "Salida a cenar" = (if (5 <=? n)%nat then times !! 3%nat else None) /\
  ev_get ev "Regreso de cenar" = (if (6 <=? n)%nat then times !! 4%nat else None).
Proof.
  cbv zeta. split; [|split; [|apply map_eventos_slots]].
  - unfold map_eventos. cbv zeta.
    set (base := <["_extra_registros"%string := _]> _).
    assert (dom base = list_to_set ("_extra_registros"%string :: labels)) as Hbase.
    { subst base. rewrite dom_insert_L, dom_list_to_map_L.
      rewrite <- list_fmap_compose. simpl. done. }
    destruct times as [|t0 [|t1 rest]]; [done| |].
    + rewrite dom_insert_L, Hbase. set_solver.
    + rewrite dom_fold_insert.
      * rewrite !dom_insert_L, Hbase. set_solver.
      * apply (Forall_zip_fst (fun k => k ∈ dom _)). rewrite !dom_insert_L, Hbase.
        repeat constructor; set_solver.
  - destruct times as [|t0 [|t1 [|t2 [|t3 [|t4 [|t5 rest]]]]]]; reflexivity.
Qed.

(** X8: a day with fewer than two punches has no Salida and is never
    computed: [calcular_trabajado] returns the all-zero result on it whatever
    the configuration and the exceptions. With two punches or more Entrada and
    Salida are the first and the last punch, and when those differ the result
    is not all-zero. *)
Theorem pocas_checadas times cfg nl :
  ((length times < 2)%nat ->
   ev_get (map_eventos times) "Salida" = None /\
   calcular_trabajado (map_eventos times) cfg nl = resultado_cero) /\
  ((2 <= length times)%nat -> Forall wf_time times ->
   exists ent sal,
     head times = Some ent /\ last times = Some sal /\
     ev_get (map_eventos times) "Entrada" = Some ent /\
     ev_get (map_eventos times) "Salida" = Some sal /\
     (ent <> sal -> calcular_trabajado (map_eventos times) cfg nl <> resultado_cero)).
Proof.
  destruct (map_eventos_slots times) as (H0 & Hn & _). cbv zeta in *. split.
  - intros Hlen. destruct (Nat.leb_spec 2 (length times)); [lia|].
    split; [done|]. apply calcular_trabajado_cero. by right.
  - intros Hlen Hwf. destruct (Nat.leb_spec 2 (length times)); [|lia].
    destruct times as [|ent rest]; [simpl in Hlen; lia|].
    destruct (last (ent :: rest)) as [sal|] eqn:Hlast; [|by apply last_None in Hlast].
    exists ent, sal. repeat split; try done.
    intros Hne Hcero.
    destruct (calcular_trabajado_fields _ cfg nl ent sal H0 Hn)
      as (_ & _ & _ & _ & _ & _ & Htr & _).
    rewrite Hcero in Htr. simpl in Htr.
    assert (wf_time ent) by by apply Forall_cons in Hwf as [? _].
    assert (wf_time sal).
    { rewrite Forall_forall in Hwf. apply Hwf. by apply last_Some_elem_of. }
    pose proof (minutos_entre_pos ent sal ltac:(done) ltac:(done) Hne). lia.
Qed.

Lemma pocas_checadas_witness :
  calcular_trabajado (map_eventos [Time 8 0]) AppConfig_default None = resultado_cero.
Proof. apply (pocas_checadas [Time 8 0]). simpl. lia. Defined.

(** * More on normalize_registro_times *)

Lemma normalize_unchanged_iff times :
  (2 <= length times)%nat ->
  normalize_registro_times times = (times, false) <->
  Sorted Z.le ((fun t => adj_of (wrap_likely (min_of_day <$> times))
                                (hd 0 (min_of_day <$> times)) (min_of_day t)) <$> times).
Proof.
  intros Hlen. rewrite normalize_long by done. split.
  - intros Heq. injection Heq as Hout _.
    pose proof (Sorted_key_le_fst _ (ordered_Sorted times)) as Hs.
    assert (Forall (fun x : Z * nat * time =>
                      x.1.1 = adj_of (wrap_likely (min_of_day <$> times))
                                     (hd 0 (min_of_day <$> times)) (min_of_day x.2))
                   (sorted key_leb (adjusted times))) as Hall.
    { eapply Permutation_Forall; [symmetry; apply sorted_perm|].
      eapply Forall_impl; [apply adjusted_Forall|]. by intros x [_ ?]. }
    apply Forall_fmap_ext_1 in Hall. rewrite Hall in Hs.
    match goal with |- Sorted _ (?f <$> _) =>
      replace (f <$> times) with (f <$> (sorted key_leb (adjusted times)).*2)
        by (by rewrite Hout)
    end.
    rewrite <- list_fmap_compose. exact Hs.
  - intros Hs. rewrite (sorted_id key_leb (adjusted times)).
    + rewrite adjusted_snd. f_equal. apply bool_decide_eq_false. by intros H.
    + apply Sorted_key_leb_le. rewrite adjusted_eq.
      by apply (imap_keys_Sorted (fun t => adj_of _ _ (min_of_day t)) 0 times).
Qed.

(** X9: normalization leaves a punch list alone exactly when it is already in
    order: for two punches or more, the list comes back unchanged with
    [reordered = false] if and only if its adjusted minutes (the minute of
    day, plus 1440 under [wrap_likely] for a minute below the first punch's)
    are in non-decreasing order; in particular every list in non-decreasing
    order of minute of day comes back unchanged. *)
Theorem normalize_unchanged times :
  ((2 <= length times)%nat ->
   (normalize_registro_times times = (times, false) <->
    Sorted Z.le ((fun t => min_of_day t +
                    (if wrap_likely (min_of_day <$> times)
                        && (min_of_day t <? hd 0 (min_of_day <$> times))
                     then 1440 else 0)) <$> times))) /\
  (Sorted Z.le (min_of_day <$> times) ->
   normalize_registro_times times = (times, false)).
Proof.
  split; [apply normalize_unchanged_iff|].
  intros Hs. destruct (Nat.lt_ge_cases (length times) 2) as [Hlen|Hlen].
  { by apply normalize_short. }
  apply normalize_unchanged_iff; [done|].
  rewrite (wrap_likely_no_smaller _ (has_smaller_sorted _ Hs)).
  erewrite list_fmap_ext; [exact Hs|]. intros i x _. apply adj_of_false.
Qed.

Lemma normalize_unchanged_witness :
  normalize_registro_times [Time 20 48; Time 23 10; Time 3 5; Time 6 0]
  = ([Time 20 48; Time 23 10; Time 3 5; Time 6 0], false) /\
  normalize_registro_times [Time 8 0; Time 12 0; Time 12 0; Time 17 0]
  = ([Time 8 0; Time 12 0; Time 12 0; Time 17 0], false).
Proof.
  split.
  - apply (proj1 (normalize_unchanged _)); [simpl; lia|].
    vm_compute. repeat constructor; discriminate.
  - apply (proj2 (normalize_unchanged _)).
    vm_compute. repeat constructor; discriminate.
Defined.

(** X10: measured from its first punch, the output of normalization is in
    chronological order: the minutes from the first output punch to each
    punch never decrease along the list, so the last punch is the farthest
    from the first. *)
Theorem normalize_chronological times p0 rest :
  Forall wf_time times ->
  (normalize_registro_times times).1 = p0 :: rest ->
  forall i j a b,
    (i <= j)%nat ->
    (normalize_registro_times times).1 !! i = Some a ->
    (normalize_registro_times times).1 !! j = Some b ->
    minutos_entre (Some p0) (Some a) <= minutos_entre (Some p0) (Some b).
Proof.
  intros Hwf Hout i j a b Hij Ha Hb.
  pose proof (normalized_offsets times p0 rest Hwf Hout) as Hs.
  apply (StronglySorted_lookup_le _ i j _ _ Hs Hij); rewrite list_lookup_fmap.
  - by rewrite Ha.
  - by rewrite Hb.
Qed.

Lemma normalize_chronological_witness :
  minutos_entre (Some (Time 22 0)) (Some (Time 23 0))
  <= minutos_entre (Some (Time 22 0)) (Some (Time 2 0)).
Proof.
  apply (normalize_chronological [Time 22 0; Time 2 0; Time 23 0; Time 6 0]
           (Time 22 0) [Time 23 0; Time 2 0; Time 6 0]) with (i := 1%nat) (j := 2%nat).
  - repeat constructor; simpl; lia.
  - vm_compute. reflexivity.
  - lia.
  - vm_compute. reflexivity.
  - vm_compute. reflexivity.
Defined.

(** X11: which punch comes first after normalization: under [wrap_likely]
    the first input punch stays first (it is taken as the Entry of an
    overnight shift); otherwise the output starts with a punch of least
    minute of day. *)
Theorem normalize_first times :
  (2 <= length times)%nat -> Forall wf_time times ->
  (wrap_likely (min_of_day <$> times) = true ->
   head (normalize_registro_times times).1 = head times) /\
  (wrap_likely (min_of_day <$> times) = false ->
   exists p0, head (normalize_registro_times times).1 = Some p0 /\
              forall t, t ∈ times -> min_of_day p0 <= min_of_day t).
Proof.
  intros Hlen Hwf. rewrite normalize_long by done. cbn [fst]. split.
  - intros Hw. destruct times as [|t0 ts]; [done|].
    destruct (ordered_head t0 ts Hwf Hw) as (rest & -> & _). done.
  - intros Hw.
    pose proof (Sorted_key_le_fst _ (ordered_Sorted times)) as Hs.
    assert (Forall (fun x : Z * nat * time => x.1.1 = min_of_day x.2)
                   (sorted key_leb (adjusted times))) as Hall.
    { eapply Permutation_Forall; [symmetry; apply sorted_perm|].
      eapply Forall_impl; [apply adjusted_Forall|]. intros x [_ Hx].
      rewrite Hw in Hx. by rewrite adj_of_false in Hx. }
    apply Forall_fmap_ext_1 in Hall. rewrite Hall in Hs.
    assert (Sorted Z.le (min_of_day <$> (sorted key_leb (adjusted times)).*2)) as Hs'
      by (rewrite <- list_fmap_compose; exact Hs).
    clear Hs. rename Hs' into Hs.
    assert ((sorted key_leb (adjusted times)).*2 ≡ₚ times) as Hp.
    { by rewrite (sorted_perm key_leb (adjusted times)), adjusted_snd. }
    destruct ((sorted key_leb (adjusted times)).*2) as [|p0 rest] eqn:Hout.
    { apply Permutation_nil_l in Hp. subst times. simpl in Hlen. lia. }
    exists p0. split; [done|]. intros t Ht.
    apply Sorted_StronglySorted in Hs; [|intros ???; lia].
    rewrite fmap_cons in Hs. apply StronglySorted_inv in Hs as [_ Hhd].
    rewrite Forall_fmap, Forall_forall in Hhd.
    rewrite <- Hp in Ht. apply elem_of_cons in Ht as [->|Ht]; [lia|].
    by apply Hhd.
Qed.

Lemma normalize_first_witness :
  head (normalize_registro_times [Time 22 0; Time 2 0; Time 23 0; Time 6 0]).1
  = Some (Time 22 0).
Proof.
  apply (normalize_first [Time 22 0; Time 2 0; Time 23 0; Time 6 0]).
  - simpl. lia.
  - repeat constructor; simpl; lia.
  - vm_compute. reflexivity.
Defined.

(** * Where the minutes of the exceptions go *)

Lemma sumZ_perm l1 l2 : l1 ≡ₚ l2 -> sumZ l1 = sumZ l2.
Proof. induction 1; simpl; lia. Qed.

Lemma sumZ_app l1 l2 : sumZ (l1 ++ l2) = sumZ l1 + sumZ l2.
Proof. induction l1; simpl; lia. Qed.

(** The exceptions that count, with their end filled in, are well formed. *)
Lemma wf_spec_efectivos sal l :
  wf_time sal -> Forall wf_no_laborado l ->
  Forall (fun x : time * time => wf_time x.1 /\ wf_time x.2) (spec_efectivos sal l).
Proof.
  intros Hsal Hl. induction Hl as [|[[[ini|] fin] nota] l [Hi Hf] _ IH]; simpl in *;
    [constructor| |done].
  constructor; [|done]. split; [done|]. by destruct fin.
Qed.

(** Each exception splits into what falls outside the shift and what is
    kept. *)
Lemma duracion_ignorado_recortado ent sal l :
  wf_time ent -> wf_time sal ->
  Forall (fun x : time * time => wf_time x.1 /\ wf_time x.2) l ->
  sumZ ((fun x => minutos_entre (Some x.1) (Some x.2)) <$> l)
  = spec_ignorados ent sal l
    + sumZ ((fun i : Z * Z => i.2 - i.1) <$> spec_recortados ent sal l).
Proof.
  intros Hent Hsal Hl. unfold spec_ignorados, spec_recortados.
  induction Hl as [|[ini fin] l [Hi Hf] _ IH]; [done|].
  set (f := fun x : time * time => spec_dentro ent sal (spec_intervalo ent sal x)) in *.
  change (omap f ((ini, fin) :: l))
    with (match f (ini, fin) with Some y => y :: omap f l | None => omap f l end).
  rewrite !fmap_cons. simpl sumZ. rewrite IH.
  rewrite <- (spec_intervalo_duracion ent sal Hent Hsal ini fin Hi Hf).
  assert (spec_ignorado ent sal (ini, fin)
          = (spec_intervalo ent sal (ini, fin)).2 - (spec_intervalo ent sal (ini, fin)).1
            - match f (ini, fin) with Some i => i.2 - i.1 | None => 0 end) as ->.
  { unfold spec_ignorado, f. cbv zeta.
    destruct (spec_dentro ent sal (spec_intervalo ent sal (ini, fin))); lia. }
  destruct (f (ini, fin)) as [i|]; [rewrite fmap_cons; simpl sumZ|]; lia.
Qed.

(** Merging loses exactly the minutes counted as internal overlap. *)
Lemma spec_fusion_longitud cur rest :
  cur.1 <= cur.2 ->
  Forall (fun y : Z * Z => cur.1 <= y.1 /\ y.1 < y.2) rest ->
  StronglySorted (fun x y : Z * Z => x.1 <= y.1) rest ->
  sumZ ((fun i : Z * Z => i.2 - i.1) <$> (cur :: rest))
  = sumZ ((fun i : Z * Z => i.2 - i.1) <$> spec_fusion cur rest)
    + spec_solape_fusion cur rest.
Proof.
  intros Hc Hr Hs. revert cur Hc Hr.
  induction Hs as [|x rest Hs IH Hx]; intros cur Hc Hr; [simpl; lia|].
  apply Forall_cons in Hr as [[Hx1 Hx2] Hr].
  simpl spec_fusion. simpl spec_solape_fusion.
  destruct (spec_se_fusionan cur x) eqn:Hf.
  - assert (Forall (fun y : Z * Z =>
              (cur.1, Z.max cur.2 x.2).1 <= y.1 /\ y.1 < y.2) rest) as Hr' by done.
    assert ((cur.1, Z.max cur.2 x.2).1 <= (cur.1, Z.max cur.2 x.2).2) as Hc'
      by (cbn [fst snd]; lia).
    pose proof (IH _ Hc' Hr') as E.
    rewrite fmap_cons in E. simpl sumZ in E. cbn [fst snd] in E.
    rewrite !fmap_cons. simpl sumZ.
    assert (spec_solape cur x = Z.min cur.2 x.2 - x.1 \/
            spec_solape cur x = 0 /\ cur.2 = x.1) as Hov.
    { unfold spec_se_fusionan in Hf. unfold spec_solape in *.
      apply orb_true_iff in Hf as [Hf|Hf];
        [apply Z.ltb_lt in Hf|apply Z.eqb_eq in Hf]; lia. }
    lia.
  - assert (Forall (fun y : Z * Z => x.1 <= y.1 /\ y.1 < y.2) rest) as Hr'.
    { rewrite Forall_forall in Hx, Hr |- *. intros y Hy.
      split; [by apply Hx|by apply Hr]. }
    assert (x.1 <= x.2) as Hx' by lia.
    pose proof (IH _ Hx' Hr') as E.
    rewrite fmap_cons in E. simpl sumZ in E.
    rewrite !fmap_cons. simpl sumZ. lia.
Qed.

Lemma spec_ordenados_Sorted ent sal l :
  StronglySorted (fun x y : Z * Z => x.1 <= y.1) (spec_ordenados ent sal l).
Proof.
  apply Sorted_StronglySorted; [intros ???; lia|].
  eapply Sorted_weaken; [|apply (sorted_Sorted (spec_offset_leb ent sal))].
  - intros x y. unfold le_of, spec_offset_leb. rewrite Z.leb_le. lia.
  - intros x y. unfold spec_offset_leb. rewrite !Z.leb_le. lia.
Qed.

Lemma spec_fusionados_longitud ent sal l :
  let ord := spec_ordenados ent sal (spec_recortados ent sal l) in
  sumZ ((fun i : Z * Z => i.2 - i.1) <$> spec_recortados ent sal l)
  = sumZ ((fun i : Z * Z => i.2 - i.1) <$> spec_fusionados ord)
    + spec_solape_interno ord.
Proof.
  cbv zeta.
  pose proof (spec_recortados_en_ventana ent sal l) as Hrec.
  pose proof (spec_ordenados_Sorted ent sal (spec_recortados ent sal l)) as Hs.
  assert (spec_ordenados ent sal (spec_recortados ent sal l)
          ≡ₚ spec_recortados ent sal l) as Hp by apply sorted_perm.
  rewrite <- (sumZ_perm _ _ (fmap_Permutation _ _ _ Hp)).
  assert (Forall (en_ventana (spec_jornada ent sal))
            (spec_ordenados ent sal (spec_recortados ent sal l))) as Hord.
  { eapply Permutation_Forall; [symmetry; exact Hp|done]. }
  destruct (spec_ordenados ent sal (spec_recortados ent sal l)) as [|x rest]; [done|].
  apply StronglySorted_inv in Hs as [Hs Hx].
  apply Forall_cons in Hord as [(Hx1 & Hx2 & Hx3) Hord].
  apply spec_fusion_longitud; [lia| |done].
  rewrite Forall_forall in Hx, Hord |- *. intros y Hy.
  split; [by apply Hx|]. by destruct (Hord y Hy) as (_ & ? & _).
Qed.

(** Intervals in a row inside a window are no longer than the window. *)
Lemma cadena_longitud lo s1 l :
  cadena lo l -> Forall (fun m : Z * Z => m.2 <= s1) l -> lo <= s1 ->
  0 <= sumZ ((fun i : Z * Z => i.2 - i.1) <$> l) <= s1 - lo.
Proof.
  intros Hc Hl. revert lo Hc. induction Hl as [|m l Hm _ IH]; intros lo Hc Hlo.
  - simpl. lia.
  - destruct Hc as (H1 & H2 & Hc). rewrite fmap_cons. simpl sumZ.
    specialize (IH _ Hc Hm). lia.
Qed.

Lemma spec_no_solapado_bounds vs m :
  m.1 <= m.2 ->
  0 <= spec_solape_ventanas vs m /\
  0 <= spec_no_solapado vs m <= m.2 - m.1.
Proof.
  intros Hm. assert (0 <= spec_solape_ventanas vs m) as Hov.
  { unfold spec_solape_ventanas. induction vs as [|v vs IH]; [done|].
    rewrite fmap_cons. simpl sumZ. unfold spec_solape at 1. lia. }
  unfold spec_no_solapado. lia.
Qed.

Lemma cadena_Forall_le lo l : cadena lo l -> Forall (fun m : Z * Z => m.1 <= m.2) l.
Proof. apply cadena_le. Qed.

Lemma sumZ_no_solapado_le vs l :
  Forall (fun m : Z * Z => m.1 <= m.2) l ->
  0 <= sumZ (spec_solape_ventanas vs <$> l) /\
  0 <= sumZ (spec_no_solapado vs <$> l) <= sumZ ((fun i : Z * Z => i.2 - i.1) <$> l).
Proof.
  induction 1 as [|m l Hm _ IH]; [simpl; lia|].
  rewrite !fmap_cons. simpl sumZ.
  pose proof (spec_no_solapado_bounds vs m Hm). lia.
Qed.

(** Against windows in a row, what is deducted and what overlaps the windows
    make up the merged intervals exactly. *)
Lemma sumZ_no_solapado_cadena vs lo0 l :
  cadena lo0 vs -> Forall (fun m : Z * Z => m.1 <= m.2) l ->
  sumZ (spec_no_solapado vs <$> l) + sumZ (spec_solape_ventanas vs <$> l)
  = sumZ ((fun i : Z * Z => i.2 - i.1) <$> l).
Proof.
  intros Hvs. induction 1 as [|m l Hm _ IH]; [done|].
  rewrite !fmap_cons. simpl sumZ.
  unfold spec_no_solapado at 1.
  pose proof (cubierto_cadena lo0 vs m.1 m.2 Hvs Hm) as Hcub.
  rewrite <- (spec_solape_ventanas_cubierto vs m.1 m.2 (cadena_le _ _ Hvs) Hm) in Hcub.
  rewrite <- surjective_pairing in Hcub. lia.
Qed.

Lemma sumZ_longitud_le vs l :
  sumZ ((fun i : Z * Z => i.2 - i.1) <$> l)
  <= sumZ (spec_no_solapado vs <$> l) + sumZ (spec_solape_ventanas vs <$> l).
Proof.
  induction l as [|m l IH]; [done|].
  rewrite !fmap_cons. simpl sumZ. unfold spec_no_solapado at 1. lia.
Qed.

(** The four numbers of the exception block against the minutes of the
    exceptions and the span of the shift. *)
Lemma bloque_cuentas ent sal ventanas l :
  wf_time ent -> wf_time sal ->
  Forall (fun v : time * time => wf_time v.1 /\ wf_time v.2) ventanas ->
  Forall wf_no_laborado l ->
  let b := no_laborado_bloque ent sal ventanas (Some l) in
  let total := sumZ ((fun x : time * time => minutos_entre (Some x.1) (Some x.2))
                       <$> spec_efectivos sal l) in
  let fus := sumZ ((fun i : Z * Z => i.2 - i.1) <$> spec_merged ent sal l) in
  total = b.2 + b.1.2 + fus /\
  0 <= fus <= minutos_entre (Some ent) (Some sal) /\
  0 <= b.1.1.1 <= fus /\
  0 <= b.1.1.2 /\
  fus <= b.1.1.1 + b.1.1.2 /\
  (forall lo0, cadena lo0 (spec_intervalo ent sal <$> ventanas) ->
               b.1.1.1 + b.1.1.2 = fus).
Proof.
  intros Hent Hsal Hv Hl. cbv zeta.
  rewrite (bloque_spec ent sal Hent Hsal ventanas l Hv Hl). cbn [fst snd].
  destruct (spec_merged_cadena ent sal l) as [Hmc Hms].
  pose proof (spec_jornada_bounds ent sal Hent Hsal) as Hb.
  pose proof (cadena_longitud _ _ _ Hmc Hms ltac:(lia)) as Hfus.
  rewrite (spec_jornada_eq ent sal Hent Hsal) in Hfus. cbn [fst snd] in Hfus.
  pose proof (cadena_le _ _ Hmc) as Hle.
  pose proof (sumZ_no_solapado_le (spec_intervalo ent sal <$> ventanas) _ Hle) as Hns.
  pose proof (sumZ_longitud_le (spec_intervalo ent sal <$> ventanas)
                (spec_merged ent sal l)) as Hlo.
  split; [|split; [lia|split; [lia|split; [lia|split; [lia|]]]]].
  - rewrite (duracion_ignorado_recortado ent sal _ Hent Hsal
               (wf_spec_efectivos sal l Hsal Hl)).
    rewrite (spec_fusionados_longitud ent sal (spec_efectivos sal l)).
    unfold spec_merged. lia.
  - intros lo0 Hvs. by apply (sumZ_no_solapado_cadena _ lo0).
Qed.

(** * The result against the span of the shift *)

Lemma calcular_trabajado_lista eventos cfg nl :
  from_option (Forall wf_no_laborado) True nl ->
  exists l, Forall wf_no_laborado l /\
            calcular_trabajado eventos cfg nl = calcular_trabajado eventos cfg (Some l).
Proof.
  intros Hnl. destruct nl as [l|]; [by exists l|]. exists []. split; [constructor|].
  by apply calcular_trabajado_bloque.
Qed.

(** X12: the no-labor deduction never exceeds the span between Entry and
    Exit, whatever the order of the events, the configuration and the
    exceptions: exceptions that overlap, repeat or fall outside the shift are
    never deducted beyond the shift itself. *)
Theorem no_labor_le_span eventos cfg nl :
  wf_eventos eventos ->
  from_option (Forall wf_no_laborado) True nl ->
  extra_ded (calcular_trabajado eventos cfg nl)
  <= minutos_entre (ev_get eventos "Entrada") (ev_get eventos "Salida").
Proof.
  intros Hwf Hnl.
  pose proof (minutos_entre_nonneg _ _ (wf_eventos_slot eventos "Entrada" Hwf)
                (wf_eventos_slot eventos "Salida" Hwf)) as H0.
  destruct (ev_get eventos "Entrada") as [ent|] eqn:Hent;
    [|rewrite calcular_trabajado_cero by (by left); done].
  destruct (ev_get eventos "Salida") as [sal|] eqn:Hsal;
    [|rewrite calcular_trabajado_cero by (by right); done].
  pose proof (wf_eventos_get _ _ _ Hwf Hent) as Hwe.
  pose proof (wf_eventos_get _ _ _ Hwf Hsal) as Hws.
  destruct (calcular_trabajado_lista eventos cfg nl Hnl) as (l & Hl & ->).
  destruct (calcular_trabajado_fields eventos cfg (Some l) ent sal Hent Hsal)
    as (_ & _ & He & _).
  rewrite He.
  pose proof (wf_spec_ventanas_horas eventos cfg sal Hwf Hws) as Hv.
  rewrite spec_ventanas_horas_eq in Hv.
  destruct (bloque_cuentas ent sal
              (ventanas_descuento (ev_get eventos "Salida a comer")
                 (comida (ev_get eventos "Salida a comer")
                    (ev_get eventos "Regreso de comer") sal cfg).2
                 (ev_get eventos "Salida a cenar") (ev_get eventos "Regreso de cenar") sal)
              l Hwe Hws Hv Hl) as (_ & Hf & Hd & _).
  lia.
Qed.

Lemma no_labor_le_span_witness :
  extra_ded (calcular_trabajado eventos_doble_descuento AppConfig_default
               (Some no_laborado_tres_horas))
  <= minutos_entre (ev_get eventos_doble_descuento "Entrada")
                   (ev_get eventos_doble_descuento "Salida").
Proof.
  apply no_labor_le_span.
  - apply wf_eventos_dict. repeat constructor; simpl; lia.
  - repeat constructor; simpl; lia.
Defined.

(** X13: with a non-negative meal cap the worked minutes never exceed the
    span between Entry and Exit, which is itself less than a day. *)
Theorem worked_le_span eventos cfg nl :
  wf_eventos eventos ->
  from_option (Forall wf_no_laborado) True nl ->
  0 <= tope_descuento_comida_min cfg ->
  trabajado (calcular_trabajado eventos cfg nl)
  <= minutos_entre (ev_get eventos "Entrada") (ev_get eventos "Salida") < 1440.
Proof.
  intros Hwf Hnl Htope.
  destruct (ev_get eventos "Entrada") as [ent|] eqn:Hent;
    [|rewrite calcular_trabajado_cero by (by left); done].
  destruct (ev_get eventos "Salida") as [sal|] eqn:Hsal;
    [|rewrite calcular_trabajado_cero by (by right); done].
  pose proof (wf_eventos_get _ _ _ Hwf Hent) as Hwe.
  pose proof (wf_eventos_get _ _ _ Hwf Hsal) as Hws.
  pose proof (minutos_entre_bounds ent sal Hwe Hws) as Hb.
  destruct (calcular_trabajado_fields eventos cfg nl ent sal Hent Hsal)
    as (Hc & Hd & He & _ & _ & _ & Htr & _).
  pose proof (bloque_nonneg ent sal
    (ventanas_descuento (ev_get eventos "Salida a comer")
       (comida (ev_get eventos "Salida a comer") (ev_get eventos "Regreso de comer") sal cfg).2
       (ev_get eventos "Salida a cenar") (ev_get eventos "Regreso de cenar") sal)
    nl Hws Hnl) as (Hb1 & _).
  rewrite <- He in Hb1.
  pose proof (comida_nonneg (ev_get eventos "Salida a comer")
                (ev_get eventos "Regreso de comer") sal cfg
                (wf_eventos_slot _ _ Hwf) (wf_eventos_slot _ _ Hwf) Hws Htope) as Hcn.
  rewrite <- Hc in Hcn.
  pose proof (cena_nonneg (ev_get eventos "Salida a cenar")
                (ev_get eventos "Regreso de cenar") sal
                (wf_eventos_slot _ _ Hwf) (wf_eventos_slot _ _ Hwf) Hws) as Hcen.
  rewrite <- Hd in Hcen.
  set (r := calcular_trabajado eventos cfg nl) in *. lia.
Qed.

Lemma worked_le_span_witness :
  trabajado (calcular_trabajado eventos_nocturnos_comida AppConfig_default
               (Some no_laborado_nocturno))
  <= minutos_entre (ev_get eventos_nocturnos_comida "Entrada")
                   (ev_get eventos_nocturnos_comida "Salida") < 1440.
Proof.
  apply worked_le_span.
  - apply wf_eventos_dict. repeat constructor; simpl; lia.
  - repeat constructor; simpl; lia.
  - simpl. lia.
Defined.

(** X14: where the minutes of the exceptions go. Take the exceptions that have
    a start, an absent end counting as Exit, and add up their durations. The
    minutes ignored outside the shift, the internal overlap and the no-labor
    deduction together never exceed that total; with the minutes overlapping
    the meal and dinner windows added they reach it at least: no minute of an
    exception is left unaccounted for. *)
Theorem exception_minutes_bounds eventos cfg l ent sal :
  wf_eventos eventos ->
  Forall wf_no_laborado l ->
  ev_get eventos "Entrada" = Some ent ->
  ev_get eventos "Salida" = Some sal ->
  let r := calcular_trabajado eventos cfg (Some l) in
  let total := sumZ ((fun x : time * time => minutos_entre (Some x.1) (Some x.2))
                       <$> spec_efectivos sal l) in
  ignored_outside_shift r + nolab_solape_interno r + extra_ded r <= total /\
  total <= ignored_outside_shift r + nolab_solape_interno r + nolab_overlap_cd r
           + extra_ded r.
Proof.
  intros Hwf Hl Hent Hsal. cbv zeta.
  pose proof (wf_eventos_get _ _ _ Hwf Hent) as Hwe.
  pose proof (wf_eventos_get _ _ _ Hwf Hsal) as Hws.
  destruct (calcular_trabajado_fields eventos cfg (Some l) ent sal Hent Hsal)
    as (_ & _ & He & Ho & Hs & Hi & _).
  rewrite He, Ho, Hs, Hi.
  pose proof (wf_spec_ventanas_horas eventos cfg sal Hwf Hws) as Hv.
  rewrite spec_ventanas_horas_eq in Hv.
  destruct (bloque_cuentas ent sal
              (ventanas_descuento (ev_get eventos "Salida a comer")
                 (comida (ev_get eventos "Salida a comer")
                    (ev_get eventos "Regreso de comer") sal cfg).2
                 (ev_get eventos "Salida a cenar") (ev_get eventos "Regreso de cenar") sal)
              l Hwe Hws Hv Hl) as (Ht & Hf & Hd & Hov & Hle & _).
  lia.
Qed.

Lemma exception_minutes_bounds_witness :
  let r := calcular_trabajado eventos_ventanas_encimadas AppConfig_default
             (Some no_laborado_tres_horas) in
  ignored_outside_shift r + nolab_solape_interno r + extra_ded r <= 180 /\
  180 <= ignored_outside_shift r + nolab_solape_interno r + nolab_overlap_cd r
         + extra_ded r.
Proof.
  apply (exception_minutes_bounds eventos_ventanas_encimadas AppConfig_default
           no_laborado_tres_horas (Time 9 0) (Time 17 0)).
  - apply wf_eventos_dict. repeat constructor; simpl; lia.
  - repeat constructor; simpl; lia.
  - reflexivity.
  - reflexivity.
Defined.

(** X15: on a chronological day with a non-negative meal cap the accounting of
    the exceptions is exact: the durations of the exceptions that have a
    start (an absent end counting as Exit) add up to the minutes ignored
    outside the shift, plus the internal overlap, plus the overlap with the
    meal and dinner windows, plus the no-labor deduction. The events that
    [map_eventos] builds from normalized punches are such a day. *)
Theorem exception_minutes_accounted :
  (forall eventos cfg l ent sal,
     wf_eventos eventos ->
     Forall wf_no_laborado l ->
     ev_get eventos "Entrada" = Some ent ->
     ev_get eventos "Salida" = Some sal ->
     0 <= tope_descuento_comida_min cfg ->
     cronologico eventos ->
     let r := calcular_trabajado eventos cfg (Some l) in
     sumZ ((fun x : time * time => minutos_entre (Some x.1) (Some x.2))
             <$> spec_efectivos sal l)
     = ignored_outside_shift r + nolab_solape_interno r + nolab_overlap_cd r
       + extra_ded r) /\
  (forall times cfg l sal,
     Forall wf_time times ->
     Forall wf_no_laborado l ->
     (2 <= length times)%nat ->
     last (normalize_registro_times times).1 = Some sal ->
     0 <= tope_descuento_comida_min cfg ->
     let r := calcular_trabajado (map_eventos (normalize_registro_times times).1)
                cfg (Some l) in
     sumZ ((fun x : time * time => minutos_entre (Some x.1) (Some x.2))
             <$> spec_efectivos sal l)
     = ignored_outside_shift r + nolab_solape_interno r + nolab_overlap_cd r
       + extra_ded r).
Proof.
  assert (forall eventos cfg l ent sal,
     wf_eventos eventos ->
     Forall wf_no_laborado l ->
     ev_get eventos "Entrada" = Some ent ->
     ev_get eventos "Salida" = Some sal ->
     0 <= tope_descuento_comida_min cfg ->
     cronologico eventos ->
     let r := calcular_trabajado eventos cfg (Some l) in
     sumZ ((fun x : time * time => minutos_entre (Some x.1) (Some x.2))
             <$> spec_efectivos sal l)
     = ignored_outside_shift r + nolab_solape_interno r + nolab_overlap_cd r
       + extra_ded r) as Hgen.
  { intros eventos cfg l ent sal Hwf Hl Hent Hsal Htope Hcr. cbv zeta.
    pose proof (wf_eventos_get _ _ _ Hwf Hent) as Hwe.
    pose proof (wf_eventos_get _ _ _ Hwf Hsal) as Hws.
    destruct (calcular_trabajado_fields eventos cfg (Some l) ent sal Hent Hsal)
      as (_ & _ & He & Ho & Hs & Hi & _).
    rewrite He, Ho, Hs, Hi.
    destruct (ventanas_cronologico eventos cfg ent sal Hwf Hent Hsal Hcr Htope)
      as (Hvc & _).
    unfold spec_ventanas in Hvc. rewrite spec_ventanas_horas_eq in Hvc.
    pose proof (wf_spec_ventanas_horas eventos cfg sal Hwf Hws) as Hv.
    rewrite spec_ventanas_horas_eq in Hv.
    destruct (bloque_cuentas ent sal
                (ventanas_descuento (ev_get eventos "Salida a comer")
                   (comida (ev_get eventos "Salida a comer")
                      (ev_get eventos "Regreso de comer") sal cfg).2
                   (ev_get eventos "Salida a cenar") (ev_get eventos "Regreso de cenar") sal)
                l Hwe Hws Hv Hl) as (Ht & _ & _ & _ & _ & Heq).
    specialize (Heq _ Hvc). lia. }
  split; [exact Hgen|].
  intros times cfg l sal Hwf Hl Hlen Hlast Htope.
  pose proof (normalize_out_perm times) as Hperm.
  assert (Forall wf_time (normalize_registro_times times).1) as Hwf'
    by (eapply Permutation_Forall; [symmetry; exact Hperm|done]).
  assert (length (normalize_registro_times times).1 = length times) as Hlen'
    by (by apply Permutation_length).
  destruct (map_eventos_slots (normalize_registro_times times).1) as (H0 & Hn & _).
  cbv zeta in Hn, H0. rewrite Hlen' in Hn.
  destruct (Nat.leb_spec 2 (length times)); [|lia].
  destruct ((normalize_registro_times times).1 !! 0%nat) as [ent|] eqn:Hent.
  - apply (Hgen _ cfg l ent sal); try done.
    + by apply wf_map_eventos.
    + by rewrite Hn.
    + by apply normalized_cronologico.
  - apply lookup_ge_None in Hent. lia.
Qed.

Lemma exception_minutes_accounted_witness :
  let r := calcular_trabajado (map_eventos (normalize_registro_times punches_nocturnos).1)
             AppConfig_default (Some no_laborado_nocturno) in
  sumZ ((fun x : time * time => minutos_entre (Some x.1) (Some x.2))
          <$> spec_efectivos (Time 6 0) no_laborado_nocturno)
  = ignored_outside_shift r + nolab_solape_interno r + nolab_overlap_cd r + extra_ded r.
Proof.
  apply (proj2 exception_minutes_accounted punches_nocturnos AppConfig_default
           no_laborado_nocturno (Time 6 0)).
  - repeat constructor; simpl; lia.
  - repeat constructor; simpl; lia.
  - simpl. lia.
  - reflexivity.
  - simpl. lia.
Defined.

Lemma trabajado_mas_deducciones eventos cfg nl :
  wf_eventos eventos ->
  from_option (Forall wf_no_laborado) True nl ->
  0 <= tope_descuento_comida_min cfg ->
  cronologico eventos ->
  let r := calcular_trabajado eventos cfg nl in
  trabajado r + comida_ded r + cena_ded r + extra_ded r
  = minutos_entre (ev_get eventos "Entrada") (ev_get eventos "Salida").
Proof.
  intros Hwf Hnl Htope Hcr. cbv zeta.
  pose proof (deducciones_cronologico eventos cfg nl Hwf Hnl Htope Hcr) as Hle.
  cbv zeta in Hle.
  destruct (ev_get eventos "Entrada") as [ent|] eqn:Hent;
    [|rewrite calcular_trabajado_cero by (by left); done].
  destruct (ev_get eventos "Salida") as [sal|] eqn:Hsal;
    [|rewrite calcular_trabajado_cero by (by right); done].
  destruct (calcular_trabajado_fields eventos cfg nl ent sal Hent Hsal)
    as (_ & _ & _ & _ & _ & _ & Htr & _).
  set (r := calcular_trabajado eventos cfg nl) in *. lia.
Qed.

(** X16: on a chronological day with a non-negative meal cap no minute is
    lost: worked minutes plus the meal, dinner and no-labor deductions are
    exactly the span between Entry and Exit, the floor at 0 never acting.
    This holds for the events that [map_eventos] builds from normalized
    punches. *)
Theorem worked_plus_deductions :
  (forall eventos cfg nl,
     wf_eventos eventos ->
     from_option (Forall wf_no_laborado) True nl ->
     0 <= tope_descuento_comida_min cfg ->
     cronologico eventos ->
     let r := calcular_trabajado eventos cfg nl in
     trabajado r + comida_ded r + cena_ded r + extra_ded r
     = minutos_entre (ev_get eventos "Entrada") (ev_get eventos "Salida")) /\
  (forall times cfg nl,
     Forall wf_time times ->
     from_option (Forall wf_no_laborado) True nl ->
     0 <= tope_descuento_comida_min cfg ->
     let eventos := map_eventos (normalize_registro_times times).1 in
     let r := calcular_trabajado eventos cfg nl in
     trabajado r + comida_ded r + cena_ded r + extra_ded r
     = minutos_entre (ev_get eventos "Entrada") (ev_get eventos "Salida")).
Proof.
  split; [apply trabajado_mas_deducciones|].
  intros times cfg nl Hwf Hnl Htope. cbv zeta.
  pose proof (normalize_out_perm times) as Hperm.
  apply trabajado_mas_deducciones; try done.
  - apply wf_map_eventos. eapply Permutation_Forall; [symmetry; exact Hperm|done].
  - by apply normalized_cronologico.
Qed.

Lemma worked_plus_deductions_witness :
  let eventos := map_eventos (normalize_registro_times punches_nocturnos).1 in
  let r := calcular_trabajado eventos AppConfig_default (Some no_laborado_nocturno) in
  trabajado r + comida_ded r + cena_ded r + extra_ded r
  = minutos_entre (ev_get eventos "Entrada") (ev_get eventos "Salida").
Proof.
  apply (proj2 worked_plus_deductions punches_nocturnos AppConfig_default
           (Some no_laborado_nocturno)).
  - repeat constructor; simpl; lia.
  - repeat constructor; simpl; lia.
  - simpl. lia.
Defined.

Lemma calcular_trabajado_extra eventos cfg nl ent sal :
  ev_get eventos "Entrada" = Some ent ->
  ev_get eventos "Salida" = Some sal ->
  let r := calcular_trabajado eventos cfg nl in
  extra r =
  if (1 <? redondeo_extra_step_min cfg)
     && negb (String.eqb (redondeo_extra_modo cfg) "none")
  then round_minutes (Z.max 0 (trabajado r - umbral_extra_min cfg))
         (redondeo_extra_step_min cfg) (redondeo_extra_modo cfg)
  else Z.max 0 (trabajado r - umbral_extra_min cfg).
Proof.
  intros Hent Hsal. cbv zeta. unfold calcular_trabajado. rewrite Hent, Hsal.
  destruct (comida _ _ _ _) as [cd fv].
  destruct (no_laborado_bloque _ _ _ _) as [[[ed ov] so] ig]. simpl.
  destruct (Z.eqb_spec (redondeo_extra_step_min cfg) 0) as [->|]; simpl; [done|].
  done.
Qed.

(** X17: overtime against the threshold and the rounding grid. With Entry and
    Exit present, overtime is 0 whenever the worked minutes do not exceed the
    threshold; with rounding inactive (step at most 1, or mode "none") it is
    the worked minutes above the threshold; with rounding active it is a
    multiple of the step, less than one step away from the minutes above the
    threshold. *)
Theorem overtime_rounding eventos cfg nl ent sal :
  ev_get eventos "Entrada" = Some ent ->
  ev_get eventos "Salida" = Some sal ->
  let r := calcular_trabajado eventos cfg nl in
  let step := redondeo_extra_step_min cfg in
  let sobre := Z.max 0 (trabajado r - umbral_extra_min cfg) in
  (trabajado r <= umbral_extra_min cfg -> extra r = 0) /\
  (step <= 1 \/ redondeo_extra_modo cfg = "none"%string -> extra r = sobre) /\
  (1 < step -> redondeo_extra_modo cfg <> "none"%string ->
   (step | extra r) /\ sobre - step < extra r < sobre + step).
Proof.
  intros Hent Hsal. cbv zeta.
  rewrite (calcular_trabajado_extra eventos cfg nl ent sal Hent Hsal).
  generalize (trabajado (calcular_trabajado eventos cfg nl)). intros w.
  set (step := redondeo_extra_step_min cfg).
  assert (0 <= Z.max 0 (w - umbral_extra_min cfg)) as Hs by lia.
  assert (w <= umbral_extra_min cfg -> Z.max 0 (w - umbral_extra_min cfg) = 0) as Hz by lia.
  revert Hs Hz. generalize (Z.max 0 (w - umbral_extra_min cfg)). intros sobre Hs Hz.
  destruct (Z.ltb_spec 1 step) as [Hstep|Hstep];
    destruct (String.eqb_spec (redondeo_extra_modo cfg) "none") as [Hm|Hm]; simpl.
  - repeat split; try lia; done.
  - destruct (round_minutes_grid sobre step (redondeo_extra_modo cfg) Hstep)
      as (H0 & Hdiv & Hb).
    rewrite Z.max_r in Hb by done.
    split; [|split].
    + intros Hle. destruct Hdiv as [k Hk]. rewrite (Hz Hle) in *.
      rewrite Hk in *. assert (k < 1) by (apply (Z.mul_lt_mono_pos_r step); lia).
      assert (-1 < k) by (apply (Z.mul_lt_mono_pos_r step); lia).
      assert (k = 0) as -> by lia. lia.
    + intros [?|?]; [lia|done].
    + done.
  - repeat split; try lia; done.
  - repeat split; try lia; done.
Qed.

Lemma overtime_rounding_witness :
  let r := calcular_trabajado eventos_diez_minutos cfg_redondeo_up None in
  (redondeo_extra_step_min cfg_redondeo_up | extra r).
Proof.
  apply (overtime_rounding eventos_diez_minutos cfg_redondeo_up None (Time 9 0) (Time 9 10)).
  - reflexivity.
  - reflexivity.
  - simpl. lia.
  - discriminate.
Defined.

(** * The bounds of the configuration *)

Lemma validate_non_negative_int_Some v : 0 <= v -> validate_non_negative_int v = Some v.
Proof. intros H. unfold validate_non_negative_int. case_ltb; [lia|done]. Qed.

Lemma validate_non_negative_int_inv v w : validate_non_negative_int v = Some w -> 0 <= v.
Proof. unfold validate_non_negative_int. case_ltb; [done|lia]. Qed.

(** The validations pass exactly on values within the bounds. *)
Lemma reglas_validas_iff c :
  is_Some (reglas_validas c) <->
  0 <= umbral_extra_min (reglas_cfg c) /\
  0 <= redondeo_extra_step_min (reglas_cfg c) /\
  0 <= tope_descuento_comida_min (reglas_cfg c) /\
  0 <= umbral_comida_media_hora_min (reglas_cfg c) /\
  0 <= id_min_width c /\
  0 <= week_start_dow c <= 6.
Proof.
  unfold reglas_validas, validate_weekday. split.
  - intros [w Hw].
    destruct (validate_non_negative_int (umbral_extra_min _)) eqn:E1; [|done].
    destruct (validate_non_negative_int (redondeo_extra_step_min _)) eqn:E2; [|done].
    destruct (validate_non_negative_int (tope_descuento_comida_min _)) eqn:E3; [|done].
    destruct (validate_non_negative_int (umbral_comida_media_hora_min _)) eqn:E4; [|done].
    destruct (validate_non_negative_int (id_min_width _)) eqn:E5; [|done].
    simpl in Hw.
    destruct (validate_non_negative_int (week_start_dow _)) eqn:E6; [|done].
    apply validate_non_negative_int_inv in E1, E2, E3, E4, E5, E6.
    destruct (Z.ltb_spec 6 (week_start_dow c)); [done|]. lia.
  - intros (H1 & H2 & H3 & H4 & H5 & H6).
    rewrite !validate_non_negative_int_Some by lia. simpl.
    destruct (Z.ltb_spec 6 (week_start_dow c)); [lia|]. by eexists.
Qed.

(** X18: whatever integers the configuration file holds, after the bounds
    block of [cargar_config] the overtime threshold, the rounding step, the
    meal cap, the half-hour meal threshold and the ID width are non-negative
    and the week start is a weekday number from 0 to 6; the rounding mode is
    never touched; values within the bounds come back unchanged, so the
    block is idempotent. *)
Theorem cargar_config_limites_spec c :
  let c' := cargar_config_limites c in
  (0 <= umbral_extra_min (reglas_cfg c') /\
   0 <= redondeo_extra_step_min (reglas_cfg c') /\
   0 <= tope_descuento_comida_min (reglas_cfg c') /\
   0 <= umbral_comida_media_hora_min (reglas_cfg c') /\
   0 <= id_min_width c' /\
   0 <= week_start_dow c' <= 6) /\
  redondeo_extra_modo (reglas_cfg c') = redondeo_extra_modo (reglas_cfg c) /\
  (is_Some (reglas_validas c) -> c' = c) /\
  cargar_config_limites c' = c'.
Proof.
  cbv zeta.
  assert (is_Some (reglas_validas (cargar_config_limites c))) as Hok.
  { unfold cargar_config_limites.
    destruct (reglas_validas c) eqn:E; [by eexists|].
    apply reglas_validas_iff. simpl.
    destruct (Z.leb_spec 0 (week_start_dow c)).
    - pose proof (Z.mod_pos_bound (week_start_dow c) 7 ltac:(lia)). lia.
    - lia. }
  split; [by apply reglas_validas_iff|]. split; [|split].
  - unfold cargar_config_limites. by destruct (reglas_validas c).
  - intros [w Hw]. unfold cargar_config_limites. by rewrite Hw.
  - destruct Hok as [w Hw]. unfold cargar_config_limites at 1. by rewrite Hw.
Qed.

(** Every component of the result is non-negative and the worked minutes
    fit in the span, under a non-negative meal cap. *)
Lemma resultado_en_rango eventos cfg nl :
  wf_eventos eventos ->
  from_option (Forall wf_no_laborado) True nl ->
  0 <= tope_descuento_comida_min cfg ->
  let r := calcular_trabajado eventos cfg nl in
  0 <= trabajado r <= minutos_entre (ev_get eventos "Entrada") (ev_get eventos "Salida") /\
  0 <= extra r /\ 0 <= comida_ded r /\ 0 <= cena_ded r /\
  0 <= extra_ded r /\ 0 <= nolab_overlap_cd r /\ 0 <= nolab_solape_interno r /\
  0 <= ignored_outside_shift r.
Proof.
  intros Hwf Hnl Htope. cbv zeta.
  destruct (ev_get eventos "Entrada") as [ent|] eqn:Hent;
    [|rewrite calcular_trabajado_cero by (by left); simpl; unfold minutos_entre; lia].
  destruct (ev_get eventos "Salida") as [sal|] eqn:Hsal;
    [|rewrite calcular_trabajado_cero by (by right); simpl; unfold minutos_entre; lia].
  destruct (calcular_trabajado_fields eventos cfg nl ent sal Hent Hsal)
    as (Hc & Hd & He & Ho & Hs & Hi & Htr & Hex).
  assert (wf_time sal) as Hwsal by by eapply wf_eventos_get.
  assert (wf_time ent) as Hwent by by eapply wf_eventos_get.
  pose proof (minutos_entre_bounds ent sal Hwent Hwsal) as Hspan.
  pose proof (bloque_nonneg ent sal
    (ventanas_descuento (ev_get eventos "Salida a comer")
       (comida (ev_get eventos "Salida a comer") (ev_get eventos "Regreso de comer") sal cfg).2
       (ev_get eventos "Salida a cenar") (ev_get eventos "Regreso de cenar") sal)
    nl Hwsal Hnl) as Hb.
  cbv zeta in Hb. rewrite <- He, <- Ho, <- Hs, <- Hi in Hb.
  pose proof (comida_nonneg (ev_get eventos "Salida a comer")
                (ev_get eventos "Regreso de comer") sal cfg
                (wf_eventos_slot _ _ Hwf) (wf_eventos_slot _ _ Hwf) Hwsal Htope) as Hcn.
  rewrite <- Hc in Hcn.
  pose proof (cena_nonneg (ev_get eventos "Salida a cenar")
                (ev_get eventos "Regreso de cenar") sal
                (wf_eventos_slot _ _ Hwf) (wf_eventos_slot _ _ Hwf) Hwsal) as Hcen.
  rewrite <- Hd in Hcen.
  set (r := calcular_trabajado eventos cfg nl) in *.
  assert (0 <= extra r).
  { destruct Hex as [-> | (_ & _ & ->)]; [lia|apply round_minutes_nonneg]. }
  lia.
Qed.

(** X19: with a configuration that went through the bounds block of
    [cargar_config], whatever integers the file held, every component of the
    result of [calcular_trabajado] is non-negative and the worked minutes
    never exceed the span between Entry and Exit. *)
Theorem resultado_con_config_cargada eventos c nl :
  wf_eventos eventos ->
  from_option (Forall wf_no_laborado) True nl ->
  let r := calcular_trabajado eventos (reglas_cfg (cargar_config_limites c)) nl in
  0 <= trabajado r <= minutos_entre (ev_get eventos "Entrada") (ev_get eventos "Salida") /\
  0 <= extra r /\ 0 <= comida_ded r /\ 0 <= cena_ded r /\
  0 <= extra_ded r /\ 0 <= nolab_overlap_cd r /\ 0 <= nolab_solape_interno r /\
  0 <= ignored_outside_shift r.
Proof.
  intros Hwf Hnl. apply resultado_en_rango; [done..|].
  unfold cargar_config_limites.
  destruct (reglas_validas c) eqn:E; [|simpl; lia].
  assert (is_Some (reglas_validas c)) as Hok by by eexists.
  apply reglas_validas_iff in Hok. lia.
Qed.

Lemma resultado_con_config_cargada_witness :
  let r := calcular_trabajado eventos_comida_corta
             (reglas_cfg (cargar_config_limites reglas_fuera_de_rango)) None in
  0 <= comida_ded r.
Proof.
  apply (resultado_con_config_cargada eventos_comida_corta reglas_fuera_de_rango None).
  - apply wf_eventos_dict. repeat constructor; simpl; lia.
  - exact I.
Defined.

(** * The dinner guard of the day loop *)

Lemma ev_get_insert_ne eventos k k' v :
  k <> k' -> ev_get (<[k := v]> eventos) k' = ev_get eventos k'.
Proof. intros Hne. unfold ev_get. by rewrite lookup_insert_ne. Qed.

Lemma ev_get_insert_PyNone eventos k :
  ev_get (<[k := PyNone]> eventos) k = None.
Proof. unfold ev_get. by rewrite lookup_insert_eq. Qed.

(** What the guard does when it fires. *)
Lemma guardia_cena_cases eventos :
  guardia_cena eventos = eventos \/
  (exists ent sal sn fin,
     ev_get eventos "Entrada" = Some ent /\ ev_get eventos "Salida" = Some sal /\
     ev_get eventos "Salida a cenar" = Some sn /\
     (ev_get eventos "Regreso de comer" = Some fin \/
      ev_get eventos "Regreso de comer" = None /\
      is_Some (ev_get eventos "Salida a comer") /\ fin = sal) /\
     minutos_entre (Some ent) (Some sn) < minutos_entre (Some ent) (Some fin) /\
     guardia_cena eventos =
       <["Regreso de cenar"%string := PyNone]>
         (<["Salida a cenar"%string := PyNone]>
            (<["_cena_ignorada_anomalia"%string := PyInt 1]> eventos))).
Proof.
  unfold guardia_cena.
  destruct (ev_get eventos "Entrada") as [ent|] eqn:Hent; [|by left].
  destruct (ev_get eventos "Salida") as [sal|] eqn:Hsal; [|by left].
  destruct (ev_get eventos "Salida a cenar") as [sn|] eqn:Hsn; [|by left].
  destruct (ev_get eventos "Regreso de comer") as [r|] eqn:Hr.
  - destruct (Z.ltb_spec (minutos_entre (Some ent) (Some sn))
                         (minutos_entre (Some ent) (Some r))); [|by left].
    right. exists ent, sal, sn, r. repeat split; try done. by left.
  - destruct (ev_get eventos "Salida a comer") as [sc|] eqn:Hsc; [|by left].
    destruct (Z.ltb_spec (minutos_entre (Some ent) (Some sn))
                         (minutos_entre (Some ent) (Some sal))); [|by left].
    right. exists ent, sal, sn, sal. repeat split; try done. right. by eauto.
Qed.

(** X20: the dinner guard only ever touches the dinner: Entry, Exit and the
    two meal slots read the same after it. It acts only on a day with Entry,
    Exit and a dinner start: with any of the three absent the events come
    back as they are, whatever the dinner start. With Entry and Exit present,
    after the guard either there is no dinner start or the dinner starts,
    measured from Entry, no earlier than the meal ends (the meal return, or
    Exit when only the meal start is recorded); when the guard fires both
    dinner slots are emptied and the anomaly flag is set. Running it twice
    changes nothing more. *)
Theorem guardia_cena_spec eventos :
  let ev := guardia_cena eventos in
  (forall k, k ∈ ["Entrada"; "Salida"; "Salida a comer"; "Regreso de comer"]%string ->
             ev_get ev k = ev_get eventos k) /\
  (ev_get eventos "Entrada" = None \/ ev_get eventos "Salida" = None \/
   ev_get eventos "Salida a cenar" = None -> ev = eventos) /\
  (forall ent sal sn,
     ev_get ev "Entrada" = Some ent -> ev_get ev "Salida" = Some sal ->
     ev_get ev "Salida a cenar" = Some sn ->
     (forall fin, ev_get ev "Regreso de comer" = Some fin ->
                  minutos_entre (Some ent) (Some fin) <= minutos_entre (Some ent) (Some sn)) /\
     (ev_get ev "Regreso de comer" = None -> is_Some (ev_get ev "Salida a comer") ->
      minutos_entre (Some ent) (Some sal) <= minutos_entre (Some ent) (Some sn))) /\
  (ev <> eventos ->
   ev_get ev "Salida a cenar" = None /\ ev_get ev "Regreso de cenar" = None /\
   ev !! "_cena_ignorada_anomalia"%string = Some (PyInt 1)) /\
  guardia_cena ev = ev.
Proof.
  cbv zeta.
  assert (forall e, ev_get e "Salida a cenar" = None -> guardia_cena e = e) as Hnone.
  { intros e He. unfold guardia_cena. rewrite He. by repeat case_match. }
  destruct (guardia_cena_cases eventos)
    as [Heq | (ent & sal & sn & fin & Hent & Hsal & Hsn & Hfin & Hlt & Heq)].
  - rewrite Heq. split; [done|]. split; [done|]. split; [|split; [done|]].
    + intros ent sal sn Hent Hsal Hsn.
      assert (guardia_cena eventos = eventos) as Hg by done.
      unfold guardia_cena in Hg. rewrite Hent, Hsal, Hsn in Hg.
      split.
      * intros fin Hfin. rewrite Hfin in Hg.
        destruct (Z.ltb_spec (minutos_entre (Some ent) (Some sn))
                             (minutos_entre (Some ent) (Some fin))); [|done].
        exfalso. apply (f_equal (fun e => ev_get e "Salida a cenar")) in Hg.
        rewrite ev_get_insert_ne, ev_get_insert_PyNone in Hg by done. congruence.
      * intros Hfin [sc Hsc]. rewrite Hfin, Hsc in Hg.
        destruct (Z.ltb_spec (minutos_entre (Some ent) (Some sn))
                             (minutos_entre (Some ent) (Some sal))); [|done].
        exfalso. apply (f_equal (fun e => ev_get e "Salida a cenar")) in Hg.
        rewrite ev_get_insert_ne, ev_get_insert_PyNone in Hg by done. congruence.
    + exact Heq.
  - rewrite Heq.
    assert (ev_get (<["Regreso de cenar"%string := PyNone]>
                      (<["Salida a cenar"%string := PyNone]>
                         (<["_cena_ignorada_anomalia"%string := PyInt 1]> eventos)))
                   "Salida a cenar" = None) as Hcen
      by (by rewrite ev_get_insert_ne, ev_get_insert_PyNone).
    split; [|split; [|split; [|split]]].
    + intros k Hk.
      repeat (apply elem_of_cons in Hk as [->|Hk]; [by rewrite !ev_get_insert_ne|]).
      by apply elem_of_nil in Hk.
    + intros [H | [H | H]]; congruence.
    + intros ent' sal' sn' _ _ Hsn'. congruence.
    + intros _. split; [done|]. split; [apply ev_get_insert_PyNone|].
      rewrite !lookup_insert_ne by done. by rewrite lookup_insert_eq.
    + by apply Hnone.
Qed.

Lemma guardia_cena_spec_witness :
  let ev := guardia_cena eventos_cena_anomala in
  ev_get ev "Salida a cenar" = None /\ ev_get ev "Regreso de cenar" = None /\
  ev !! "_cena_ignorada_anomalia"%string = Some (PyInt 1).
Proof.
  apply (proj1 (proj2 (proj2 (proj2 (guardia_cena_spec eventos_cena_anomala))))).
  intros H. apply (f_equal (fun e => e !! "_cena_ignorada_anomalia"%string)) in H.
  vm_compute in H. discriminate.
Defined.

Lemma guardia_cena_id eventos :
  cronologico eventos ->
  (is_Some (ev_get eventos "Regreso de comer") ->
   is_Some (ev_get eventos "Salida a comer")) ->
  guardia_cena eventos = eventos.
Proof.
  intros Hcr Hslots.
  destruct (guardia_cena_cases eventos)
    as [Heq | (ent & sal & sn & fin & Hent & Hsal & Hsn & Hfin & Hlt & _)]; [done|].
  exfalso. destruct (Hcr ent sal Hent Hsal) as (_ & _ & H3). cbv zeta in H3.
  destruct Hfin as [Hfin | (Hfin & [sc Hsc] & ->)].
  - destruct (Hslots ltac:(by eexists)) as [sc Hsc].
    specialize (H3 sc sn Hsc Hsn). rewrite Hfin in H3. simpl in H3. lia.
  - specialize (H3 sc sn Hsc Hsn). rewrite Hfin in H3. simpl in H3. lia.
Qed.

Lemma guardia_cena_map_eventos times :
  Forall wf_time times ->
  guardia_cena (map_eventos (normalize_registro_times times).1)
  = map_eventos (normalize_registro_times times).1.
Proof.
  intros Hwf. apply guardia_cena_id; [by apply normalized_cronologico|].
  destruct (map_eventos_slots (normalize_registro_times times).1)
    as (_ & _ & H1 & H2 & _).
  cbv zeta in H1, H2. rewrite H1, H2.
  destruct (Nat.leb_spec 4 (length (normalize_registro_times times).1)) as [Hn|Hn];
    [|by intros [? ?]].
  intros _. destruct (Nat.leb_spec 3 (length (normalize_registro_times times).1)); [|lia].
  apply lookup_lt_is_Some. lia.
Qed.

(** X21: the dinner guard never fires on a chronological day whose meal
    return comes with a meal start, and in particular never on the events
    that [map_eventos] builds from normalized punches: without manual
    corrections the day loop hands [calcular_trabajado] exactly what
    [map_eventos] built. *)
Theorem guardia_cena_normalizado :
  (forall eventos,
     cronologico eventos ->
     (is_Some (ev_get eventos "Regreso de comer") ->
      is_Some (ev_get eventos "Salida a comer")) ->
     guardia_cena eventos = eventos) /\
  (forall times,
     Forall wf_time times ->
     guardia_cena (map_eventos (normalize_registro_times times).1)
     = map_eventos (normalize_registro_times times).1).
Proof.
  split; [apply guardia_cena_id|].
  intros times Hwf. set (out := (normalize_registro_times times).1).
  apply guardia_cena_id; [by apply normalized_cronologico|].
  destruct (map_eventos_slots out) as (_ & _ & Hsc & Hrc & _).
  cbv zeta in Hsc, Hrc. rewrite Hsc, Hrc.
  destruct (Nat.leb_spec 4 (length out)) as [Hn|Hn]; [|by intros [? ?]].
  intros _. destruct (Nat.leb_spec 3 (length out)); [|lia].
  apply lookup_lt_is_Some. lia.
Qed.

Lemma guardia_cena_normalizado_witness :
  guardia_cena (map_eventos (normalize_registro_times ocho_checadas).1)
  = map_eventos (normalize_registro_times ocho_checadas).1.
Proof.
  apply (proj2 guardia_cena_normalizado ocho_checadas).
  repeat constructor; simpl; lia.
Defined.

(** * The corrections of events *)

(** X22: corrections of events never add a key: after [corr_evs] is applied
    the dictionary has exactly the keys it had, a key that no correction
    names keeps its value, and corrections that only name unknown events
    change nothing. Well-formed times stay well-formed. *)
Theorem corregir_eventos_spec corr_evs eventos :
  let ev := corregir_eventos corr_evs eventos in
  dom ev = dom eventos /\
  (forall k, k ∉ corr_evs.*1 -> ev !! k = eventos !! k) /\
  (Forall (fun c : string * option time => eventos !! c.1 = None) corr_evs ->
   ev = eventos) /\
  (wf_eventos eventos ->
   Forall (fun c : string * option time => from_option wf_time True c.2) corr_evs ->
   wf_eventos ev).
Proof.
  cbv zeta. unfold corregir_eventos.
  revert eventos. induction corr_evs as [|[k v] l IH]; intros eventos.
  { simpl. split; [done|]. split; [done|]. split; [done|]. by intros. }
  simpl fold_left. cbn [fst snd].
  set (ev1 := if bool_decide (is_Some (eventos !! k))
              then <[k := match v with Some t => PyTime t | None => PyNone end]> eventos
              else eventos).
  destruct (IH ev1) as (Hdom & Hkeep & Hid & Hwf).
  assert (dom ev1 = dom eventos) as Hdom1.
  { subst ev1. case_bool_decide as Hk; [|done].
    rewrite dom_insert_L. apply elem_of_dom in Hk.
    apply set_eq. intros x. rewrite elem_of_union, elem_of_singleton.
    split; [intros [->|?]; done|by right]. }
  split; [by rewrite Hdom|]. split; [|split].
  - intros k' Hk'. rewrite fmap_cons in Hk'. cbn [fst] in Hk'.
    apply not_elem_of_cons in Hk' as [Hne Hk']. rewrite (Hkeep _ Hk').
    subst ev1. case_bool_decide; [|done]. by rewrite lookup_insert_ne.
  - intros Hall. apply Forall_cons in Hall as [Hk Hall]. cbn [fst] in Hk.
    assert (ev1 = eventos) as Heq.
    { subst ev1. rewrite bool_decide_eq_false_2; [done|]. rewrite Hk. by intros [? ?]. }
    rewrite Heq in *. by apply Hid.
  - intros Hwfe Hall. apply Forall_cons in Hall as [Hv Hall]. cbn [snd] in Hv.
    apply Hwf; [|done]. subst ev1. case_bool_decide; [|done].
    intros k' t Hk'. destruct (decide (k = k')) as [<-|Hne].
    + rewrite lookup_insert_eq in Hk'. destruct v as [t'|]; [|done].
      by replace t with t' by congruence.
    + rewrite lookup_insert_ne in Hk' by done. by eapply Hwfe.
Qed.

Lemma corregir_eventos_spec_witness :
  corregir_eventos [("Comida"%string, Some (Time 12 0))] eventos_B = eventos_B.
Proof.
  apply (corregir_eventos_spec [("Comida"%string, Some (Time 12 0))] eventos_B).
  repeat constructor.
Defined.

Lemma cargar_config_limites_spec_witness :
  cargar_config_limites
    {| reglas_cfg := AppConfig_default; id_min_width := 3; week_start_dow := 2 |}
  = {| reglas_cfg := AppConfig_default; id_min_width := 3; week_start_dow := 2 |}.
Proof.
  apply (proj1 (proj2 (proj2 (cargar_config_limites_spec
           {| reglas_cfg := AppConfig_default; id_min_width := 3; week_start_dow := 2 |})))).
  vm_compute. by eexists.
Defined.

(** * Parsing the punches of a cell *)

Lemma parse_time_wf value t : parse_time value = Some t -> wf_time t.
Proof.
  destruct value as [v|]; [|done]. unfold parse_time. cbv zeta.
  case_bool_decide; [done|]. destruct (_TIME_RE_search (strip v)) as [m|]; [|done].
  destruct (Z.leb_spec 0 (int_of_digits (group_h m))); simpl; [|done].
  destruct (Z.leb_spec (int_of_digits (group_h m)) 23); simpl; [|done].
  destruct (Z.leb_spec 0 (int_of_digits (group_m m))); simpl; [|done].
  destruct (Z.leb_spec (int_of_digits (group_m m)) 59); simpl; [|done].
  intros Heq. apply (inj Some) in Heq. subst t. unfold wf_time. simpl. lia.
Qed.

(** X23: [parse_time] only ever returns a time of the day: an hour from 0 to
    23 and a minute from 0 to 59, read from the first [h:m] of the text;
    [None], the empty string and text made of white space give [None]. *)
Theorem parse_time_range :
  (forall value t, parse_time value = Some t -> wf_time t) /\
  parse_time None = None /\
  (forall v, strip v = [] -> parse_time (Some v) = None).
Proof.
  split; [|split; [done|]].
  - apply parse_time_wf.
  - intros v Hv. unfold parse_time. cbv zeta. by rewrite Hv.
Qed.

Lemma parse_time_range_witness :
  wf_time (Time 7 8).
Proof.
  apply (proj1 parse_time_range (Some (String.list_ascii_of_string " a7:08b "))).
  vm_compute. reflexivity.
Defined.


(** The loop of [parse_registro] keeps [seen] equal to the keys of [found],
    and [found] well-formed, free of duplicates and drawn from the matches. *)
Lemma parse_registro_paso_inv ms found seen :
  Forall wf_time found -> NoDup found ->
  (forall h m, (h, m) ∈ seen <-> Time h m ∈ found) ->
  let st := fold_left parse_registro_paso ms (found, seen) in
  Forall wf_time st.1 /\ NoDup st.1 /\
  (forall t, t ∈ st.1 <->
             t ∈ found \/ exists m, m ∈ ms /\ parse_time (Some m.2) = Some t).
Proof.
  revert found seen. induction ms as [|m ms IH]; intros found seen Hwf Hnd Hseen.
  { simpl. split; [done|]. split; [done|]. intros t. split; [by left|].
    intros [?|(m & Hm & _)]; [done|]. by apply elem_of_nil in Hm. }
  simpl fold_left. unfold parse_registro_paso at 2. cbn [fst snd].
  destruct (parse_time (Some m.2)) as [t0|] eqn:Hp.
  - case_bool_decide as Hin.
    + destruct (IH found seen Hwf Hnd Hseen) as (H1 & H2 & H3).
      split; [done|]. split; [done|]. intros t. rewrite H3. split.
      * intros [?|(m' & Hm' & Hp')]; [by left|]. right. exists m'. split; [by right|done].
      * intros [?|(m' & Hm' & Hp')]; [by left|].
        apply elem_of_cons in Hm' as [->|Hm']; [|right; by exists m'].
        left. replace t with t0 by congruence. destruct t0 as [h0 m0].
        by apply Hseen.
    + assert (t0 ∉ found) as Hnin.
      { intros Hf. apply Hin. destruct t0 as [h0 m0]. by apply Hseen. }
      destruct (IH (found ++ [t0]) ({[(hour t0, minute t0)]} ∪ seen)) as (H1 & H2 & H3).
      * apply Forall_app. split; [done|]. constructor; [|done].
        by apply (parse_time_wf (Some m.2)).
      * apply NoDup_app. split; [done|]. split; [|apply NoDup_singleton].
        intros x Hx Hx'. apply list_elem_of_singleton in Hx'. by subst.
      * intros h mi. rewrite elem_of_union, elem_of_singleton, elem_of_app,
          list_elem_of_singleton, Hseen.
        destruct t0 as [h0 m0]. simpl. split.
        -- intros [Heq|?]; [right; congruence|by left].
        -- intros [?|Heq]; [by right|left; congruence].
      * split; [done|]. split; [done|]. intros t. rewrite H3, elem_of_app,
          list_elem_of_singleton. split.
        -- intros [[?| ->]|(m' & Hm' & Hp')]; [by left| |].
           ++ right. exists m. split; [by left|done].
           ++ right. exists m'. split; [by right|done].
        -- intros [?|(m' & Hm' & Hp')]; [by left; left|].
           apply elem_of_cons in Hm' as [->|Hm']; [|right; by exists m'].
           left. right. congruence.
  - destruct (IH found seen Hwf Hnd Hseen) as (H1 & H2 & H3).
    split; [done|]. split; [done|]. intros t. rewrite H3. split.
    + intros [?|(m' & Hm' & Hp')]; [by left|]. right. exists m'. split; [by right|done].
    + intros [?|(m' & Hm' & Hp')]; [by left|].
      apply elem_of_cons in Hm' as [->|Hm']; [congruence|]. right. by exists m'.
Qed.

Lemma parse_registro_wf registro :
  Forall wf_time (parse_registro registro) /\ NoDup (parse_registro registro).
Proof.
  unfold parse_registro. cbv zeta.
  destruct (parse_registro_paso_inv
              (_TIME_RE_finditer 0 (match registro with Some v => v | None => [] end))
              [] ∅) as (H1 & H2 & _); try done.
  - constructor.
  - intros h m. split; [intros H; by apply elem_of_empty in H|]. intros H. by apply elem_of_nil in H.
Qed.

(** X24: the punches that [parse_registro] returns are times of the day, no
    two of them equal, and they are exactly the times that [parse_time]
    reads from the matches of the pattern in the cell; [None] and text
    without a match give no punch. *)
Theorem parse_registro_spec registro :
  let s := match registro with Some v => v | None => [] end in
  Forall wf_time (parse_registro registro) /\
  NoDup (parse_registro registro) /\
  (forall t, t ∈ parse_registro registro <->
             exists m, m ∈ _TIME_RE_finditer 0 s /\ parse_time (Some m.2) = Some t) /\
  (length (parse_registro registro) <= length (_TIME_RE_finditer 0 s))%nat.
Proof.
  cbv zeta. destruct (parse_registro_wf registro) as [Hwf Hnd].
  split; [done|]. split; [done|].
  assert (forall t, t ∈ parse_registro registro <->
             exists m, m ∈ _TIME_RE_finditer 0
                             (match registro with Some v => v | None => [] end) /\
                       parse_time (Some m.2) = Some t) as Hin.
  { intros t. unfold parse_registro. cbv zeta.
    destruct (parse_registro_paso_inv
                (_TIME_RE_finditer 0 (match registro with Some v => v | None => [] end))
                [] ∅) as (_ & _ & H3); try done.
    - constructor.
    - intros h m. split; [intros H; by apply elem_of_empty in H|]. intros H. by apply elem_of_nil in H.
    - rewrite H3. split; [|by right]. intros [H|?]; [|done]. by apply elem_of_nil in H. }
  split; [done|].
  set (ms := _TIME_RE_finditer 0 (match registro with Some v => v | None => [] end)) in *.
  assert (parse_registro registro ⊆ omap (fun m => parse_time (Some m.2)) ms) as Hsub.
  { intros t Ht. apply Hin in Ht as (m & Hm & Hp). apply list_elem_of_omap. by exists m. }
  etrans; [apply (submseteq_length _ (omap (fun m => parse_time (Some m.2)) ms))|].
  - by apply NoDup_submseteq.
  - clear. induction ms as [|m ms IH]; [done|].
    change (omap (fun m => parse_time (Some m.2)) (m :: ms))
      with (match parse_time (Some m.2) with
            | Some t => t :: omap (fun m => parse_time (Some m.2)) ms
            | None => omap (fun m => parse_time (Some m.2)) ms
            end).
    destruct (parse_time (Some m.2)); cbn [length]; [by apply le_n_S|by apply le_S].
Qed.

(** * A day of the loop, from the text of the cell to the result *)

Lemma wf_guardia_cena eventos : wf_eventos eventos -> wf_eventos (guardia_cena eventos).
Proof.
  intros Hwf. destruct (guardia_cena_cases eventos) as [-> | (? & ? & ? & ? & H)]; [done|].
  destruct H as (_ & _ & _ & _ & _ & ->).
  repeat (apply wf_eventos_insert; [|done]). done.
Qed.

(** X25: a day of the loop without manual corrections, from the text of the
    cell to the result. Whatever the text, the mode and the exceptions, under
    a non-negative meal cap every component of the result is non-negative and
    the worked minutes fit in the span between Entry and Exit. Outside
    [modo_seguro] the dinner guard never fires, and worked minutes plus the
    meal, dinner and no-labor deductions are exactly the span. *)
Theorem procesar_dia_spec modo_seguro registro cfg no_lab :
  Forall wf_no_laborado no_lab ->
  0 <= tope_descuento_comida_min cfg ->
  let ev := eventos_del_dia modo_seguro registro in
  let r := procesar_dia modo_seguro registro cfg no_lab in
  let span := minutos_entre (ev_get ev "Entrada") (ev_get ev "Salida") in
  (0 <= trabajado r <= span /\
   0 <= extra r /\ 0 <= comida_ded r /\ 0 <= cena_ded r /\
   0 <= extra_ded r /\ 0 <= nolab_overlap_cd r /\ 0 <= nolab_solape_interno r /\
   0 <= ignored_outside_shift r) /\
  (modo_seguro = false ->
   ev = map_eventos (normalize_registro_times (parse_registro registro)).1 /\
   trabajado r + comida_ded r + cena_ded r + extra_ded r = span).
Proof.
  intros Hnl Htope. cbv zeta.
  destruct (parse_registro_wf registro) as [Hwf _].
  assert (wf_eventos (eventos_del_dia modo_seguro registro)) as Hwfe.
  { unfold eventos_del_dia. cbv zeta. apply wf_guardia_cena, wf_map_eventos.
    destruct modo_seguro; [done|].
    eapply Permutation_Forall; [symmetry; apply normalize_out_perm|done]. }
  split.
  - unfold procesar_dia. by apply resultado_en_rango.
  - intros ->.
    assert (eventos_del_dia false registro
            = map_eventos (normalize_registro_times (parse_registro registro)).1) as Hev
      by (by apply guardia_cena_map_eventos).
    split; [done|]. unfold procesar_dia. rewrite Hev in *.
    apply trabajado_mas_deducciones; try done.
    by apply normalized_cronologico.
Qed.

Lemma procesar_dia_spec_witness :
  let registro := Some (String.list_ascii_of_string "22:00 00:25 23:45 06:00") in
  let ev := eventos_del_dia false registro in
  let r := procesar_dia false registro AppConfig_default no_laborado_nocturno in
  trabajado r + comida_ded r + cena_ded r + extra_ded r
  = minutos_entre (ev_get ev "Entrada") (ev_get ev "Salida").
Proof.
  apply (procesar_dia_spec false
           (Some (String.list_ascii_of_string "22:00 00:25 23:45 06:00"))
           AppConfig_default no_laborado_nocturno).
  - repeat constructor; simpl; lia.
  - simpl. lia.
  - reflexivity.
Defined.

(** * Formatting and reading back *)

Lemma digit_char_spec d :
  0 <= d <= 9 ->
  is_digit (digit_char d) = true /\ digit_value (digit_char d) = d /\
  Ascii.eqb (digit_char d) ":" = false /\ is_space (digit_char d) = false.
Proof.
  intros Hd.
  assert (Forall (fun d => is_digit (digit_char d) = true /\
                           digit_value (digit_char d) = d /\
                           Ascii.eqb (digit_char d) ":" = false /\
                           is_space (digit_char d) = false) (seqZ 0 10)) as Hall
    by (vm_compute; repeat constructor).
  rewrite Forall_forall in Hall. apply Hall, elem_of_seqZ. lia.
Qed.

Lemma int_of_digits_snoc l c :
  int_of_digits (l ++ [c]) = 10 * int_of_digits l + digit_value c.
Proof. unfold int_of_digits. by rewrite fold_left_app. Qed.

Lemma decimal_aux_app fuel n acc :
  decimal_aux fuel n acc = decimal_aux fuel n [] ++ acc.
Proof.
  revert n acc. induction fuel as [|fuel IH]; intros n acc; [done|].
  simpl. destruct (n <? 10); [done|].
  rewrite (IH _ (_ :: acc)), (IH _ [_]). by rewrite <- app_assoc.
Qed.

Lemma decimal_aux_spec fuel n :
  0 <= n < 10 ^ Z.of_nat (S fuel) ->
  Forall (fun c => is_digit c = true) (decimal_aux (S fuel) n []) /\
  int_of_digits (decimal_aux (S fuel) n []) = n /\
  decimal_aux (S fuel) n [] <> [].
Proof.
  revert n. induction fuel as [|fuel IH]; intros n Hn.
  - change (10 ^ Z.of_nat 1) with 10 in Hn. simpl.
    destruct (Z.ltb_spec n 10); [|lia].
    rewrite Z.mod_small by lia.
    destruct (digit_char_spec n ltac:(lia)) as (H1 & H2 & _).
    split; [by constructor|]. split; [|done]. unfold int_of_digits. simpl. lia.
  - change (decimal_aux (S (S fuel)) n [])
      with (let acc' := [digit_char (n mod 10)] in
            if n <? 10 then acc' else decimal_aux (S fuel) (n / 10) acc').
    cbv zeta.
    pose proof (Z.mod_pos_bound n 10 ltac:(lia)) as Hm.
    destruct (digit_char_spec (n mod 10) ltac:(lia)) as (H1 & H2 & _).
    destruct (Z.ltb_spec n 10).
    + split; [by constructor|]. split; [|done]. unfold int_of_digits. simpl.
      rewrite Z.mod_small in * by lia. lia.
    + rewrite decimal_aux_app.
      assert (0 <= n / 10 < 10 ^ Z.of_nat (S fuel)) as Hq.
      { split; [apply Z.div_pos; lia|]. apply Z.div_lt_upper_bound; [lia|].
        replace (Z.of_nat (S (S fuel))) with (Z.succ (Z.of_nat (S fuel))) in Hn by lia.
        rewrite Z.pow_succ_r in Hn by lia. lia. }
      destruct (IH _ Hq) as (I1 & I2 & I3).
      split; [apply Forall_app; split; [done|by constructor]|].
      split; [|by destruct (decimal_aux (S fuel) (n / 10) [])].
      rewrite int_of_digits_snoc, I2, H2.
      pose proof (Z.div_mod n 10 ltac:(lia)). lia.
Qed.

(** The decimal digits of a number read back as the number. *)
Lemma decimal_spec n :
  0 <= n ->
  Forall (fun c => is_digit c = true) (decimal n) /\
  int_of_digits (decimal n) = n /\ decimal n <> [].
Proof.
  intros Hn. unfold decimal. apply decimal_aux_spec. split; [done|].
  destruct (Z.eq_dec n 0) as [->|Hne].
  { change (Z.log2 0) with 0. simpl. lia. }
  pose proof (Z.log2_spec n ltac:(lia)) as [_ Hlt].
  pose proof (Z.log2_nonneg n) as Hl.
  replace (Z.of_nat (S (Z.to_nat (Z.log2 n)))) with (Z.succ (Z.log2 n)) by lia.
  eapply Z.lt_le_trans; [exact Hlt|]. apply Z.pow_le_mono_l. lia.
Qed.

Lemma decimal_small n : 0 <= n <= 9 -> decimal n = [digit_char n].
Proof.
  intros Hn.
  assert (Forall (fun n => decimal n = [digit_char n]) (seqZ 0 10)) as Hall
    by (vm_compute; repeat constructor).
  rewrite Forall_forall in Hall. apply Hall, elem_of_seqZ. lia.
Qed.

Lemma decimal_two n :
  10 <= n <= 99 -> decimal n = [digit_char (n / 10); digit_char (n mod 10)].
Proof.
  intros Hn. unfold decimal.
  assert (exists k, Z.to_nat (Z.log2 n) = S (S k)) as [k ->].
  { assert (3 <= Z.log2 n) by (apply Z.log2_le_pow2; simpl; lia).
    exists (Z.to_nat (Z.log2 n) - 2)%nat. lia. }
  change (decimal_aux (S (S (S k))) n [])
    with (let acc' := [digit_char (n mod 10)] in
          if n <? 10 then acc' else decimal_aux (S (S k)) (n / 10) acc').
  cbv zeta. destruct (Z.ltb_spec n 10); [lia|].
  assert (0 <= n / 10 <= 9) as Hq.
  { split; [apply Z.div_pos; lia|]. apply Z.lt_succ_r, Z.div_lt_upper_bound; lia. }
  change (decimal_aux (S (S k)) (n / 10) [digit_char (n mod 10)])
    with (let acc' := digit_char ((n / 10) mod 10) :: [digit_char (n mod 10)] in
          if n / 10 <? 10 then acc' else decimal_aux (S k) (n / 10 / 10) acc').
  cbv zeta. destruct (Z.ltb_spec (n / 10) 10); [|lia].
  by rewrite (Z.mod_small (n / 10)) by lia.
Qed.

(** Two digits for a number below 100. *)
Lemma format_02d_two n :
  0 <= n <= 99 -> format_02d n = [digit_char (n / 10); digit_char (n mod 10)].
Proof.
  intros Hn. unfold format_02d. destruct (Z.ltb_spec n 0); [lia|].
  destruct (Z.ltb_spec n 10).
  - rewrite decimal_small by lia.
    rewrite (Z.div_small n 10) by lia. rewrite (Z.mod_small n 10) by lia. reflexivity.
  - apply decimal_two. lia.
Qed.

Lemma format_02d_digits n :
  0 <= n ->
  Forall (fun c => is_digit c = true) (format_02d n) /\
  int_of_digits (format_02d n) = n /\ format_02d n <> [].
Proof.
  intros Hn. unfold format_02d. destruct (Z.ltb_spec n 0); [lia|].
  destruct (decimal_spec n Hn) as (H1 & H2 & H3).
  destruct (Z.ltb_spec n 10); [|done].
  split; [by constructor|]. split; [|done].
  rewrite decimal_small in * by lia. unfold int_of_digits in *. simpl in *.
  change (digit_value "0") with 0. lia.
Qed.

Lemma strip_two_ends a mid z :
  is_space a = false -> is_space z = false ->
  strip (a :: mid ++ [z]) = a :: mid ++ [z].
Proof.
  intros Ha Hz. unfold strip.
  assert (lstrip (a :: mid ++ [z]) = a :: mid ++ [z]) as -> by (simpl; by rewrite Ha).
  assert (rev (a :: mid ++ [z]) = z :: rev (a :: mid)) as Hrev.
  { rewrite app_comm_cons. by rewrite rev_app_distr. }
  rewrite Hrev.
  assert (lstrip (z :: rev (a :: mid)) = z :: rev (a :: mid)) as ->
    by (unfold lstrip at 1; by rewrite Hz).
  rewrite <- Hrev. apply rev_involutive.
Qed.

Lemma digits_1_2_two a b r :
  is_digit a = true -> is_digit b = true ->
  digits_1_2 (a :: b :: r) = [([a; b], r); ([a], b :: r)].
Proof. intros Ha Hb. unfold digits_1_2. by rewrite Ha, Hb. Qed.

Lemma colon_cons r : colon (":"%char :: r) = [r].
Proof. reflexivity. Qed.

(** The pattern on two digits, a colon and two digits, before text that does
    not go on with a colon. *)
Lemma _TIME_RE_at_hhmm a b c d rest :
  is_digit a = true -> is_digit b = true -> is_digit c = true -> is_digit d = true ->
  colon rest = [] ->
  _TIME_RE_at (a :: b :: ":"%char :: c :: d :: rest)
  = Some (TimeMatch [a; b] [c; d] None 5).
Proof.
  intros Ha Hb Hc Hd Hrest. unfold _TIME_RE_at.
  rewrite (digits_1_2_two a b) by done.
  rewrite bind_cons. cbv beta iota.
  rewrite colon_cons, bind_singleton.
  rewrite (digits_1_2_two c d) by done.
  rewrite bind_cons. cbv beta iota.
  rewrite Hrest. cbn [mbind list_bind app head].
  do 2 f_equal. cbn [length]. lia.
Qed.

(** A well-formed time is written as two digits, a colon and two digits that
    read back as its hour and minute. *)
Lemma fmt_hhmm_digits t :
  wf_time t ->
  exists a b c d,
    fmt_hhmm (Some t) = [a; b; ":"%char; c; d] /\
    (is_digit a = true /\ is_digit b = true /\ is_digit c = true /\ is_digit d = true) /\
    (is_space a = false /\ is_space d = false) /\
    int_of_digits [a; b] = hour t /\ int_of_digits [c; d] = minute t.
Proof.
  intros [Hh Hm].
  pose proof (Z.div_mod (hour t) 10 ltac:(lia)) as Ehd.
  pose proof (Z.mod_pos_bound (hour t) 10 ltac:(lia)) as Ehm.
  pose proof (Z.div_mod (minute t) 10 ltac:(lia)) as Emd.
  pose proof (Z.mod_pos_bound (minute t) 10 ltac:(lia)) as Emm.
  assert (0 <= hour t / 10 <= 9) as Qh
    by (split; [apply Z.div_pos; lia|apply Z.lt_succ_r, Z.div_lt_upper_bound; lia]).
  assert (0 <= minute t / 10 <= 9) as Qm
    by (split; [apply Z.div_pos; lia|apply Z.lt_succ_r, Z.div_lt_upper_bound; lia]).
  destruct (digit_char_spec (hour t / 10) Qh) as (A1 & A2 & _ & A4).
  destruct (digit_char_spec (hour t mod 10) ltac:(lia)) as (B1 & B2 & _ & B4).
  destruct (digit_char_spec (minute t / 10) Qm) as (C1 & C2 & _ & C4).
  destruct (digit_char_spec (minute t mod 10) ltac:(lia)) as (D1 & D2 & _ & D4).
  eexists _, _, _, _. split; [reflexivity|]. split; [done|]. split; [done|].
  unfold int_of_digits. simpl. rewrite A2, B2, C2, D2. lia.
Qed.

Lemma parse_time_hhmm a b c d t :
  is_digit a = true -> is_digit b = true -> is_digit c = true -> is_digit d = true ->
  is_space a = false -> is_space d = false ->
  int_of_digits [a; b] = hour t -> int_of_digits [c; d] = minute t ->
  wf_time t ->
  parse_time (Some [a; b; ":"%char; c; d]) = Some t.
Proof.
  intros Ha Hb Hc Hd Sa Sd Hh Hm [Wh Wm]. unfold parse_time. cbv zeta.
  change [a; b; ":"%char; c; d] with (a :: [b; ":"%char; c] ++ [d]).
  rewrite (strip_two_ends a [b; ":"%char; c] d Sa Sd). cbn [app].
  rewrite bool_decide_eq_false_2 by done.
  unfold _TIME_RE_search. rewrite (_TIME_RE_at_hhmm a b c d []) by done.
  cbn [group_h group_m]. rewrite Hh, Hm.
  destruct (Z.leb_spec 0 (hour t)); [|lia].
  destruct (Z.leb_spec (hour t) 23); [|lia].
  destruct (Z.leb_spec 0 (minute t)); [|lia].
  destruct (Z.leb_spec (minute t) 59); [|lia].
  simpl. by destruct t.
Qed.

Lemma parse_time_fmt_hhmm t :
  wf_time t -> parse_time (Some (fmt_hhmm (Some t))) = Some t.
Proof.
  intros Hwf.
  destruct (fmt_hhmm_digits t Hwf)
    as (a & b & c & d & -> & (Ha & Hb & Hc & Hd) & (Sa & Sd) & Hh & Hm).
  by apply parse_time_hhmm.
Qed.

(** X26: a punch written as HH:MM reads back as itself. For every time of
    the day the two formatters [fmt_hhmm] and [_fmt_hhmm] write the same five
    characters, [parse_time] reads them back as that time, and
    [parse_registro] as that single punch; so a list of times written one by
    one, as a bulk plan stores them, is read back unchanged. *)
Theorem parse_time_fmt_roundtrip :
  (forall t, wf_time t ->
     _fmt_hhmm (Some t) = fmt_hhmm (Some t) /\
     length (fmt_hhmm (Some t)) = 5%nat /\
     parse_time (Some (fmt_hhmm (Some t))) = Some t /\
     parse_registro (Some (fmt_hhmm (Some t))) = [t]) /\
  (forall times, Forall wf_time times ->
     omap (fun t => parse_time (Some (fmt_hhmm (Some t)))) times = times).
Proof.
  split.
  - intros t Hwf. split; [|split; [done|split; [by apply parse_time_fmt_hhmm|]]].
    + destruct Hwf as [Hh Hm]. unfold _fmt_hhmm, fmt_hhmm.
      by rewrite !format_02d_two by lia.
    + pose proof (parse_time_fmt_hhmm t Hwf) as Hp.
      destruct (fmt_hhmm_digits t Hwf)
        as (a & b & c & d & Hfmt & (Ha & Hb & Hc & Hd) & _).
      rewrite Hfmt in *. unfold parse_registro. cbv zeta.
      unfold _TIME_RE_finditer. rewrite (_TIME_RE_at_hhmm a b c d []) by done.
      cbn [match_len take Nat.sub fold_left].
      unfold parse_registro_paso. cbn [snd]. rewrite Hp. cbn [fst snd].
      rewrite bool_decide_eq_false_2; [done|]. apply not_elem_of_empty.
  - intros times Hwf. induction Hwf as [|t times Ht _ IH]; [done|].
    change (omap (fun t => parse_time (Some (fmt_hhmm (Some t)))) (t :: times))
      with (match parse_time (Some (fmt_hhmm (Some t))) with
            | Some y => y :: omap (fun t => parse_time (Some (fmt_hhmm (Some t)))) times
            | None => omap (fun t => parse_time (Some (fmt_hhmm (Some t)))) times
            end).
    by rewrite parse_time_fmt_hhmm, IH.
Qed.

Lemma parse_time_fmt_roundtrip_witness :
  parse_time (Some (fmt_hhmm (Some (Time 7 8)))) = Some (Time 7 8).
Proof.
  apply (proj1 parse_time_fmt_roundtrip (Time 7 8)). unfold wf_time. simpl. lia.
Defined.

(** * Worked minutes written as HH:MM and read back *)

Lemma is_digit_not_space c : is_digit c = true -> is_space c = false.
Proof.
  unfold is_digit, is_space. intros H. apply andb_true_iff in H as [H1 H2].
  apply Z.leb_le in H1, H2.
  repeat (apply orb_false_iff; split); try apply andb_false_iff;
    try (apply Z.eqb_neq; lia).
  - right. apply Z.leb_gt. lia.
  - right. apply Z.leb_gt. lia.
Qed.

Lemma is_digit_lower c : is_digit c = true -> lower_char c = c.
Proof.
  unfold is_digit, lower_char. intros H. apply andb_true_iff in H as [H1 H2].
  apply Z.leb_le in H1, H2.
  destruct (Z.leb_spec 65 (code c)); [lia|]. simpl.
  destruct (Z.leb_spec 192 (code c)); [lia|]. done.
Qed.

(** [\d+] first takes the whole run of digits. *)
Lemma digits_plus_run ds rest :
  Forall (fun c => is_digit c = true) ds -> ds <> [] ->
  digits_plus rest = [] ->
  exists others, digits_plus (ds ++ rest) = (ds, rest) :: others.
Proof.
  intros Hds. induction Hds as [|x ds Hx Hds IH]; intros Hne Hrest; [done|].
  simpl. rewrite Hx. destruct ds as [|y ds].
  - simpl. rewrite Hrest. by eexists.
  - destruct (IH ltac:(done) Hrest) as [others ->].
    rewrite fmap_cons. cbn [fst snd]. by eexists.
Qed.

Lemma hhmm_match_digits ds c d :
  Forall (fun c => is_digit c = true) ds -> ds <> [] ->
  is_digit c = true -> is_digit d = true ->
  hhmm_match (ds ++ ":"%char :: [c; d]) = Some (ds, [c; d]).
Proof.
  intros Hds Hne Hc Hd. unfold hhmm_match.
  destruct (digits_plus_run ds (":"%char :: [c; d]) Hds Hne) as [others ->]; [done|].
  rewrite bind_cons. cbv beta iota. rewrite colon_cons, bind_singleton.
  unfold digits_2. rewrite Hc, Hd. done.
Qed.

Lemma hhmm_to_minutes_digits ds c d :
  Forall (fun c => is_digit c = true) ds -> ds <> [] ->
  is_digit c = true -> is_digit d = true ->
  hhmm_to_minutes (Some (ds ++ ":"%char :: [c; d]))
  = int_of_digits ds * 60 + int_of_digits [c; d].
Proof.
  intros Hds Hne Hc Hd. unfold hhmm_to_minutes. cbv zeta.
  destruct ds as [|x ds]; [done|]. apply Forall_cons in Hds as [Hx Hds].
  assert (strip ((x :: ds) ++ ":"%char :: [c; d]) = (x :: ds) ++ ":"%char :: [c; d])
    as ->.
  { change ((x :: ds) ++ ":"%char :: [c; d]) with (x :: ds ++ ":"%char :: [c; d]).
    replace (ds ++ ":"%char :: [c; d]) with ((ds ++ [":"%char; c]) ++ [d])
      by (by rewrite <- app_assoc).
    apply strip_two_ends; by apply is_digit_not_space. }
  set (s := (x :: ds) ++ ":"%char :: [c; d]).
  assert (forall w, lower_char <$> s <> "n"%char :: w) as Hn.
  { intros w Heq. unfold s in Heq. rewrite <- app_comm_cons, fmap_cons in Heq.
    rewrite (is_digit_lower x Hx) in Heq.
    assert (x = "n"%char) as -> by congruence. by vm_compute in Hx. }
  rewrite (bool_decide_eq_false_2 (s = [])) by done.
  rewrite (bool_decide_eq_false_2 (lower_char <$> s = _)) by apply Hn.
  rewrite (bool_decide_eq_false_2 (lower_char <$> s = _)) by apply Hn.
  cbn [orb]. unfold s.
  rewrite (hhmm_match_digits (x :: ds) c d) by (done || by constructor). done.
Qed.

Lemma hhmm_roundtrip n : hhmm_to_minutes (Some (minutes_to_hhmm n)) = Z.max 0 n.
Proof.
  unfold minutes_to_hhmm. destruct (Z.leb_spec n 0) as [Hn|Hn].
  { rewrite Z.max_l by done. reflexivity. }
  cbv zeta.
  pose proof (Z.div_mod n 60 ltac:(lia)) as Hd.
  pose proof (Z.mod_pos_bound n 60 ltac:(lia)) as Hm.
  assert (0 <= n / 60) as Hq by (apply Z.div_pos; lia).
  destruct (format_02d_digits (n / 60) Hq) as (H1 & H2 & H3).
  rewrite (format_02d_two (n mod 60)) by lia.
  pose proof (Z.mod_pos_bound (n mod 60) 10 ltac:(lia)) as Hmm.
  assert (0 <= n mod 60 / 10 <= 9) as Hmq
    by (split; [apply Z.div_pos; lia|apply Z.lt_succ_r, Z.div_lt_upper_bound; lia]).
  destruct (digit_char_spec (n mod 60 / 10) Hmq) as (C1 & C2 & _).
  destruct (digit_char_spec (n mod 60 mod 10) ltac:(lia)) as (D1 & D2 & _).
  rewrite hhmm_to_minutes_digits by done. rewrite H2.
  unfold int_of_digits. simpl. rewrite C2, D2.
  pose proof (Z.div_mod (n mod 60) 10 ltac:(lia)). lia.
Qed.

(** X27: minutes written by [minutes_to_hhmm] are read back by
    [hhmm_to_minutes]: every positive number of minutes, however many hours
    it makes, comes back unchanged and every other number comes back as 0;
    in particular the worked and overtime minutes of every result of
    [calcular_trabajado], which the day loop writes as HH:MM and the
    summaries read back, are recovered exactly. *)
Theorem hhmm_to_minutes_roundtrip :
  (forall n, hhmm_to_minutes (Some (minutes_to_hhmm n)) = Z.max 0 n) /\
  (forall eventos cfg nl,
     let r := calcular_trabajado eventos cfg nl in
     hhmm_to_minutes (Some (minutes_to_hhmm (trabajado r))) = trabajado r /\
     hhmm_to_minutes (Some (minutes_to_hhmm (extra r))) = extra r).
Proof.
  split; [apply hhmm_roundtrip|].
  intros eventos cfg nl. cbv zeta. rewrite !hhmm_roundtrip.
  destruct (ev_get eventos "Entrada") as [ent|] eqn:Hent;
    [|rewrite calcular_trabajado_cero by (by left); done].
  destruct (ev_get eventos "Salida") as [sal|] eqn:Hsal;
    [|rewrite calcular_trabajado_cero by (by right); done].
  destruct (calcular_trabajado_fields eventos cfg nl ent sal Hent Hsal)
    as (_ & _ & _ & _ & _ & _ & Htr & Hex).
  split; [lia|].
  destruct Hex as [-> | (_ & _ & ->)]; [lia|].
  pose proof (round_minutes_nonneg
                (Z.max 0 (trabajado (calcular_trabajado eventos cfg nl)
                          - umbral_extra_min cfg))
                (redondeo_extra_step_min cfg) (redondeo_extra_modo cfg)). lia.
Qed.

(** * The column of parsed punches read back *)

Lemma _TIME_RE_at_no_digit x s : is_digit x = false -> _TIME_RE_at (x :: s) = None.
Proof.
  intros Hx. unfold _TIME_RE_at.
  assert (digits_1_2 (x :: s) = []) as ->; [|done].
  unfold digits_1_2. destruct s; by rewrite Hx.
Qed.

Lemma _TIME_RE_finditer_no_digit x s :
  is_digit x = false -> _TIME_RE_finditer 0 (x :: s) = _TIME_RE_finditer 0 s.
Proof. intros Hx. cbn [_TIME_RE_finditer]. by rewrite _TIME_RE_at_no_digit. Qed.

Lemma _TIME_RE_finditer_hhmm a b c d rest :
  is_digit a = true -> is_digit b = true -> is_digit c = true -> is_digit d = true ->
  colon rest = [] ->
  exists m, _TIME_RE_finditer 0 (a :: b :: ":"%char :: c :: d :: rest)
            = (m, [a; b; ":"%char; c; d]) :: _TIME_RE_finditer 0 rest.
Proof.
  intros Ha Hb Hc Hd Hrest. eexists.
  cbn [_TIME_RE_finditer]. rewrite (_TIME_RE_at_hhmm a b c d rest) by done.
  cbn [match_len Nat.sub take]. reflexivity.
Qed.

Lemma registros_parseados_cons t ts :
  registros_parseados (t :: ts)
  = fmt_hhmm (Some t)
    ++ match ts with
       | [] => []
       | _ :: _ => ","%char :: " "%char :: registros_parseados ts
       end.
Proof.
  unfold registros_parseados. rewrite fmap_cons. destruct ts as [|t' ts].
  - rewrite app_nil_r. reflexivity.
  - reflexivity.
Qed.

(** The matches of the pattern in the column are the punches it lists. *)
Lemma _TIME_RE_finditer_registros ts :
  Forall wf_time ts ->
  (_TIME_RE_finditer 0 (registros_parseados ts)).*2 = (fun t => fmt_hhmm (Some t)) <$> ts.
Proof.
  induction 1 as [|t ts Ht Hts IH]; [done|].
  rewrite registros_parseados_cons.
  destruct (fmt_hhmm_digits t Ht)
    as (a & b & c & d & Hfmt & (Ha & Hb & Hc & Hd) & _).
  rewrite fmap_cons, Hfmt. cbn [app].
  destruct ts as [|t' ts'].
  - destruct (_TIME_RE_finditer_hhmm a b c d [] Ha Hb Hc Hd eq_refl) as [m ->].
    reflexivity.
  - destruct (_TIME_RE_finditer_hhmm a b c d
                (","%char :: " "%char :: registros_parseados (t' :: ts'))
                Ha Hb Hc Hd eq_refl) as [m ->].
    rewrite fmap_cons. cbn [snd]. f_equal.
    rewrite !_TIME_RE_finditer_no_digit by reflexivity. exact IH.
Qed.

Lemma parse_registro_paso_fmt ms ts found seen :
  ms.*2 = (fun t => fmt_hhmm (Some t)) <$> ts ->
  Forall wf_time ts -> NoDup ts ->
  (forall t, t ∈ ts -> (hour t, minute t) ∉ seen) ->
  (fold_left parse_registro_paso ms (found, seen)).1 = found ++ ts.
Proof.
  revert ms found seen. induction ts as [|t ts IH]; intros ms found seen Hms Hwf Hnd Hseen.
  { destruct ms; [|done]. simpl. by rewrite app_nil_r. }
  destruct ms as [|m ms]; [done|]. rewrite !fmap_cons in Hms.
  apply Forall_cons in Hwf as [Ht Hwf]. apply NoDup_cons in Hnd as [Hnin Hnd].
  assert (m.2 = fmt_hhmm (Some t)) as Hm by congruence.
  assert (ms.*2 = (fun t => fmt_hhmm (Some t)) <$> ts) as Hms' by congruence.
  cbn [fold_left]. unfold parse_registro_paso at 2.
  rewrite Hm, (parse_time_fmt_hhmm t Ht). cbn [fst snd].
  rewrite bool_decide_eq_false_2 by (apply Hseen; by left).
  rewrite (IH ms (found ++ [t]) _ Hms' Hwf Hnd).
  - by rewrite <- app_assoc.
  - intros t' Ht'. rewrite elem_of_union, elem_of_singleton.
    intros [Heq|Hin].
    + apply Hnin. destruct t as [h1 m1], t' as [h2 m2]. simpl in Heq.
      by replace (Time h1 m1) with (Time h2 m2) by congruence.
    + apply (Hseen t'); [by right|done].
Qed.

(** X28: the column "Registros parseados" reads back as the punches it was
    written from: for times of the day without repetition, joining their
    HH:MM with ", " and parsing the text with [parse_registro] gives the same
    list in the same order; this applies to every list that [parse_registro]
    returns. *)
Theorem registros_parseados_roundtrip :
  (forall times, Forall wf_time times -> NoDup times ->
     parse_registro (Some (registros_parseados times)) = times) /\
  (forall registro,
     parse_registro (Some (registros_parseados (parse_registro registro)))
     = parse_registro registro).
Proof.
  assert (forall times, Forall wf_time times -> NoDup times ->
            parse_registro (Some (registros_parseados times)) = times) as Hgen.
  { intros times Hwf Hnd. unfold parse_registro at 1. cbv zeta.
    rewrite (parse_registro_paso_fmt _ times [] ∅);
      [done|by apply _TIME_RE_finditer_registros|done|done|].
    intros t _. apply not_elem_of_empty. }
  split; [exact Hgen|].
  intros registro. destruct (parse_registro_wf registro). by apply Hgen.
Qed.

Lemma registros_parseados_roundtrip_witness :
  parse_registro (Some (registros_parseados [Time 22 0; Time 0 25; Time 6 0]))
  = [Time 22 0; Time 0 25; Time 6 0].
Proof.
  apply (proj1 registros_parseados_roundtrip [Time 22 0; Time 0 25; Time 6 0]).
  - repeat constructor; simpl; lia.
  - by apply (bool_decide_unpack (NoDup _)).
Defined.

(** * Exceptions inside a meal or dinner window *)

(** An interval inside a window overlaps the windows by its whole length. *)
Lemma spec_no_solapado_dentro vs w m :
  w ∈ vs -> w.1 <= m.1 -> m.1 <= m.2 -> m.2 <= w.2 -> spec_no_solapado vs m = 0.
Proof.
  intros Hw H1 H2 H3. unfold spec_no_solapado, spec_solape_ventanas.
  assert (m.2 - m.1 <= sumZ (spec_solape m <$> vs)); [|lia].
  induction vs as [|v vs IH]; [by apply elem_of_nil in Hw|].
  rewrite fmap_cons. simpl sumZ.
  assert (0 <= sumZ (spec_solape m <$> vs)) as Hpos.
  { clear. induction vs as [|v vs IH]; [done|]. rewrite fmap_cons. simpl sumZ.
    unfold spec_solape at 1. lia. }
  apply elem_of_cons in Hw as [<-|Hw].
  - unfold spec_solape at 1. lia.
  - specialize (IH Hw). unfold spec_solape at 1. lia.
Qed.

(** X29: exceptions inside a meal or dinner window that ends by Exit are
    never deducted a second time. Take one of the recorded windows (the meal
    window as the code records it, or the dinner window) whose end, measured
    from Entry, is no later than Exit. If every exception that counts starts
    and ends, measured from Entry, inside that window, then the no-labor
    deduction is 0 and nothing is counted as ignored outside the shift. For a
    window that runs past Exit this fails: see
    [excepcion_en_ventana_tras_salida]. *)
Theorem excepciones_en_ventana eventos cfg l ent sal v :
  wf_eventos eventos ->
  Forall wf_no_laborado l ->
  ev_get eventos "Entrada" = Some ent ->
  ev_get eventos "Salida" = Some sal ->
  let off t := minutos_entre (Some ent) (Some t) in
  v ∈ ventanas_descuento (ev_get eventos "Salida a comer")
        (comida (ev_get eventos "Salida a comer") (ev_get eventos "Regreso de comer")
           sal cfg).2
        (ev_get eventos "Salida a cenar") (ev_get eventos "Regreso de cenar") sal ->
  off v.2 <= off sal ->
  Forall (fun x : no_laborado =>
            forall ini, x.1.1 = Some ini ->
              off v.1 <= off ini /\ off ini <= off (default sal x.1.2) /\
              off (default sal x.1.2) <= off v.2) l ->
  let r := calcular_trabajado eventos cfg (Some l) in
  extra_ded r = 0 /\ ignored_outside_shift r = 0.
Proof.
  intros Hwf Hl Hent Hsal off Hv Hv2 Hin. subst off. cbv beta zeta in *.
  pose proof (wf_eventos_get _ _ _ Hwf Hent) as Hwe.
  pose proof (wf_eventos_get _ _ _ Hwf Hsal) as Hws.
  destruct (calcular_trabajado_fields eventos cfg (Some l) ent sal Hent Hsal)
    as (_ & _ & He & _ & _ & Hi & _).
  pose proof (wf_spec_ventanas_horas eventos cfg sal Hwf Hws) as Hvw.
  rewrite spec_ventanas_horas_eq in Hvw.
  rewrite He, Hi. rewrite (bloque_spec ent sal Hwe Hws _ l Hvw Hl). cbn [fst snd].
  set (vent := ventanas_descuento _ _ _ _ _) in *.
  (* a window that ends before it starts holds no exception at all *)
  destruct (Z.le_gt_cases (minutos_entre (Some ent) (Some v.1))
                          (minutos_entre (Some ent) (Some v.2))) as [Hv12|Hv12]; cycle 1.
  { assert (spec_efectivos sal l = []) as Hnil.
    { clear -Hin Hv12. induction Hin as [|x xs Hx _ IH]; [done|].
      unfold spec_efectivos in *.
      change (omap ?f (x :: xs)) with (match f x with Some y => y :: omap f xs | None => omap f xs end).
      cbv beta. destruct (x.1.1) as [ini|]; [|exact IH].
      specialize (Hx ini eq_refl). lia. }
    unfold spec_merged. rewrite Hnil. done. }
  assert (wf_time v.1 /\ wf_time v.2) as [Hv1w Hv2w].
  { assert (Forall (fun v : time * time => wf_time v.1 /\ wf_time v.2) vent) as Hall.
    { apply wf_ventanas_descuento; try (by apply wf_eventos_slot); [|done].
      apply comida_fin_wf; [by apply wf_eventos_slot|done]. }
    rewrite Forall_forall in Hall. by apply Hall. }
  set (d := datetime_of ent).
  assert (spec_intervalo ent sal v = (d + minutos_entre (Some ent) (Some v.1), d + minutos_entre (Some ent) (Some v.2))) as Hw.
  { rewrite (surjective_pairing v) at 1.
    by apply (spec_intervalo_offsets ent sal Hwe Hws). }
  pose proof (spec_jornada_eq ent sal Hwe Hws) as Hj. fold d in Hj.
  pose proof (minutos_entre_bounds ent v.1 Hwe Hv1w) as Hb1.
  (* every effective exception sits inside the window, on the timeline *)
  assert (Forall (fun x : time * time =>
            let a := spec_intervalo ent sal x in
            d + minutos_entre (Some ent) (Some v.1) <= a.1 /\ a.1 <= a.2 /\ a.2 <= d + minutos_entre (Some ent) (Some v.2))
            (spec_efectivos sal l)) as Hef.
  { apply Forall_forall. intros x Hx. unfold spec_efectivos in Hx.
    apply list_elem_of_omap in Hx as (y & Hy & Hyx).
    rewrite Forall_forall in Hin, Hl.
    destruct (y.1.1) as [ini|] eqn:Hini; [|done].
    apply (inj Some) in Hyx. subst x.
    destruct (Hin y Hy ini Hini) as (H1 & H2 & H3).
    destruct (Hl y Hy) as [Hwi Hwf']. rewrite Hini in Hwi. simpl in Hwi.
    assert (wf_time (default sal y.1.2)) as Hwd by (by destruct (y.1.2)).
    cbv zeta.
    rewrite (spec_intervalo_offsets ent sal Hwe Hws ini (default sal y.1.2))
      by (done || lia).
    cbn [fst snd]. lia. }
  split.
  - (* no deduction *)
    assert (Forall (en_ventana (d + minutos_entre (Some ent) (Some v.1), d + minutos_entre (Some ent) (Some v.2)))
              (spec_recortados ent sal (spec_efectivos sal l))) as Hrec.
    { apply Forall_forall. intros i Hi'. unfold spec_recortados in Hi'.
      apply list_elem_of_omap in Hi' as (x & Hx & Hd).
      rewrite Forall_forall in Hef. specialize (Hef x Hx). cbv zeta in Hef.
      unfold spec_dentro in Hd. cbv zeta in Hd. rewrite Hj in Hd. cbn [fst snd] in Hd.
      destruct (Z.leb_spec (Z.min (spec_intervalo ent sal x).2 (d + minutos_entre (Some ent) (Some sal)))
                           (Z.max (spec_intervalo ent sal x).1 d)); [done|].
      apply (inj Some) in Hd. subst i. unfold en_ventana. cbn [fst snd]. lia. }
    assert (Forall (en_ventana (d + minutos_entre (Some ent) (Some v.1), d + minutos_entre (Some ent) (Some v.2))) (spec_merged ent sal l)) as Hm.
    { unfold spec_merged. apply spec_fusionados_en_ventana.
      eapply Permutation_Forall; [symmetry; apply sorted_perm|done]. }
    assert (spec_intervalo ent sal v ∈ spec_intervalo ent sal <$> vent) as Hwin
      by (by apply list_elem_of_fmap_2).
    rewrite Hw in Hwin.
    induction Hm as [|m ms Hm1 _ IH]; [done|].
    rewrite fmap_cons. simpl sumZ. rewrite IH.
    destruct Hm1 as (M1 & M2 & M3). cbn [fst snd] in *.
    rewrite (spec_no_solapado_dentro _ _ m Hwin); cbn [fst snd]; lia.
  - (* nothing ignored *)
    unfold spec_ignorados. induction Hef as [|x xs Hx _ IH]; [done|].
    rewrite fmap_cons. simpl sumZ. rewrite IH. cbv zeta in Hx.
    unfold spec_ignorado, spec_dentro. cbv zeta. rewrite Hj. cbn [fst snd].
    destruct (Z.leb_spec (Z.min (spec_intervalo ent sal x).2 (d + minutos_entre (Some ent) (Some sal)))
                         (Z.max (spec_intervalo ent sal x).1 d)); cbn [fst snd]; lia.
Qed.

(** A dinner window that runs past Exit: shift 09:00-17:00, dinner recorded
    16:00-18:00, exception 17:10-17:50. The exception is inside the window,
    but all of it lies after Exit and is counted as ignored. *)
Example excepcion_en_ventana_tras_salida :
  let eventos := dict [("Entrada", Time 9 0); ("Salida a cenar", Time 16 0);
                       ("Regreso de cenar", Time 18 0); ("Salida", Time 17 0)]%string in
  let r := calcular_trabajado eventos AppConfig_default
             (Some [(Some (Time 17 10), Some (Time 17 50), "tras la salida"%string)]) in
  extra_ded r = 0 /\ ignored_outside_shift r = 40.
Proof. vm_compute. done. Qed.

Lemma excepciones_en_ventana_witness :
  let r := calcular_trabajado eventos_nocturnos_comida AppConfig_default
             (Some [(Some (Time 23 50), Some (Time 0 10), "solapa comida"%string)]) in
  extra_ded r = 0 /\ ignored_outside_shift r = 0.
Proof.
  apply (excepciones_en_ventana eventos_nocturnos_comida AppConfig_default _
           (Time 22 0) (Time 6 0) (Time 23 45, Time 0 15)).
  - apply wf_eventos_dict. repeat constructor; simpl; lia.
  - repeat constructor; simpl; lia.
  - reflexivity.
  - reflexivity.
  - vm_compute. left.
  - vm_compute. discriminate.
  - constructor; [|constructor]. intros ini Hini. apply (inj Some) in Hini.
    subst ini. vm_compute. repeat split; discriminate.
Defined.

(** * Safe mode *)

(** X30: [modo_seguro] only matters for punches out of order: when the
    punches parsed from the cell are already in non-decreasing order of
    minute of day, the day loop builds the same events and computes the same
    result with and without it. *)
Theorem modo_seguro_ordenado registro cfg no_lab :
  Sorted Z.le (min_of_day <$> parse_registro registro) ->
  eventos_del_dia true registro = eventos_del_dia false registro /\
  procesar_dia true registro cfg no_lab = procesar_dia false registro cfg no_lab.
Proof.
  intros Hs.
  assert (normalize_registro_times (parse_registro registro)
          = (parse_registro registro, false)) as Hn.
  { destruct (Nat.lt_ge_cases (length (parse_registro registro)) 2) as [Hlen|Hlen].
    { by apply normalize_short. }
    apply normalize_unchanged_iff; [done|].
    rewrite (wrap_likely_no_smaller _ (has_smaller_sorted _ Hs)).
    erewrite list_fmap_ext; [exact Hs|]. intros i x _. apply adj_of_false. }
  assert (eventos_del_dia true registro = eventos_del_dia false registro) as Hev.
  { unfold eventos_del_dia. cbv zeta. by rewrite Hn. }
  split; [done|]. unfold procesar_dia. by rewrite Hev.
Qed.

Lemma modo_seguro_ordenado_witness :
  let registro := Some (String.list_ascii_of_string "09:00 12:00 13:10 17:00") in
  procesar_dia true registro AppConfig_default []
  = procesar_dia false registro AppConfig_default [].
Proof.
  apply (modo_seguro_ordenado
           (Some (String.list_ascii_of_string "09:00 12:00 13:10 17:00"))).
  vm_compute. repeat constructor; discriminate.
Defined.
